(** * Unity Asset Store upgrade-discount scraper: a shallow embedding

    Source: [src/artngame_unity_upgrades_scraper.py].

    Modelling conventions.
    - A Python [str] is a [string]; each character is a code point below 256.
    - A parsed JSON value (and every Python value the script pushes around:
      prices, names, CSV cells) is a [json]; JSON numbers are the integers
      ([JInt]); non-integral numbers are outside the model.
    - A Python [set] of strings is a [gset string]; [dict]s coming from the
      JSON parser are association lists in insertion order.
    - Files are [option string] ([None]: the file does not exist); the CSV
      file is kept as the list of records handed to [csv.writer].
    - The browser is an oracle ([browser]) for what a listing page shows and
      which responses an asset page triggers, plus the log of navigations
      the script asked for. *)

From Stdlib Require Import ZArith.
From Stdlib Require Import Ascii.
From Stdlib Require String DecimalString.
From stdpp Require Import gmap strings list sorting.

(** ** Python string primitives *)

Module Py.

Definition code (c : ascii) : nat := Ascii.nat_of_ascii c.

(** [str.isspace] restricted to code points below 256. *)
Definition is_space (c : ascii) : bool :=
  let n := code c in
  ((9 <=? n) && (n <=? 13)) || ((28 <=? n) && (n <=? 32))
  || (n =? 133) || (n =? 160).

Definition is_empty (s : string) : bool :=
  match s with EmptyString => true | String _ _ => false end.

Fixpoint lstrip (s : string) : string :=
  match s with
  | EmptyString => EmptyString
  | String c r => if is_space c then lstrip r else s
  end.

Fixpoint rstrip (s : string) : string :=
  match s with
  | EmptyString => EmptyString
  | String c r =>
      let r' := rstrip r in
      if is_space c && is_empty r' then EmptyString else String c r'
  end.

(** [s.strip()] *)
Definition strip (s : string) : string := lstrip (rstrip s).

(** [c in s] for a one-character [c] *)
Fixpoint has_char (c : ascii) (s : string) : bool :=
  match s with
  | EmptyString => false
  | String a r => Ascii.eqb a c || has_char c r
  end.

(** [sub in s] *)
Fixpoint contains (sub s : string) : bool :=
  match s with
  | EmptyString => String.prefix sub EmptyString
  | String _ r => String.prefix sub s || contains sub r
  end.

(** [s.split(c, 1)]: the text before the first [c] and the rest, or
    [None] when [c] does not occur (Python then returns [[s]]). *)
Fixpoint split_first (c : ascii) (s : string) : option (string * string) :=
  match s with
  | EmptyString => None
  | String a r =>
      if Ascii.eqb a c then Some (EmptyString, r)
      else match split_first c r with
           | Some (x, y) => Some (String a x, y)
           | None => None
           end
  end.

(** [s.split(c)[-1]] *)
Fixpoint last_segment (c : ascii) (s : string) : string :=
  match s with
  | EmptyString => EmptyString
  | String a r =>
      if has_char c r then last_segment c r
      else if Ascii.eqb a c then r else s
  end.

Definition LF : ascii := "010"%char.
Definition CR : ascii := "013"%char.
Definition newline : string := String LF EmptyString.

(** [f.readlines()] of a file opened in text mode for reading: universal
    newlines, so a line ends at LF, CR LF or a lone CR, and each
    terminator is handed over as LF. *)
Fixpoint readlines (s : string) : list string :=
  match s with
  | EmptyString => []
  | String c r =>
      if Ascii.eqb c LF then newline :: readlines r
      else if Ascii.eqb c CR then
        match r with
        | String c2 r2 =>
            if Ascii.eqb c2 LF then newline :: readlines r2
            else newline :: readlines r
        | EmptyString => [newline]
        end
      else match readlines r with
           | [] => [String c EmptyString]
           | l :: ls => String c l :: ls
           end
  end.

(** [str(n)] for an integer *)
Definition str_of_Z (n : Z) : string :=
  DecimalString.NilZero.string_of_int (Z.to_int n).

(** [sep.join(parts)] *)
Definition join (sep : string) (parts : list string) : string :=
  String.concat sep parts.

End Py.

(** ** Python values: parsed JSON *)

Unset Elimination Schemes.
Inductive json : Type :=
| JNull
| JBool (b : bool)
| JInt (n : Z)
| JStr (s : string)
| JArr (items : list json)
| JObj (fields : list (string * json)).
Set Elimination Schemes.

Abbreviation dict := (list (string * json)).

Module Value.

(** [bool(v)] *)
Definition truthy (v : json) : bool :=
  match v with
  | JNull => false
  | JBool b => b
  | JInt n => negb (n =? 0)%Z
  | JStr s => negb (Py.is_empty s)
  | JArr l => match l with [] => false | _ => true end
  | JObj f => match f with [] => false | _ => true end
  end.

(** [a or b] *)
Definition or_else (a b : json) : json := if truthy a then a else b.

Definition is_dict (v : json) : bool :=
  match v with JObj _ => true | _ => false end.

Definition is_list (v : json) : bool :=
  match v with JArr _ => true | _ => false end.

(** [d[k]] when [k in d] *)
Fixpoint lookup (k : string) (d : dict) : option json :=
  match d with
  | [] => None
  | (k', v) :: rest => if String.eqb k' k then Some v else lookup k rest
  end.

(** [d.get(k)] *)
Definition get (k : string) (d : dict) : json :=
  match lookup k d with Some v => v | None => JNull end.

(** Can the value be put in a [set]? Lists and dicts raise [TypeError]. *)
Definition hashable (v : json) : bool :=
  match v with JArr _ | JObj _ => false | _ => true end.

(** [a == b] on hashable values: [None] only equals itself, booleans and
    integers compare as numbers, strings as strings. *)
Definition eqb (a b : json) : bool :=
  match a, b with
  | JNull, JNull => true
  | JBool x, JBool y => Bool.eqb x y
  | JBool x, JInt n | JInt n, JBool x => (n =? (if x then 1 else 0))%Z
  | JInt n, JInt m => (n =? m)%Z
  | JStr s, JStr t => String.eqb s t
  | _, _ => false
  end.

Definition hex_digit (n : nat) : ascii :=
  Ascii.ascii_of_nat (if n <? 10 then 48 + n else 87 + n).

Definition hex2 (c : ascii) : string :=
  let n := Py.code c in
  String (hex_digit (n / 16)) (String (hex_digit (n mod 16)) EmptyString).

Definition squote : ascii := "039"%char.
Definition dquote : ascii := "034"%char.
Definition backslash : ascii := "092"%char.

(** [c.isprintable()] below 256 *)
Definition printable (c : ascii) : bool :=
  let n := Py.code c in
  ((32 <=? n) && (n <? 127)) || ((161 <=? n) && negb (n =? 173)).

Fixpoint repr_chars (q : ascii) (s : string) : string :=
  match s with
  | EmptyString => EmptyString
  | String c r =>
      (if Ascii.eqb c q || Ascii.eqb c backslash then String backslash (String c EmptyString)
       else if Ascii.eqb c "009"%char then String backslash "t"
       else if Ascii.eqb c Py.LF then String backslash "n"
       else if Ascii.eqb c Py.CR then String backslash "r"
       else if printable c then String c EmptyString
       else String backslash ("x" +:+ hex2 c))
      +:+ repr_chars q r
  end.

(** [repr(s)] for a string *)
Definition repr_str (s : string) : string :=
  let q := if Py.has_char squote s && negb (Py.has_char dquote s)
           then dquote else squote in
  String q (repr_chars q s +:+ String q EmptyString).

(** [repr(v)] *)
Fixpoint repr (v : json) : string :=
  match v with
  | JNull => "None"
  | JBool b => if b then "True" else "False"
  | JInt n => Py.str_of_Z n
  | JStr s => repr_str s
  | JArr l => "[" +:+ Py.join ", " (map repr l) +:+ "]"
  | JObj f =>
      "{" +:+ Py.join ", " (map (fun kv => repr_str kv.1 +:+ ": " +:+ repr kv.2) f) +:+ "}"
  end.

(** [str(v)], which is also what an f-string field prints *)
Definition str (v : json) : string :=
  match v with JStr s => s | _ => repr v end.

End Value.

(** [json.dumps(data)] with the default settings ([ensure_ascii]). *)
Module Dumps.

Definition escape (c : ascii) : string :=
  let n := Py.code c in
  if Ascii.eqb c Value.dquote then String Value.backslash (String Value.dquote EmptyString)
  else if Ascii.eqb c Value.backslash then String Value.backslash (String Value.backslash EmptyString)
  else if Ascii.eqb c Py.LF then String Value.backslash "n"
  else if Ascii.eqb c Py.CR then String Value.backslash "r"
  else if Ascii.eqb c "009"%char then String Value.backslash "t"
  else if Ascii.eqb c "008"%char then String Value.backslash "b"
  else if Ascii.eqb c "012"%char then String Value.backslash "f"
  else if (32 <=? n) && (n <? 127) then String c EmptyString
  else String Value.backslash ("u00" +:+ Value.hex2 c).

Fixpoint escape_all (s : string) : string :=
  match s with
  | EmptyString => EmptyString
  | String c r => escape c +:+ escape_all r
  end.

Definition quoted (s : string) : string :=
  String Value.dquote (escape_all s +:+ String Value.dquote EmptyString).

Fixpoint dumps (v : json) : string :=
  match v with
  | JNull => "null"
  | JBool b => if b then "true" else "false"
  | JInt n => Py.str_of_Z n
  | JStr s => quoted s
  | JArr l => "[" +:+ Py.join ", " (map dumps l) +:+ "]"
  | JObj f =>
      "{" +:+ Py.join ", " (map (fun kv => quoted kv.1 +:+ ": " +:+ dumps kv.2) f) +:+ "}"
  end.

End Dumps.

(** Induction over nested values. *)
Section json_induction.
Variable P : json -> Prop.
Hypothesis HNull : P JNull.
Hypothesis HBool : forall b, P (JBool b).
Hypothesis HInt : forall n, P (JInt n).
Hypothesis HStr : forall s, P (JStr s).
Hypothesis HArr : forall l, Forall P l -> P (JArr l).
Hypothesis HObj : forall f, Forall (fun kv => P kv.2) f -> P (JObj f).

Fixpoint json_ind (v : json) : P v :=
  match v with
  | JNull => HNull
  | JBool b => HBool b
  | JInt n => HInt n
  | JStr s => HStr s
  | JArr l =>
      HArr l ((fix all (l : list json) : Forall P l :=
                 match l with
                 | [] => List.Forall_nil P
                 | x :: r => List.Forall_cons P x r (json_ind x) (all r)
                 end) l)
  | JObj f =>
      HObj f ((fix all (f : dict) : Forall (fun kv => P kv.2) f :=
                 match f with
                 | [] => List.Forall_nil _
                 | kv :: r => List.Forall_cons _ kv r (json_ind kv.2) (all r)
                 end) f)
  end.
End json_induction.

(** ** The fact extractors (lines 51-99)

    The Python functions append to a list they are handed; here the list is
    passed in and the extended list is returned. *)

Abbreviation price_pair := (json * json)%type.
Abbreviation upgrade := (json * string)%type.

Definition STORE : string := "https://assetstore.unity.com".

Definition offer_fact (o : dict) (found_prices : list price_pair) : list price_pair :=
  let orig := Value.get "originalPrice" o in
  let final := Value.get "finalPrice" o in
  if Value.truthy orig || Value.truthy final
  then found_prices ++ [(orig, final)] else found_prices.

Fixpoint extract_offer_rating (data : json) (found_prices : list price_pair)
  : list price_pair :=
  match data with
  | JObj fields =>
      fold_left (fun acc kv =>
        let '(k, v) := kv in
        match v with
        | JObj o =>
            if String.eqb k "offerRating" then offer_fact o acc
            else extract_offer_rating v acc
        | _ => extract_offer_rating v acc
        end) fields found_prices
  | JArr items => fold_left (fun acc item => extract_offer_rating item acc) items found_prices
  | _ => found_prices
  end.

Definition upgrade_fact (o : dict) : upgrade :=
  let name := Value.or_else (Value.get "name" o)
                (Value.or_else (Value.get "title" o) (JStr "Unknown")) in
  let url := Value.get "url" o in
  (name, if Value.truthy url then STORE +:+ Value.str url else EmptyString).

Definition is_upgrade_key (k : string) : bool :=
  String.eqb k "upgradeFrom" || String.eqb k "upgradableFrom".

Definition upgrade_value (v : json) (upgrades : list upgrade) : list upgrade :=
  match v with
  | JArr l =>
      fold_left (fun acc upg =>
        match upg with JObj o => acc ++ [upgrade_fact o] | _ => acc end) l upgrades
  | JObj o => upgrades ++ [upgrade_fact o]
  | _ => upgrades
  end.

Fixpoint extract_upgrade_from (data : json) (upgrades : list upgrade) : list upgrade :=
  match data with
  | JObj fields =>
      fold_left (fun acc kv =>
        let '(k, v) := kv in
        if is_upgrade_key k then upgrade_value v acc
        else extract_upgrade_from v acc) fields upgrades
  | JArr items => fold_left (fun acc item => extract_upgrade_from item acc) items upgrades
  | _ => upgrades
  end.

Definition name_fact (o : dict) (names : list json) : list json :=
  match Value.lookup "name" o with
  | Some n => names ++ [n]
  | None => names
  end.

Definition results_names (l : list json) (names : list json) : list json :=
  fold_left (fun acc result =>
    match result with JObj o => name_fact o acc | _ => acc end) l names.

Definition is_product_key (k : string) : bool :=
  String.eqb k "product" || String.eqb k "item".

Fixpoint extract_asset_name (data : json) (names : list json) : list json :=
  match data with
  | JObj fields =>
      fold_left (fun acc kv =>
        let '(k, v) := kv in
        match v with
        | JArr l =>
            if String.eqb k "results" then results_names l acc
            else extract_asset_name v acc
        | JObj o =>
            if is_product_key k then name_fact o acc
            else extract_asset_name v acc
        | _ => extract_asset_name v acc
        end) fields names
  | JArr items => fold_left (fun acc item => extract_asset_name item acc) items names
  | _ => names
  end.

(** ** The response handler (lines 147-158) *)

Record response := {
  all_headers : option (list (string * string)); (* [None]: the call raises *)
  body_json : option json                        (* [None]: [response.json()] raises *)
}.

(** The three lists [process_asset] creates for one asset. *)
Record facts := {
  found_prices : list price_pair;
  upgrade_from : list upgrade;
  asset_names : list json
}.

Definition no_facts : facts :=
  {| found_prices := []; upgrade_from := []; asset_names := [] |}.

Inductive outcome := Returned | Raised.

Fixpoint header_get (k : string) (h : list (string * string)) : option string :=
  match h with
  | [] => None
  | (k', v) :: rest => if String.eqb k' k then Some v else header_get k rest
  end.

Definition gate_words : list string :=
  ["offerRating"; "upgradeFrom"; "upgradableFrom"; "results"; "product"].

Definition gate (text : string) : bool :=
  existsb (fun k => Py.contains k text) gate_words.

(** [headers.get("content-type") or ""]: header values are strings, so
    the [or] only replaces a missing one. *)
Definition content_type_of (headers : list (string * string)) : string :=
  match header_get "content-type" headers with
  | Some v => v
  | None => EmptyString
  end.

(** The body of the [try]: the lists as it leaves them, and whether it
    raised. *)
Definition try_body (r : response) (f : facts) : facts * outcome :=
  match all_headers r with
  | None => (f, Raised)
  | Some headers =>
      if Py.contains "application/json" (content_type_of headers) then
        match body_json r with
        | None => (f, Raised)
        | Some data =>
            let text := Dumps.dumps data in
            if gate text then
              ({| found_prices := extract_offer_rating data (found_prices f);
                  upgrade_from := extract_upgrade_from data (upgrade_from f);
                  asset_names := extract_asset_name data (asset_names f) |}, Returned)
            else (f, Returned)
        end
      else (f, Returned)
  end.

(** [except Exception: pass] *)
Definition handle_response (r : response) (f : facts) : facts := (try_body r f).1.

Definition json_response (data : json) : response :=
  {| all_headers := Some [("content-type", "application/json; charset=utf-8")];
     body_json := Some data |}.

(** ** Configuration (lines 11-19) *)

Definition DEFAULT_PUBLISHER : string * string :=
  ("ARTnGAME", "https://assetstore.unity.com/publishers/6503?pageSize=96").
Definition BATCH_SIZE : nat := 10.
Definition PAGE_SIZE : nat := 96.

(** ** The outside world *)

(** A navigation the script asks the browser for ([page.goto]). *)
Inductive nav :=
| NavSignIn
| NavPublisher (url : string)
| NavListing (url : string)
| NavAsset (url : string).

(** What the run reads and never writes: [publishers.txt], whether
    [storage_state.json] exists, the [href] attribute of every element a
    listing page offers to the selector, the responses an asset page has
    delivered to the handler by the time its results are read, and the
    order in which the interpreter lists the elements of a set of price
    pairs (Python leaves it open; it depends on the hashes). *)
Record env := {
  publishers_txt : option string;
  storage_exists : bool;
  listing : string -> list (option string);
  responses : string -> list response;
  set_order : list (json * json) -> list (json * json)
}.

Abbreviation row := (list json).

(** What the run changes: the three output files and the navigation log. *)
Record world := {
  out_txt : option string;
  out_csv : option (list row);
  progress : option string;
  visited : list nav
}.

Definition text_of (f : option string) : string := default EmptyString f.
Definition rows_of (f : option (list row)) : list row := default [] f.

(** Opening a file in mode [a] creates it when it is missing. *)
Definition append_text (f : option string) (text : string) : option string :=
  Some (text_of f +:+ text).

(** ** Helpers (lines 28-49, 101-104) *)

Definition save_txt_line (text : string) (w : world) : world :=
  {| out_txt := append_text (out_txt w) (text +:+ Py.newline);
     out_csv := out_csv w; progress := progress w; visited := visited w |}.

Definition save_csv_row (r : row) (w : world) : world :=
  {| out_txt := out_txt w;
     out_csv := Some (rows_of (out_csv w) ++ [r]);
     progress := progress w; visited := visited w |}.

Definition mark_processed (link : string) (w : world) : world :=
  {| out_txt := out_txt w; out_csv := out_csv w;
     progress := append_text (progress w) (link +:+ Py.newline);
     visited := visited w |}.

Definition load_processed (w : world) : gset string :=
  match progress w with
  | None => ∅
  | Some content => list_to_set (Py.strip <$> Py.readlines content)
  end.

Definition goto (n : nav) (w : world) : world :=
  {| out_txt := out_txt w; out_csv := out_csv w; progress := progress w;
     visited := visited w ++ [n] |}.

Definition wrap_hyperlink (url : string) (label : json) : string :=
  let label := Value.or_else label (JStr url) in
  let q := String Value.dquote EmptyString in
  "=HYPERLINK(" +:+ q +:+ url +:+ q +:+ "," +:+ q +:+ Value.str label +:+ q +:+ ")".

Fixpoint batched_aux {A} (fuel : nat) (l : list A) (n : nat) : list (list A) :=
  match fuel with
  | 0 => []
  | S fuel' =>
      match take n l with
      | [] => []
      | batch => batch :: batched_aux fuel' (drop n l) n
      end
  end.

(** [batched(iterable, n)]: the loop runs at most once per element. *)
Definition batched {A} (l : list A) (n : nat) : list (list A) :=
  batched_aux (length l) l n.

(** ** Crawling a publisher's listing pages (lines 107-140) *)

Definition page_url (base_url : string) (page_num : nat) : string :=
  base_url +:+ "&page=" +:+ Py.str_of_Z (Z.of_nat page_num).

Definition page_links (hrefs : list (option string)) : gset string :=
  fold_left (fun acc el =>
    match el with
    | Some href =>
        if negb (Py.is_empty href) && Py.contains "/packages/" href
        then acc ∪ {[ STORE +:+ href ]} else acc
    | None => acc
    end) hrefs ∅.

(** [sorted(s)] of a set of strings *)
Definition sorted (s : gset string) : list string :=
  merge_sort String.le (elements s).

(** The [while True] loop; [fuel] bounds the number of page fetches, and
    [None] says the loop was still running when it was used up. *)
Fixpoint collect_loop (fuel : nat) (e : env) (base_url : string) (page_size : nat)
    (page_num : nat) (all_links : gset string) (w : world)
  : option (gset string) * world :=
  match fuel with
  | 0 => (None, w)
  | S fuel' =>
      let url := page_url base_url page_num in
      let w := goto (NavListing url) w in
      let links := page_links (listing e url) in
      let num_assets := size links in
      if num_assets =? 0 then (Some all_links, w)
      else
        let all_links := all_links ∪ links in
        if num_assets <? page_size then (Some all_links, w)
        else collect_loop fuel' e base_url page_size (page_num + 1) all_links w
  end.

Definition collect_all_assets_by_url (fuel : nat) (e : env) (base_url : string)
    (page_size : nat) (w : world) : option (list string) * world :=
  match collect_loop fuel e base_url page_size 1 ∅ w with
  | (Some all_links, w') => (Some (sorted all_links), w')
  | (None, w') => (None, w')
  end.

(** ** A run: the files and the log are threaded through, an exception stops it *)

Inductive error :=
| TypeError    (* [set(found_prices)] met an unhashable price *)
| Unfinished.  (* the crawl loop outlived its fuel *)

Inductive result (A : Type) :=
| Ok (a : A)
| Fail (err : error).
Arguments Ok {A} a.
Arguments Fail {A} err.

Definition M (A : Type) : Type := world -> result A * world.

Definition ret {A} (a : A) : M A := fun w => (Ok a, w).
Definition fail {A} (err : error) : M A := fun w => (Fail err, w).
Definition bind {A B} (c : M A) (k : A -> M B) : M B :=
  fun w => match c w with
           | (Ok a, w') => k a w'
           | (Fail err, w') => (Fail err, w')
           end.
Definition lift (f : world -> world) : M unit := fun w => (Ok tt, f w).
Definition reads {A} (f : world -> A) : M A := fun w => (Ok (f w), w).

Notation "'let*' x ':=' c 'in' k" := (bind c (fun x => k))
  (at level 10, x pattern, c at level 100, k at level 200).

Fixpoint for_each {A} (l : list A) (body : A -> M unit) : M unit :=
  match l with
  | [] => ret tt
  | x :: rest => let* _ := body x in for_each rest body
  end.

(** ** The main routine (lines 166-272) *)

(** Lines 171-179. *)
Definition load_publishers (file : option string) : list (string * string) :=
  let publishers :=
    match file with
    | None => []
    | Some content =>
        fold_left (fun acc line =>
          if negb (Py.is_empty (Py.strip line)) && Py.has_char ","%char line then
            match Py.split_first ","%char (Py.strip line) with
            | Some (name, url) => acc ++ [(Py.strip name, Py.strip url)]
            | None => acc (* not reached: the stripped line keeps its comma *)
            end
          else acc) (Py.readlines content) []
    end in
  match publishers with
  | [] => [DEFAULT_PUBLISHER]
  | _ => publishers
  end.

Definition CSV_HEADER : row :=
  [JStr "Asset Name"; JStr "Original Price"; JStr "Final Price";
   JStr "Upgrade From"; JStr "Upgrade URL"; JStr "Asset URL";
   JStr "Publisher Name"; JStr "Publisher Page"].

Definition pair_eqb (p q : price_pair) : bool :=
  Value.eqb p.1 q.1 && Value.eqb p.2 q.2.

(** The elements of [set(l)], one per class of equal pairs; the first of
    each class is the one a set keeps. *)
Fixpoint distinct (l : list price_pair) : list price_pair :=
  match l with
  | [] => []
  | p :: rest => p :: filter (fun q => negb (pair_eqb p q)) (distinct rest)
  end.

(** [list(set(l))]: the elements, in the order the interpreter lists them. *)
Definition list_set (e : env) (l : list price_pair) : option (list price_pair) :=
  if forallb (fun p => Value.hashable p.1 && Value.hashable p.2) l
  then Some (set_order e (distinct l)) else None.

Definition or_na (v : json) : json := Value.or_else v (JStr "N/A").

(** Line 240. *)
Definition asset_name_of (asset_names : list json) (link : string) : json :=
  match asset_names with
  | n :: _ => n
  | [] => JStr (Py.last_segment "/"%char link)
  end.

(** Line 241. *)
Definition unique_prices_of (e : env) (found_prices : list price_pair)
  : M (list price_pair) :=
  match found_prices with
  | [] => ret []
  | _ => match list_set e found_prices with
         | Some u => ret u
         | None => fail TypeError
         end
  end.

Section emit.
Variables publisher_name publisher_url link : string.
Variable asset_name : json.

Definition asset_url_hl : string := wrap_hyperlink link asset_name.
Definition publisher_hl : string := wrap_hyperlink publisher_url (JStr publisher_name).

Definition upgrade_line (p : price_pair) (u : upgrade) : string :=
  Value.str asset_name +:+ " | Original: " +:+ Value.str (or_na p.1) +:+
  " | Final: " +:+ Value.str (or_na p.2) +:+ " | Upgrade from: " +:+
  Value.str u.1 +:+ " (" +:+ u.2 +:+ ") | " +:+ link.

Definition upgrade_row (p : price_pair) (u : upgrade) : row :=
  let upg_url_hl := if Py.is_empty u.2 then EmptyString else wrap_hyperlink u.2 u.1 in
  [asset_name; or_na p.1; or_na p.2; u.1; JStr upg_url_hl; JStr asset_url_hl;
   JStr publisher_name; JStr publisher_hl].

Definition price_line (p : price_pair) : string :=
  Value.str asset_name +:+ " | Original: " +:+ Value.str (or_na p.1) +:+
  " | Final: " +:+ Value.str (or_na p.2) +:+ " | " +:+ link.

Definition price_row (p : price_pair) : row :=
  [asset_name; or_na p.1; or_na p.2; JStr EmptyString; JStr EmptyString;
   JStr asset_url_hl; JStr publisher_name; JStr publisher_hl].

Definition empty_line : string :=
  Value.str asset_name +:+ " | No offerRating found | " +:+ link.

Definition empty_row : row :=
  [asset_name; JStr EmptyString; JStr EmptyString; JStr EmptyString; JStr EmptyString;
   JStr asset_url_hl; JStr publisher_name; JStr publisher_hl].

(** Lines 245-260. *)
Definition write_rows (unique_prices : list price_pair) (upgrades : list upgrade) : M unit :=
  match unique_prices with
  | _ :: _ =>
      for_each unique_prices (fun p =>
        match upgrades with
        | _ :: _ =>
            for_each upgrades (fun u =>
              let* _ := lift (save_txt_line (upgrade_line p u)) in
              lift (save_csv_row (upgrade_row p u)))
        | [] =>
            let* _ := lift (save_txt_line (price_line p)) in
            lift (save_csv_row (price_row p))
        end)
  | [] =>
      let* _ := lift (save_txt_line empty_line) in
      lift (save_csv_row empty_row)
  end.
End emit.

(** Lines 239-264, for one element of [results]. *)
Definition emit_asset (e : env) (publisher_name publisher_url link : string)
    (f : facts) : M unit :=
  let asset_name := asset_name_of (asset_names f) link in
  let* unique_prices := unique_prices_of e (found_prices f) in
  let* _ := write_rows publisher_name publisher_url link asset_name
              unique_prices (upgrade_from f) in
  lift (mark_processed link).

(** What [process_asset] and the handler have gathered for a link when the
    batch is written out. *)
Definition gather (rs : list response) : facts :=
  fold_left (fun f r => handle_response r f) rs no_facts.

Definition process_asset (e : env) (link : string) : facts :=
  gather (responses e link).

(** Lines 228-264. *)
Definition process_batch (e : env) (processed : gset string)
    (publisher_name publisher_url : string) (batch_links : list string) : M unit :=
  let batch_links := filter (fun l => l ∉ processed) batch_links in
  match batch_links with
  | [] => ret tt
  | _ =>
      let* _ := for_each batch_links (fun link => lift (goto (NavAsset link))) in
      let results := map (fun link => (link, process_asset e link)) batch_links in
      for_each results (fun r => emit_asset e publisher_name publisher_url r.1 r.2)
  end.

(** Lines 219-267, for one publisher. *)
Definition process_publisher (fuel : nat) (e : env) (processed : gset string)
    (publisher : string * string) : M unit :=
  let '(publisher_name, publisher_url) := publisher in
  let* _ := lift (goto (NavPublisher publisher_url)) in
  let* all_assets :=
    (fun w => match collect_all_assets_by_url fuel e publisher_url PAGE_SIZE w with
              | (Some l, w') => (Ok l, w')
              | (None, w') => (Fail Unfinished, w')
              end) in
  for_each (batched all_assets BATCH_SIZE)
    (process_batch e processed publisher_name publisher_url).

Definition main (fuel : nat) (e : env) : M unit :=
  let publishers := load_publishers (publishers_txt e) in
  let* csv := reads out_csv in
  let* _ := match csv with
            | None => lift (save_csv_row CSV_HEADER)
            | Some _ => ret tt
            end in
  let* processed := reads load_processed in
  let* _ := if storage_exists e then ret tt else lift (goto NavSignIn) in
  for_each publishers (process_publisher fuel e processed).

(** A small store to try the run on: one publisher page with two assets. *)
Module Demo.
Definition base : string := "https://assetstore.unity.com/publishers/1?pageSize=96".
Definition sky : string := "https://assetstore.unity.com/packages/tools/sky-2".
Definition sea : string := "https://assetstore.unity.com/packages/tools/sea-7".

Definition sky_json : json :=
  JObj [("data", JObj [("product", JObj [("name", JStr "Sky 2");
    ("offerRating", JObj [("originalPrice", JStr "40.00"); ("finalPrice", JStr "20.00")]);
    ("upgradeFrom", JArr [JObj [("name", JStr "Sky 1"); ("url", JStr "/packages/tools/sky-1")];
                          JObj [("title", JStr "Sky 0")]])])])].

Definition store : env :=
  {| publishers_txt := Some ("Acme, " +:+ base +:+ Py.newline);
     storage_exists := true;
     listing := fun url =>
       if String.eqb url (base +:+ "&page=1")
       then [Some "/packages/tools/sky-2"; Some "/packages/tools/sea-7";
             Some "/packages/tools/sky-2"; None]
       else [];
     responses := fun url =>
       if String.eqb url sky then [json_response sky_json; json_response sky_json]
       else [];
   set_order := fun l => l |}.

Definition fresh : world :=
  {| out_txt := None; out_csv := None; progress := None; visited := [] |}.
End Demo.


(** A publisher with a full first listing page and three more assets
    on the second. *)
Module Long.
Definition hrefs (first count : nat) : list (option string) :=
  map (fun i => Some ("/packages/vfx/fx-" +:+ Py.str_of_Z (Z.of_nat i))) (seq first count).

Definition store : env :=
  {| publishers_txt := None;
     storage_exists := true;
     listing := fun url =>
       if String.eqb url (Demo.base +:+ "&page=1") then hrefs 0 96
       else if String.eqb url (Demo.base +:+ "&page=2") then hrefs 96 3
       else [];
     responses := fun _ => [];
     set_order := fun l => l |}.
End Long.

(** Two lines of [publishers.txt] that lead to the same listing. *)
Module Twice.
Definition store : env :=
  {| publishers_txt :=
       Some ("A, " +:+ Demo.base +:+ Py.newline +:+ "B, " +:+ Demo.base +:+ Py.newline);
     storage_exists := true;
     listing := fun url =>
       if String.eqb url (Demo.base +:+ "&page=1")
       then [Some "/packages/tools/sky-2"] else [];
     responses := fun _ => [];
     set_order := fun l => l |}.
End Twice.

(** ** Vocabulary of the statements *)

(** Does the text end in a line feed? *)
Fixpoint ends_with_lf (s : string) : bool :=
  match s with
  | EmptyString => false
  | String c r => if Py.is_empty r then Ascii.eqb c Py.LF else ends_with_lf r
  end.

(** A text to which a line can be appended without gluing it to the
    one before: it is empty or its last line is closed. *)
Definition terminated (s : string) : bool := Py.is_empty s || ends_with_lf s.

(** The text of some lines, each closed by a line feed. *)
Fixpoint unlines (lines : list string) : string :=
  match lines with
  | [] => EmptyString
  | l :: rest => l +:+ Py.newline +:+ unlines rest
  end.

(** A line of [publishers.txt] that names a publisher: it is not blank and
    has a comma. *)
Definition qualifies (line : string) : bool :=
  negb (Py.is_empty (Py.strip line)) && Py.has_char ","%char line.

(** [name] and [url] are what stands before and after the first [c] of [s]. *)
Definition split_at_first (c : ascii) (s name url : string) : Prop :=
  s = name +:+ String c url /\ Py.has_char c name = false.

(** What one line of [publishers.txt] adds to the list. *)
Definition publisher_of_line (line : string) : option (string * string) :=
  if qualifies line then
    match Py.split_first ","%char (Py.strip line) with
    | Some (name, url) => Some (Py.strip name, Py.strip url)
    | None => None
    end
  else None.


(** The text line and the CSV record written together. *)
Abbreviation entry := (string * row)%type.

(** What [write_rows] writes, in order: for every price pair one entry per
    upgrade, or a single entry when there is no upgrade; a single entry
    without prices when there is no price pair. *)
Definition entries (publisher_name publisher_url link : string) (asset_name : json)
    (unique_prices : list price_pair) (upgrades : list upgrade) : list entry :=
  match unique_prices with
  | [] => [(empty_line link asset_name,
            empty_row publisher_name publisher_url link asset_name)]
  | _ =>
      flat_map (fun p =>
        match upgrades with
        | [] => [(price_line link asset_name p,
                  price_row publisher_name publisher_url link asset_name p)]
        | _ => map (fun u =>
                 (upgrade_line link asset_name p u,
                  upgrade_row publisher_name publisher_url link asset_name p u)) upgrades
        end) unique_prices
  end.

Definition write_entry (en : entry) (w : world) : world :=
  save_csv_row en.2 (save_txt_line en.1 w).

Definition write_entries (es : list entry) (w : world) : world :=
  fold_left (fun w en => write_entry en w) es w.

(** Line 241 as a value: [None] stands for the [TypeError]. *)
Definition unique_prices (e : env) (found_prices : list price_pair)
  : option (list price_pair) :=
  match found_prices with
  | [] => Some []
  | _ => list_set e found_prices
  end.

(** The interpreter lists all elements of a set, each once. *)
Definition lists_sets (e : env) : Prop :=
  forall l, set_order e l ≡ₚ l.




(** The distinct product links listing page [i] of a publisher shows. *)
Definition num_assets (e : env) (base_url : string) (i : nat) : nat :=
  size (page_links (listing e (page_url base_url i))).

(** A page that ends the crawl: no link, or fewer than a full page. *)
Definition short_page (e : env) (base_url : string) (page_size i : nat) : bool :=
  (num_assets e base_url i =? 0) || (num_assets e base_url i <? page_size).

(** The fetches of listing pages [first], [first + 1], ... ([count] of them). *)
Definition fetches (base_url : string) (first count : nat) : list nav :=
  map (fun i => NavListing (page_url base_url i)) (seq first count).

(** The world after some more navigations. *)
Definition visit_all (navs : list nav) (w : world) : world :=
  {| out_txt := out_txt w; out_csv := out_csv w; progress := progress w;
     visited := visited w ++ navs |}.

(** A response on which the handler raises. *)
Definition raises (r : response) : Prop := (try_body r no_facts).2 = Raised.

(** [w'] is [w] after more navigations, text lines, CSV records and
    progress markers, each of which satisfies the given property; nothing
    that was there is changed. *)
Definition appends (Pnav : nav -> Prop) (Pline : string -> Prop) (Prow : row -> Prop)
    (Pmark : string -> Prop) (w w' : world) : Prop :=
  (exists navs, visited w' = visited w ++ navs /\ Forall Pnav navs)
  /\ (exists lines, text_of (out_txt w') = text_of (out_txt w) +:+ unlines lines
                    /\ Forall Pline lines)
  /\ (exists rows, rows_of (out_csv w') = rows_of (out_csv w) ++ rows /\ Forall Prow rows)
  /\ (exists marks, text_of (progress w') = text_of (progress w) +:+ unlines marks
                    /\ Forall Pmark marks).

(** A command all of whose runs are related by [R], however they end. *)
Definition keeps (R : world -> world -> Prop) {A} (c : M A) : Prop :=
  forall w, R w (c w).2.

(** A CSV record, a text line written for the asset at [link]. *)
Definition row_of_asset (link : string) (r : row) : Prop :=
  exists name, r !! 5 = Some (JStr (wrap_hyperlink link name)).

Definition line_of_asset (link : string) (line : string) : Prop :=
  exists before, line = before +:+ " | " +:+ link.

(** [occurs data k v]: the key [k] stands with the value [v] somewhere in
    [data], at any depth. *)
Inductive occurs : json -> string -> json -> Prop :=
| occurs_here fields k v :
    (k, v) ∈ fields -> occurs (JObj fields) k v
| occurs_field fields k' v' k v :
    (k', v') ∈ fields -> occurs v' k v -> occurs (JObj fields) k v
| occurs_item items x k v :
    x ∈ items -> occurs x k v -> occurs (JArr items) k v.

(** [reaches handled data k v]: as [occurs], but on a path that does not
    go below a dict entry the extractor handles itself ([handled]); this
    is how far an extractor walks. *)
Inductive reaches (handled : string -> json -> bool) : json -> string -> json -> Prop :=
| reaches_here fields k v :
    (k, v) ∈ fields -> reaches handled (JObj fields) k v
| reaches_field fields k' v' k v :
    (k', v') ∈ fields -> handled k' v' = false -> reaches handled v' k v ->
    reaches handled (JObj fields) k v
| reaches_item items x k v :
    x ∈ items -> reaches handled x k v -> reaches handled (JArr items) k v.

(** The entries each extractor handles itself and does not walk into. *)
Definition offer_handled (k : string) (v : json) : bool :=
  String.eqb k "offerRating" && Value.is_dict v.

Definition upgrade_handled (k : string) (v : json) : bool := is_upgrade_key k.

Definition name_handled (k : string) (v : json) : bool :=
  (String.eqb k "results" && Value.is_list v) || (is_product_key k && Value.is_dict v).

(** [sub] stands somewhere inside [s]. *)
Definition infix_of (sub s : string) : Prop :=
  exists before after, s = before +:+ sub +:+ after.

(** A key at depth whose value none of the extractors reaches. *)
Module Nested.
Definition data : json :=
  JObj [("results", JArr [JObj [("id", JInt 7);
                                ("product", JObj [("name", JStr "Sky 2")])]])].
End Nested.

(** ** Vocabulary of the further properties *)

(** A link that survives a round trip through the progress file: no line
    break in it, no white space around it. *)
Definition clean (link : string) : Prop :=
  Py.has_char Py.LF link = false /\ Py.has_char Py.CR link = false
  /\ Py.strip link = link.

(** The facts of two stretches of responses, put together in order. *)
Definition facts_app (f g : facts) : facts :=
  {| found_prices := found_prices f ++ found_prices g;
     upgrade_from := upgrade_from f ++ upgrade_from g;
     asset_names := asset_names f ++ asset_names g |}.

(** [x] is the price pair of an [offerRating] dict that the walk reaches
    and that has a truthy price. *)
Definition offer_reached (data : json) (x : price_pair) : Prop :=
  exists o,
    reaches offer_handled data "offerRating" (JObj o)
    /\ Value.truthy (Value.get "originalPrice" o)
       || Value.truthy (Value.get "finalPrice" o) = true
    /\ x = (Value.get "originalPrice" o, Value.get "finalPrice" o).

(** [u] is the upgrade of a reached [upgradeFrom] / [upgradableFrom]
    entry: of its dict, or of a dict of its list. *)
Definition upgrade_reached (data : json) (u : upgrade) : Prop :=
  exists k v,
    is_upgrade_key k = true /\ reaches upgrade_handled data k v
    /\ ((exists o, v = JObj o /\ u = upgrade_fact o)
        \/ (exists l o, v = JArr l /\ JObj o ∈ l /\ u = upgrade_fact o)).

(** [n] is the name of a dict in a reached [results] list, or of a reached
    dict under the key [k], one of [product] and [item]. *)
Definition result_name_reached (data : json) (n : json) : Prop :=
  exists l o,
    reaches name_handled data "results" (JArr l) /\ JObj o ∈ l
    /\ Value.lookup "name" o = Some n.

Definition product_name_reached (data : json) (k : string) (n : json) : Prop :=
  exists o,
    reaches name_handled data k (JObj o) /\ Value.lookup "name" o = Some n.

(** A response whose only known key is [item]. *)
Module ItemOnly.
Definition data : json := JObj [("item", JObj [("name", JStr "Sky 2"); ("id", JInt 7)])].
End ItemOnly.

(** [main] after the header and the processed set (lines 190-270). *)
Definition main_loop (fuel : nat) (e : env) (processed : gset string) : M unit :=
  let* _ := if storage_exists e then ret tt else lift (goto NavSignIn) in
  for_each (load_publishers (publishers_txt e)) (process_publisher fuel e processed).

(** Lines 181-186: the header goes into a CSV file that does not exist. *)
Definition with_header (w : world) : world :=
  match out_csv w with
  | None => save_csv_row CSV_HEADER w
  | Some _ => w
  end.

(** Every link the store's listing pages give is clean. *)
Definition clean_listing (e : env) : Prop :=
  forall url l, l ∈ page_links (listing e url) -> clean l.

(** A progress file to which markers can be appended. *)
Definition resumable (w : world) : Prop :=
  terminated (text_of (progress w)) = true.

(** [w'] still has the CSV file of [w] and still reads every processed
    URL of [w]. *)
Definition keeps_processed (w w' : world) : Prop :=
  (is_Some (out_csv w) -> is_Some (out_csv w'))
  /\ load_processed w ⊆ load_processed w'.

Definition is_asset (n : nav) : bool :=
  match n with NavAsset _ => true | _ => false end.

Definition no_world : world :=
  {| out_txt := None; out_csv := None; progress := None; visited := [] |}.

(** What the crawl of a publisher returns; the files play no part in it. *)
Definition crawl_result (fuel : nat) (e : env) (base_url : string) (page_size : nat)
  : option (list string) :=
  (collect_all_assets_by_url fuel e base_url page_size no_world).1.

(** A link that some listing page of the store gives. *)
Definition listed (e : env) (l : string) : Prop :=
  exists url, l ∈ page_links (listing e url).

(** Everything a run adds is about listed links. *)
Definition only_listed (e : env) (w w' : world) : Prop :=
  appends (fun n => forall l, n = NavAsset l -> listed e l)
          (fun line => exists l, listed e l /\ line_of_asset l line)
          (fun r => r = CSV_HEADER \/ exists l, listed e l /\ row_of_asset l r)
          (listed e)
          w w'.

(** The text of some lines, each closed the Windows way (CR LF). *)
Fixpoint unlines_crlf (lines : list string) : string :=
  match lines with
  | [] => EmptyString
  | l :: rest => l +:+ String Py.CR Py.newline +:+ unlines_crlf rest
  end.

(** A world whose progress file holds the given text. *)
Definition with_progress (text : string) : world :=
  {| out_txt := None; out_csv := None; progress := Some text; visited := [] |}.

(** ** Vocabulary of a run as a whole (lines 219-264) *)

(** An asset as the write-out loop has it: the publisher it was listed
    for (name and page) and its link. *)
Record asset := {
  publisher_of : string * string;
  link_of : string
}.

(** Lines 239-260 for an asset, with the facts gathered for its link: the
    text lines and CSV records in the order they are written; [None] when
    [set()] raises. *)
Definition asset_entries (e : env) (a : asset) : option (list entry) :=
  let f := process_asset e (link_of a) in
  match unique_prices e (found_prices f) with
  | Some ups =>
      Some (entries (publisher_of a).1 (publisher_of a).2 (link_of a)
              (asset_name_of (asset_names f) (link_of a)) ups (upgrade_from f))
  | None => None
  end.

(** [en] is one of the entries (a text line with its CSV record) that
    lines 239-260 write for the asset. *)
Definition entry_of (e : env) (a : asset) (en : entry) : Prop :=
  exists es, asset_entries e a = Some es /\ en ∈ es.

(** All that has happened between [w] and [w'], file by file. The pages
    [navs] have been opened, each of which satisfies [Pnav]. The entries
    [written] have been appended, each the entry of an asset that
    satisfies [ok]: the text file has got their lines and the CSV file
    their records, in this order and nothing else. The progress file has
    got the links of the assets [marked] and nothing else; each of them
    satisfies [ok] and has an entry among [written]. *)
Definition wrote (e : env) (ok : asset -> Prop) (Pnav : nav -> Prop) (w w' : world) : Prop :=
  exists (written : list (asset * entry)) (marked : list asset) (navs : list nav),
    visited w' = visited w ++ navs
    /\ text_of (out_txt w') = text_of (out_txt w) +:+ unlines (map (fun x => x.2.1) written)
    /\ rows_of (out_csv w') = rows_of (out_csv w) ++ map (fun x => x.2.2) written
    /\ text_of (progress w') = text_of (progress w) +:+ unlines (map link_of marked)
    /\ Forall Pnav navs
    /\ Forall (fun x => ok x.1 /\ entry_of e x.1 x.2) written
    /\ Forall (fun a => ok a /\ exists en, (a, en) ∈ written) marked.

(** A data record of the CSV file, column by column in the order of
    [CSV_HEADER]. It is the record of an asset of one of the publishers,
    made from the facts gathered for the asset's link: the asset name;
    the original and the final price, in this order, of one pair [p] of
    the deduplicated price pairs of the asset ([N/A] for a missing side),
    or two empty cells when the asset has no price pair; the name and the
    link of one of the asset's upgrades, or two empty cells when it has
    none or no price pair; the asset link; the publisher's name and
    link. *)
Definition data_row (e : env) (publishers : list (string * string)) (r : row) : Prop :=
  exists (pn pu link : string) (ups : list price_pair),
    let f := process_asset e link in
    let name := asset_name_of (asset_names f) link in
    let asset_hl := JStr (wrap_hyperlink link name) in
    let publisher_hl := JStr (wrap_hyperlink pu (JStr pn)) in
    (pn, pu) ∈ publishers
    /\ unique_prices e (found_prices f) = Some ups
    /\ ((ups = []
         /\ r = [name; JStr EmptyString; JStr EmptyString; JStr EmptyString;
                 JStr EmptyString; asset_hl; JStr pn; publisher_hl])
        \/ (exists p,
              p ∈ ups /\ upgrade_from f = []
              /\ r = [name; or_na p.1; or_na p.2; JStr EmptyString; JStr EmptyString;
                      asset_hl; JStr pn; publisher_hl])
        \/ (exists p u,
              p ∈ ups /\ u ∈ upgrade_from f
              /\ r = [name; or_na p.1; or_na p.2; u.1;
                      JStr (if Py.is_empty u.2 then EmptyString
                            else wrap_hyperlink u.2 u.1);
                      asset_hl; JStr pn; publisher_hl])).

Definition csv_row_ok (e : env) (publishers : list (string * string)) (r : row) : Prop :=
  length r = 8 /\ (r = CSV_HEADER \/ data_row e publishers r).

(** A store whose one asset has a list where a price should be. *)
Module Broken.
Definition offer : dict :=
  [("originalPrice", JArr [JInt 40]); ("finalPrice", JStr "20.00")].

Definition data : json :=
  JObj [("data", JObj [("offerRating", JObj offer)])].

Definition store : env :=
  {| publishers_txt := Some ("Acme, " +:+ Demo.base +:+ Py.newline);
     storage_exists := true;
     listing := fun url =>
       if String.eqb url (Demo.base +:+ "&page=1")
       then [Some "/packages/tools/sky-2"] else [];
     responses := fun url =>
       if String.eqb url Demo.sky then [json_response Demo.sky_json; json_response data]
       else [];
     set_order := fun l => l |}.
End Broken.

(** ** The model at work on small inputs *)

Example strip_ex : Py.strip "  a b	" = "a b".
Proof. reflexivity. Qed.

Example readlines_ex :
  Py.readlines ("a" +:+ String Py.CR (String Py.LF ("b" +:+ String Py.CR "c"))) =
  ["a" +:+ Py.newline; "b" +:+ Py.newline; "c"].
Proof. reflexivity. Qed.

Example last_segment_ex : Py.last_segment "/"%char "https://x.y/packages/tools/foo-12" = "foo-12".
Proof. reflexivity. Qed.

Example split_first_ex : Py.split_first ","%char "a, b,c" = Some ("a", " b,c").
Proof. reflexivity. Qed.

Example str_of_Z_ex : Py.str_of_Z (-12) = "-12" /\ Py.str_of_Z 0 = "0".
Proof. split; reflexivity. Qed.

Example dumps_ex :
  Dumps.dumps (JObj [("a", JArr [JInt 1; JNull; JBool true]); ("b", JStr "x/y")]) =
  "{" +:+ Dumps.quoted "a" +:+ ": [1, null, true], " +:+ Dumps.quoted "b" +:+ ": " +:+
  Dumps.quoted "x/y" +:+ "}".
Proof. reflexivity. Qed.

Example repr_ex :
  Value.str (JArr [JStr "it's"; JStr "a"; JInt (-3)]) =
  "[" +:+ String Value.dquote ("it's" +:+ String Value.dquote ", 'a', -3]").
Proof. reflexivity. Qed.

Example handle_ex :
  handle_response
    (json_response (JObj [("data", JObj [("product", JObj [("name", JStr "Sky"); ("offerRating",
       JObj [("originalPrice", JStr "40.00"); ("finalPrice", JStr "20.00")]);
       ("upgradeFrom", JArr [JObj [("name", JStr "Sky 1"); ("url", JStr "/packages/sky-1")]])])])]))
    no_facts
  = {| found_prices := [(JStr "40.00", JStr "20.00")];
       upgrade_from := [(JStr "Sky 1", "https://assetstore.unity.com/packages/sky-1")];
       asset_names := [JStr "Sky"] |}.
Proof. reflexivity. Qed.

Example handle_ex2 :
  handle_response
    (json_response (JObj [("data", JObj [("name", JStr "Sky"); ("offerRating",
       JObj [("originalPrice", JStr "40.00"); ("finalPrice", JStr "20.00")]);
       ("upgradeFrom", JArr [JObj [("name", JStr "Sky 1"); ("url", JStr "/packages/sky-1")]])])]))
    no_facts
  = {| found_prices := [(JStr "40.00", JStr "20.00")];
       upgrade_from := [(JStr "Sky 1", "https://assetstore.unity.com/packages/sky-1")];
       asset_names := [] |}.
Proof. reflexivity. Qed.

Example batched_ex : batched [1; 2; 3; 4; 5] 2 = [[1; 2]; [3; 4]; [5]].
Proof. reflexivity. Qed.

Example demo_run :
  let '(r, w) := main 5 Demo.store Demo.fresh in
  r = Ok tt /\
  visited w = [NavPublisher Demo.base; NavListing (Demo.base +:+ "&page=1");
               NavAsset Demo.sea; NavAsset Demo.sky] /\
  progress w = Some (Demo.sea +:+ Py.newline +:+ Demo.sky +:+ Py.newline) /\
  length (rows_of (out_csv w)) = 6.
Proof. vm_compute. repeat split; reflexivity. Qed.

Example load_publishers_ex :
  load_publishers (Some ("  Acme , https://x/p?a=1,2 " +:+ String Py.CR Py.newline +:+
                         Py.newline +:+ "no comma here" +:+ Py.newline +:+ ",u"))
  = [("Acme", "https://x/p?a=1,2"); (EmptyString, "u")].
Proof. reflexivity. Qed.

Example load_publishers_default :
  load_publishers (Some ("just a name" +:+ Py.newline)) = [DEFAULT_PUBLISHER]
  /\ load_publishers None = [DEFAULT_PUBLISHER].
Proof. split; reflexivity. Qed.

Example wrap_hyperlink_ex :
  wrap_hyperlink "u" JNull =
  "=HYPERLINK(" +:+ Dumps.quoted "u" +:+ "," +:+ Dumps.quoted "u" +:+ ")".
Proof. reflexivity. Qed.

Example list_set_ex :
  list_set Demo.store [(JInt 1, JNull); (JBool true, JNull); (JStr "1", JNull)]
  = Some [(JInt 1, JNull); (JStr "1", JNull)]
  /\ list_set Demo.store [(JArr [], JNull)] = None.
Proof. split; reflexivity. Qed.

Example emit_unhashable :
  emit_asset Demo.store "Acme" Demo.base Demo.sky
    {| found_prices := [(JArr [JInt 1], JNull)]; upgrade_from := []; asset_names := [] |}
    Demo.fresh
  = (Fail TypeError, Demo.fresh).
Proof. reflexivity. Qed.

(** ** Strings *)

Lemma app_cons (c : ascii) (s t : string) : String c s +:+ t = String c (s +:+ t).
Proof. reflexivity. Qed.

Lemma app_empty_l (s : string) : EmptyString +:+ s = s.
Proof. reflexivity. Qed.

Lemma app_empty_r (s : string) : s +:+ EmptyString = s.
Proof. induction s as [|c s IH]; [reflexivity|]. rewrite app_cons, IH. reflexivity. Qed.

Lemma app_assoc_str (s t u : string) : (s +:+ t) +:+ u = s +:+ (t +:+ u).
Proof. induction s as [|c s IH]; [reflexivity|]. rewrite !app_cons, IH. reflexivity. Qed.

Lemma prefix_app (s t : string) : String.prefix s (s +:+ t) = true.
Proof.
  induction s as [|c s IH]; [by destruct t|].
  rewrite app_cons. cbn. destruct (ascii_dec c c); [exact IH|congruence].
Qed.

Lemma has_char_app (c : ascii) (s t : string) :
  Py.has_char c (s +:+ t) = Py.has_char c s || Py.has_char c t.
Proof.
  induction s as [|a s IH]; [reflexivity|].
  rewrite app_cons. cbn [Py.has_char]. rewrite IH. apply orb_assoc.
Qed.

Lemma rstrip_app_space (s : string) (c : ascii) :
  Py.is_space c = true -> Py.rstrip (s +:+ String c EmptyString) = Py.rstrip s.
Proof.
  intros Hc. induction s as [|a s IH].
  - rewrite app_empty_l. cbn. rewrite Hc. reflexivity.
  - rewrite app_cons. cbn [Py.rstrip]. rewrite IH. reflexivity.
Qed.

Lemma strip_line (s : string) : Py.strip (s +:+ Py.newline) = Py.strip s.
Proof. unfold Py.strip, Py.newline. rewrite rstrip_app_space; reflexivity. Qed.

Lemma readlines_empty_inv (s : string) : Py.readlines s = [] -> s = EmptyString.
Proof.
  destruct s as [|c r]; [reflexivity|]. cbn [Py.readlines].
  destruct (Ascii.eqb c Py.LF); [discriminate|].
  destruct (Ascii.eqb c Py.CR).
  - destruct r as [|c2 r2]; [discriminate|]. destruct (Ascii.eqb c2 Py.LF); discriminate.
  - destruct (Py.readlines r); discriminate.
Qed.

Lemma ends_with_lf_cons (c : ascii) (r : string) :
  r <> EmptyString -> ends_with_lf (String c r) = ends_with_lf r.
Proof. destruct r; [congruence|reflexivity]. Qed.

(** Text appended after a closed line starts a line of its own. *)
Lemma readlines_app (c s : string) :
  terminated c = true -> Py.readlines (c +:+ s) = Py.readlines c ++ Py.readlines s.
Proof.
  remember (String.length c) as n eqn:Hn. revert c Hn.
  induction n as [n IH] using lt_wf_ind. intros c Hn Hc.
  destruct c as [|a r]; [reflexivity|].
  assert (Hstep : forall r', String.length r' < n -> r' = EmptyString \/ ends_with_lf r' = true ->
            Py.readlines (r' +:+ s) = Py.readlines r' ++ Py.readlines s).
  { intros r' Hlt [->|He]; [reflexivity|].
    eapply IH; [exact Hlt|reflexivity|]. unfold terminated. rewrite He. apply orb_true_r. }
  assert (Hr : r = EmptyString \/ ends_with_lf r = true).
  { destruct r as [|b r']; [by left|right]. exact Hc. }
  cbn in Hn. rewrite app_cons. cbn [Py.readlines].
  destruct (Ascii.eqb a Py.LF) eqn:Ha.
  { rewrite Hstep; [reflexivity|lia|exact Hr]. }
  destruct (Ascii.eqb a Py.CR) eqn:Hcr.
  - destruct r as [|b r'].
    { cbn in Hc. rewrite Ha in Hc. discriminate. }
    rewrite app_cons. destruct (Ascii.eqb b Py.LF) eqn:Hb.
    + rewrite Hstep; [reflexivity|cbn in Hn; lia|].
      destruct r' as [|b' r'']; [by left|right]. destruct Hr as [|Hr]; [discriminate|exact Hr].
    + rewrite <- app_cons. rewrite Hstep; [reflexivity|lia|exact Hr].
  - destruct r as [|b r'].
    { cbn in Hc. rewrite Ha in Hc. discriminate. }
    rewrite Hstep; [|lia|exact Hr].
    destruct (Py.readlines (String b r')) eqn:Hl; [|reflexivity].
    apply readlines_empty_inv in Hl. discriminate.
Qed.

Lemma readlines_one_line (s : string) :
  Py.has_char Py.LF s = false -> Py.has_char Py.CR s = false ->
  Py.readlines (s +:+ Py.newline) = [s +:+ Py.newline].
Proof.
  induction s as [|a s IH]; intros Hlf Hcr; [reflexivity|].
  cbn [Py.has_char] in Hlf, Hcr.
  apply orb_false_iff in Hlf as [Ha Hlf]. apply orb_false_iff in Hcr as [Hb Hcr].
  rewrite app_cons. cbn [Py.readlines]. rewrite Ha, Hb, IH by assumption. reflexivity.
Qed.

(** ** Persistence *)


(** C9 as stated fails when the progress file does not end in a line
    break: the new marker is glued to the last line. *)
Lemma mark_then_load_glued :
  let w := {| out_txt := None; out_csv := None; progress := Some Demo.sea; visited := [] |} in
  Py.has_char Py.LF Demo.sky = false /\ Py.strip Demo.sky = Demo.sky /\
  load_processed (mark_processed Demo.sky w) = {[ Demo.sea +:+ Demo.sky ]} /\
  Demo.sky ∉ load_processed (mark_processed Demo.sky w).
Proof.
  cbv zeta. split; [reflexivity|]. split; [reflexivity|].
  assert (H : load_processed (mark_processed Demo.sky
              {| out_txt := None; out_csv := None; progress := Some Demo.sea; visited := [] |})
              = {[ Demo.sea +:+ Demo.sky ]}).
  { unfold load_processed. cbn. apply set_eq. intros x. set_solver. }
  split; [exact H|]. rewrite H. intros Hin%elem_of_singleton. discriminate Hin.
Qed.

(** C9 (amended). A marker without line break and without surrounding
    white space, appended to a progress file that is absent, empty or ends
    in a line feed, is found by the next [load_processed]; and
    [load_processed] yields exactly the stripped lines of the file, none
    when there is no file. *)
Theorem mark_then_load (w : world) (url : string) :
  Py.has_char Py.LF url = false ->
  Py.has_char Py.CR url = false ->
  Py.strip url = url ->
  terminated (text_of (progress w)) = true ->
  url ∈ load_processed (mark_processed url w)
  /\ (forall w' x, x ∈ load_processed w' <->
        exists content line,
          progress w' = Some content /\ line ∈ Py.readlines content /\ x = Py.strip line).
Proof.
  intros Hlf Hcr Hstrip Hterm. split.
  - unfold load_processed, mark_processed, append_text. cbn [progress].
    rewrite readlines_app by exact Hterm.
    rewrite readlines_one_line by assumption.
    apply elem_of_list_to_set, list_elem_of_fmap.
    exists (url +:+ Py.newline). split.
    + by rewrite strip_line.
    + apply elem_of_app. right. apply list_elem_of_singleton. reflexivity.
  - intros w' x. unfold load_processed. destruct (progress w') as [content|].
    + rewrite elem_of_list_to_set, list_elem_of_fmap. split.
      * intros (line & -> & Hin). by exists content, line.
      * intros (c & line & [= <-] & Hin & ->). by exists line.
    + split; [set_solver|]. intros (c & line & [=] & _).
Qed.

Lemma mark_then_load_witness :
  Demo.sky ∈ load_processed (mark_processed Demo.sky Demo.fresh)
  /\ (forall w' x, x ∈ load_processed w' <->
        exists content line,
          progress w' = Some content /\ line ∈ Py.readlines content /\ x = Py.strip line).
Proof. apply (mark_then_load Demo.fresh Demo.sky); reflexivity. Defined.

(** ** Publishers *)

Lemma split_first_spec (c : ascii) (s x y : string) :
  Py.split_first c s = Some (x, y) -> split_at_first c s x y.
Proof.
  revert x. induction s as [|a s IH]; intros x; [discriminate|].
  cbn [Py.split_first]. destruct (Ascii.eqb a c) eqn:Ha.
  - intros [= <- <-]. apply Ascii.eqb_eq in Ha as ->. by split.
  - destruct (Py.split_first c s) as [[x' y']|]; [|discriminate].
    intros [= <- <-]. destruct (IH x' eq_refl) as [-> Hx]. split; [reflexivity|].
    cbn [Py.has_char]. by rewrite Ha, Hx.
Qed.

Lemma split_first_total (c : ascii) (s : string) :
  Py.has_char c s = true -> exists x y, Py.split_first c s = Some (x, y).
Proof.
  induction s as [|a s IH]; [discriminate|].
  cbn [Py.has_char Py.split_first]. destruct (Ascii.eqb a c); [eauto|].
  intros H. destruct (IH H) as (x & y & ->). eauto.
Qed.

Lemma lstrip_has_char (c : ascii) (s : string) :
  Py.is_space c = false -> Py.has_char c (Py.lstrip s) = Py.has_char c s.
Proof.
  intros Hc. induction s as [|a s IH]; [reflexivity|].
  cbn [Py.lstrip Py.has_char]. destruct (Py.is_space a) eqn:Ha; [|reflexivity].
  rewrite IH. destruct (Ascii.eqb a c) eqn:Hac; [|reflexivity].
  apply Ascii.eqb_eq in Hac. congruence.
Qed.

Lemma rstrip_has_char (c : ascii) (s : string) :
  Py.is_space c = false -> Py.has_char c (Py.rstrip s) = Py.has_char c s.
Proof.
  intros Hc. induction s as [|a s IH]; [reflexivity|].
  cbn [Py.rstrip Py.has_char].
  destruct (Py.is_space a && Py.is_empty (Py.rstrip s)) eqn:Hcut.
  - apply andb_true_iff in Hcut as [Ha He]. rewrite <- IH.
    destruct (Py.rstrip s); [|discriminate]. cbn.
    destruct (Ascii.eqb a c) eqn:Hac; [|reflexivity].
    apply Ascii.eqb_eq in Hac. congruence.
  - cbn [Py.has_char]. by rewrite IH.
Qed.

Lemma strip_has_char (c : ascii) (s : string) :
  Py.is_space c = false -> Py.has_char c (Py.strip s) = Py.has_char c s.
Proof. intros Hc. unfold Py.strip. by rewrite lstrip_has_char, rstrip_has_char. Qed.

Lemma publishers_fold (lines : list string) (acc : list (string * string)) :
  fold_left (fun acc line =>
      if negb (Py.is_empty (Py.strip line)) && Py.has_char ","%char line then
        match Py.split_first ","%char (Py.strip line) with
        | Some (name, url) => acc ++ [(Py.strip name, Py.strip url)]
        | None => acc
        end
      else acc) lines acc
  = acc ++ omap publisher_of_line lines.
Proof.
  revert acc. induction lines as [|l lines IH]; intros acc.
  - cbn. by rewrite app_nil_r.
  - cbn [fold_left]. rewrite IH.
    change (omap publisher_of_line (l :: lines)) with
      (match publisher_of_line l with
       | Some p => p :: omap publisher_of_line lines
       | None => omap publisher_of_line lines
       end).
    unfold publisher_of_line at 2, qualifies.
    destruct (negb (Py.is_empty (Py.strip l)) && Py.has_char "," l); [|reflexivity].
    destruct (Py.split_first "," (Py.strip l)) as [[name url]|]; [|reflexivity].
    by rewrite <- app_assoc.
Qed.

Lemma publishers_of_lines (lines : list string) :
  Forall2 (fun line p => exists name url,
      split_at_first ","%char (Py.strip line) name url /\ p = (Py.strip name, Py.strip url))
    (filter (fun l => Is_true (qualifies l)) lines) (omap publisher_of_line lines).
Proof.
  induction lines as [|l lines IH]; [constructor|].
  change (omap publisher_of_line (l :: lines)) with
    (match publisher_of_line l with
     | Some p => p :: omap publisher_of_line lines
     | None => omap publisher_of_line lines
     end).
  unfold publisher_of_line at 1.
  destruct (qualifies l) eqn:Hq.
  - rewrite filter_cons_True by (by rewrite Hq).
    destruct (split_first_total ","%char (Py.strip l)) as (x & y & Hs).
    { rewrite strip_has_char by reflexivity.
      unfold qualifies in Hq. by apply andb_true_iff in Hq as [_ Hq]. }
    rewrite Hs. constructor; [|exact IH].
    exists x, y. split; [by apply split_first_spec|reflexivity].
  - rewrite filter_cons_False; [exact IH|]. rewrite Hq. intros [].
Qed.

(** C8. With no [publishers.txt], or none of its lines naming a publisher
    (non-blank, with a comma), the run works on the default publisher
    alone; otherwise on one pair per such line, in order: the stripped
    line cut at its first comma, both halves stripped. *)
Theorem publishers_loaded (file : option string) :
  let lines := match file with None => [] | Some content => Py.readlines content end in
  let good := filter (fun l => Is_true (qualifies l)) lines in
  DEFAULT_PUBLISHER =
    ("ARTnGAME", "https://assetstore.unity.com/publishers/6503?pageSize=96")
  /\ (good = [] -> load_publishers file = [DEFAULT_PUBLISHER])
  /\ (good <> [] ->
      Forall2 (fun line p => exists name url,
          split_at_first ","%char (Py.strip line) name url
          /\ p = (Py.strip name, Py.strip url))
        good (load_publishers file)).
Proof.
  cbv zeta. split; [reflexivity|].
  set (ps := omap publisher_of_line
               (match file with None => [] | Some c => Py.readlines c end)).
  assert (Hload : load_publishers file =
                  match ps with [] => [DEFAULT_PUBLISHER] | _ => ps end).
  { unfold load_publishers, ps. destruct file as [content|]; [|reflexivity].
    rewrite publishers_fold. reflexivity. }
  pose proof (publishers_of_lines
                (match file with None => [] | Some c => Py.readlines c end)) as H.
  fold ps in H. rewrite Hload. split; intros Hgood.
  - rewrite Hgood in H. apply Forall2_nil_inv_l in H. by rewrite H.
  - destruct ps eqn:Ho; [|exact H].
    apply Forall2_nil_inv_r in H. exfalso. apply Hgood. exact H.
Qed.

(** ** Writing out one asset *)

Lemma for_each_lift {A} (g : A -> world -> world) (body : A -> M unit) (l : list A) (w : world) :
  (forall x w, body x w = (Ok tt, g x w)) ->
  for_each l body w = (Ok tt, fold_left (fun w x => g x w) l w).
Proof.
  intros Hb. revert w. induction l as [|x l IH]; intros w; [reflexivity|].
  cbn [for_each fold_left]. unfold bind. rewrite Hb. apply IH.
Qed.

Lemma fold_left_flat_map {A B C} (f : C -> B -> C) (h : A -> list B) (l : list A) (c : C) :
  fold_left f (flat_map h l) c = fold_left (fun c x => fold_left f (h x) c) l c.
Proof.
  revert c. induction l as [|x l IH]; intros c; [reflexivity|].
  cbn [flat_map fold_left]. by rewrite fold_left_app, IH.
Qed.

Lemma write_rows_entries (pn pu link : string) (name : json)
    (ups : list price_pair) (upg : list upgrade) (w : world) :
  write_rows pn pu link name ups upg w
  = (Ok tt, write_entries (entries pn pu link name ups upg) w).
Proof.
  unfold write_rows, entries, write_entries.
  destruct ups as [|p0 ups0]; [reflexivity|].
  set (all := p0 :: ups0). clearbody all.
  rewrite fold_left_flat_map.
  apply (for_each_lift (fun p w => fold_left (fun w en => write_entry en w)
           (match upg with
            | [] => [(price_line link name p, price_row pn pu link name p)]
            | _ => map (fun u => (upgrade_line link name p u,
                                  upgrade_row pn pu link name p u)) upg
            end) w)).
  intros p w0. destruct upg as [|u0 upg0]; [reflexivity|].
  set (us := u0 :: upg0). clearbody us.
  rewrite (for_each_lift (fun u w => write_entry
             (upgrade_line link name p u, upgrade_row pn pu link name p u) w)).
  - f_equal. clear. revert w0. induction us as [|u us IH]; intros w0; [reflexivity|].
    cbn [map fold_left]. apply IH.
  - reflexivity.
Qed.

Lemma emit_asset_spec (e : env) (pn pu link : string) (f : facts) (w : world) :
  emit_asset e pn pu link f w =
  match unique_prices e (found_prices f) with
  | Some ups =>
      (Ok tt, mark_processed link
                (write_entries (entries pn pu link (asset_name_of (asset_names f) link)
                                  ups (upgrade_from f)) w))
  | None => (Fail TypeError, w)
  end.
Proof.
  unfold emit_asset, bind, unique_prices_of, unique_prices.
  destruct (found_prices f) as [|p fp].
  - unfold ret. rewrite write_rows_entries. reflexivity.
  - destruct (list_set e (p :: fp)); [|reflexivity].
    unfold ret. rewrite write_rows_entries. reflexivity.
Qed.

Lemma write_entries_files (es : list entry) (w : world) :
  text_of (out_txt (write_entries es w)) = text_of (out_txt w) +:+ unlines (map fst es)
  /\ rows_of (out_csv (write_entries es w)) = rows_of (out_csv w) ++ map snd es
  /\ progress (write_entries es w) = progress w
  /\ visited (write_entries es w) = visited w.
Proof.
  unfold write_entries. revert w. induction es as [|en es IH]; intros w.
  - cbn. by rewrite app_empty_r, app_nil_r.
  - cbn [fold_left map unlines]. destruct (IH (write_entry en w)) as (Ht & Hc & Hp & Hv).
    rewrite Ht, Hc, Hp, Hv. cbn. rewrite <- !app_assoc, !app_assoc_str. done.
Qed.




(** ** Price pairs as a set *)







Lemma distinct_subset (l : list price_pair) (q : price_pair) : q ∈ distinct l -> q ∈ l.
Proof.
  induction l as [|p l IH]; [done|]. cbn [distinct].
  intros [->|[_ H]%list_elem_of_filter]%elem_of_cons; [left|right; auto].
Qed.


Lemma entries_length (pn pu link : string) (name : json)
    (ups : list price_pair) (upg : list upgrade) :
  length (entries pn pu link name ups upg) =
  match ups with
  | [] => 1
  | _ => length ups * Nat.max 1 (length upg)
  end.
Proof.
  unfold entries. destruct ups as [|p0 ups0]; [reflexivity|].
  set (all := p0 :: ups0). clearbody all.
  induction all as [|p all IH]; [reflexivity|].
  cbn [flat_map]. rewrite length_app, IH. cbn [length].
  destruct upg; [reflexivity|]. rewrite length_map. cbn [length]. lia.
Qed.







(** ** The response handler *)

Lemma try_body_raises (r : response) (f : facts) :
  (try_body r f).2 = Raised <-> raises r.
Proof.
  unfold raises, try_body. destruct (all_headers r) as [h|]; [|done].
  destruct (Py.contains _ _); [|done].
  destruct (body_json r) as [data|]; [|done].
  by destruct (gate _).
Qed.

Lemma try_body_raised (r : response) (f : facts) :
  raises r -> (try_body r f).1 = f.
Proof.
  unfold raises, try_body. destruct (all_headers r) as [h|]; [|done].
  destruct (Py.contains _ _); [|done].
  destruct (body_json r) as [data|]; [|done].
  by destruct (gate _).
Qed.

(** C6. When the body of the handler raises (the headers or the JSON body
    cannot be had), the handler still returns and the three lists of the
    asset are what they were; the facts gathered for the asset are those
    of its other responses. *)
Theorem handler_discards_failures (r : response) (f : facts) :
  (try_body r f).2 = Raised ->
  handle_response r f = f
  /\ forall before after : list response,
       gather (before ++ r :: after) = gather (before ++ after).
Proof.
  intros Hr%try_body_raises. split.
  - by apply try_body_raised.
  - intros before after. unfold gather. rewrite !fold_left_app. cbn [fold_left].
    unfold handle_response at 2. by rewrite try_body_raised.
Qed.

Lemma handler_discards_failures_witness :
  let r := {| all_headers := Some [("content-type", "application/json")];
              body_json := None |} in
  let f := gather [json_response Demo.sky_json] in
  (try_body r f).2 = Raised
  /\ handle_response r f = f
  /\ forall before after : list response,
       gather (before ++ r :: after) = gather (before ++ after).
Proof.
  cbv zeta. split; [reflexivity|].
  apply (handler_discards_failures
           {| all_headers := Some [("content-type", "application/json")];
              body_json := None |}
           (gather [json_response Demo.sky_json])).
  reflexivity.
Defined.

(** ** The crawl *)

Lemma visit_all_nil (w : world) : visit_all [] w = w.
Proof. destruct w. unfold visit_all. cbn. by rewrite app_nil_r. Qed.

Lemma visit_all_app (a b : list nav) (w : world) :
  visit_all b (visit_all a w) = visit_all (a ++ b) w.
Proof. unfold visit_all. cbn. by rewrite app_assoc. Qed.

Lemma goto_visit_all (n : nav) (w : world) : goto n w = visit_all [n] w.
Proof. reflexivity. Qed.

Lemma fetches_S (base : string) (first count : nat) :
  fetches base first (S count)
  = NavListing (page_url base first) :: fetches base (S first) count.
Proof. reflexivity. Qed.

Lemma collect_loop_spec (e : env) (base : string) (page_size : nat) (fuel : nat) :
  forall (first k : nat) (all : gset string) (w : world),
    (forall i, first <= i < first + k -> short_page e base page_size i = false) ->
    (short_page e base page_size (first + k) = true -> k < fuel ->
       exists links,
         collect_loop fuel e base page_size first all w
         = (Some links, visit_all (fetches base first (S k)) w))
    /\ (fuel <= k ->
          collect_loop fuel e base page_size first all w
          = (None, visit_all (fetches base first fuel) w)).
Proof.
  induction fuel as [|fuel IH]; intros first k all w Hfull.
  { split; [lia|]. intros _. cbn. by rewrite visit_all_nil. }
  cbn [collect_loop]. rewrite goto_visit_all.
  fold (num_assets e base first).
  destruct k as [|k].
  - split; [|lia]. intros Hshort _. rewrite Nat.add_0_r in Hshort.
    unfold short_page in Hshort.
    destruct (num_assets e base first =? 0) eqn:Hz; [by eexists|].
    rewrite orb_false_l in Hshort. rewrite Hshort. by eexists.
  - assert (Hfirst : short_page e base page_size first = false) by (apply Hfull; lia).
    unfold short_page in Hfirst. apply orb_false_iff in Hfirst as [Hz Hlt].
    rewrite Hz, Hlt. replace (first + 1) with (S first) by lia.
    destruct (IH (S first) k (all ∪ page_links (listing e (page_url base first)))
                (visit_all [NavListing (page_url base first)] w)) as [IHa IHb].
    { intros i Hi. apply Hfull. lia. }
    split.
    + intros Hshort Hk. destruct IHa as [links Hl].
      { by replace (S first + k) with (first + S k) by lia. }
      { lia. }
      exists links. rewrite Hl, visit_all_app. reflexivity.
    + intros Hk. rewrite IHb by lia. rewrite visit_all_app. reflexivity.
Qed.

(** C3. The collector goes on to the next listing page exactly as long as
    the page just fetched shows a full page of distinct product links: if
    pages 1 to [k] are full and page [k + 1] has fewer than [page_size]
    links (or none), it fetches pages 1 to [k + 1] and returns; as long as
    the pages are full it does not return. With a short first page
    ([k = 0]) that is one fetch. *)
Theorem collector_stops_at_first_short_page
    (fuel : nat) (e : env) (base : string) (page_size k : nat) (w : world) :
  (forall i, 1 <= i <= k -> short_page e base page_size i = false) ->
  (short_page e base page_size (S k) = true -> k < fuel ->
     exists links,
       collect_all_assets_by_url fuel e base page_size w
       = (Some links, visit_all (fetches base 1 (S k)) w))
  /\ (fuel <= k ->
        collect_all_assets_by_url fuel e base page_size w
        = (None, visit_all (fetches base 1 fuel) w)).
Proof.
  intros Hfull. unfold collect_all_assets_by_url.
  destruct (collect_loop_spec e base page_size fuel 1 k ∅ w) as [Ha Hb].
  { intros i Hi. apply Hfull. lia. }
  split.
  - intros Hshort Hk. destruct (Ha Hshort Hk) as [links ->]. by eexists.
  - intros Hk. by rewrite Hb.
Qed.

Lemma collector_stops_at_first_short_page_witness :
  (exists links,
     collect_all_assets_by_url 5 Demo.store Demo.base PAGE_SIZE Demo.fresh
     = (Some links, visit_all [NavListing (Demo.base +:+ "&page=1")] Demo.fresh))
  /\ (exists links,
        collect_all_assets_by_url 5 Long.store Demo.base PAGE_SIZE Demo.fresh
        = (Some links, visit_all [NavListing (Demo.base +:+ "&page=1");
                                  NavListing (Demo.base +:+ "&page=2")] Demo.fresh))
  /\ collect_all_assets_by_url 1 Long.store Demo.base PAGE_SIZE Demo.fresh
     = (None, visit_all [NavListing (Demo.base +:+ "&page=1")] Demo.fresh).
Proof.
  assert (Hfull : forall i, 1 <= i <= 1 -> short_page Long.store Demo.base PAGE_SIZE i = false).
  { intros i Hi. assert (i = 1) as -> by lia. vm_compute. reflexivity. }
  split; [|split].
  - apply (collector_stops_at_first_short_page 5 Demo.store Demo.base PAGE_SIZE 0 Demo.fresh).
    + intros i Hi. lia.
    + vm_compute. reflexivity.
    + lia.
  - apply (collector_stops_at_first_short_page 5 Long.store Demo.base PAGE_SIZE 1 Demo.fresh).
    + exact Hfull.
    + vm_compute. reflexivity.
    + lia.
  - apply (collector_stops_at_first_short_page 1 Long.store Demo.base PAGE_SIZE 1 Demo.fresh).
    + exact Hfull.
    + lia.
Defined.

(** ** What a run adds to the world *)

Lemma unlines_app (a b : list string) : unlines (a ++ b) = unlines a +:+ unlines b.
Proof.
  induction a as [|l a IH]; [reflexivity|].
  cbn [app unlines]. by rewrite IH, !app_assoc_str.
Qed.

Section run_invariant.
Variables (Pnav : nav -> Prop) (Pline : string -> Prop) (Prow : row -> Prop)
  (Pmark : string -> Prop).

Lemma appends_refl (w : world) : appends Pnav Pline Prow Pmark w w.
Proof.
  split; [exists []; by rewrite app_nil_r|].
  split; [exists []; by rewrite app_empty_r|].
  split; [exists []; by rewrite app_nil_r|].
  exists []. by rewrite app_empty_r.
Qed.

Lemma appends_trans (w1 w2 w3 : world) :
  appends Pnav Pline Prow Pmark w1 w2 -> appends Pnav Pline Prow Pmark w2 w3 ->
  appends Pnav Pline Prow Pmark w1 w3.
Proof.
  intros ((n1 & Hn1 & Pn1) & (l1 & Hl1 & Pl1) & (r1 & Hr1 & Pr1) & (m1 & Hm1 & Pm1))
         ((n2 & Hn2 & Pn2) & (l2 & Hl2 & Pl2) & (r2 & Hr2 & Pr2) & (m2 & Hm2 & Pm2)).
  repeat split.
  - exists (n1 ++ n2). rewrite Hn2, Hn1, app_assoc. split; [done|by apply Forall_app].
  - exists (l1 ++ l2). rewrite Hl2, Hl1, unlines_app, app_assoc_str.
    split; [done|by apply Forall_app].
  - exists (r1 ++ r2). rewrite Hr2, Hr1, app_assoc. split; [done|by apply Forall_app].
  - exists (m1 ++ m2). rewrite Hm2, Hm1, unlines_app, app_assoc_str.
    split; [done|by apply Forall_app].
Qed.

Lemma appends_visit (navs : list nav) (w : world) :
  Forall Pnav navs -> appends Pnav Pline Prow Pmark w (visit_all navs w).
Proof.
  intros H. split; [by exists navs|].
  split; [exists []; cbn; by rewrite app_empty_r|].
  split; [exists []; cbn; by rewrite app_nil_r|].
  exists []. cbn. by rewrite app_empty_r.
Qed.

Lemma appends_row (r : row) (w : world) :
  Prow r -> appends Pnav Pline Prow Pmark w (save_csv_row r w).
Proof.
  intros H. split; [exists []; cbn; by rewrite app_nil_r|].
  split; [exists []; cbn; by rewrite app_empty_r|].
  split; [exists [r]; split; [done|by constructor]|].
  exists []. cbn. by rewrite app_empty_r.
Qed.

Lemma appends_mark (link : string) (w : world) :
  Pmark link -> appends Pnav Pline Prow Pmark w (mark_processed link w).
Proof.
  intros H. split; [exists []; cbn; by rewrite app_nil_r|].
  split; [exists []; cbn; by rewrite app_empty_r|].
  split; [exists []; cbn; by rewrite app_nil_r|].
  exists [link]. split; [|by constructor].
  cbn [unlines]. by rewrite app_empty_r.
Qed.

Lemma appends_entries (es : list entry) (w : world) :
  Forall (fun en : entry => Pline en.1 /\ Prow en.2) es ->
  appends Pnav Pline Prow Pmark w (write_entries es w).
Proof.
  intros H. destruct (write_entries_files es w) as (Ht & Hc & Hp & Hv).
  repeat split.
  - exists []. rewrite Hv, app_nil_r. done.
  - exists (map fst es). split; [done|].
    apply Forall_fmap. eapply Forall_impl; [exact H|]. by intros en [? _].
  - exists (map snd es). split; [done|].
    apply Forall_fmap. eapply Forall_impl; [exact H|]. by intros en [_ ?].
  - exists []. rewrite Hp. cbn. by rewrite app_empty_r.
Qed.

Lemma keeps_bind {A B} (c : M A) (k : A -> M B) :
  keeps (appends Pnav Pline Prow Pmark) c ->
  (forall a, keeps (appends Pnav Pline Prow Pmark) (k a)) ->
  keeps (appends Pnav Pline Prow Pmark) (bind c k).
Proof.
  intros Hc Hk w. unfold bind. specialize (Hc w).
  destruct (c w) as [[a|err] w']; [|exact Hc].
  eapply appends_trans; [exact Hc|apply Hk].
Qed.

Lemma keeps_ret {A} (a : A) : keeps (appends Pnav Pline Prow Pmark) (ret a).
Proof. intros w. apply appends_refl. Qed.

Lemma keeps_for_each {A} (l : list A) (body : A -> M unit) :
  (forall x, x ∈ l -> keeps (appends Pnav Pline Prow Pmark) (body x)) ->
  keeps (appends Pnav Pline Prow Pmark) (for_each l body).
Proof.
  induction l as [|x l IH]; intros Hb; [apply keeps_ret|].
  cbn [for_each]. apply keeps_bind.
  - apply Hb. left.
  - intros _. apply IH. intros y Hy. apply Hb. by right.
Qed.

Variables (e : env) (processed : gset string) (publishers : list (string * string)).
Hypothesis Hlisting : forall url, Pnav (NavListing url).
Hypothesis Hpublisher : forall url, Pnav (NavPublisher url).
Hypothesis Hasset : forall link, link ∉ processed -> Pnav (NavAsset link) /\ Pmark link.
Hypothesis Hentries : forall pn pu link name ups upg,
  (pn, pu) ∈ publishers -> link ∉ processed ->
  Forall (fun en : entry => Pline en.1 /\ Prow en.2) (entries pn pu link name ups upg).

Lemma keeps_emit (pn pu link : string) (f : facts) :
  (pn, pu) ∈ publishers -> link ∉ processed ->
  keeps (appends Pnav Pline Prow Pmark) (emit_asset e pn pu link f).
Proof.
  intros Hp Hl w. rewrite emit_asset_spec.
  destruct (unique_prices e (found_prices f)) as [ups|]; [|apply appends_refl].
  cbn [snd]. eapply appends_trans.
  - apply appends_entries. by apply Hentries.
  - apply appends_mark. by apply Hasset.
Qed.

Lemma keeps_batch (pn pu : string) (batch : list string) :
  (pn, pu) ∈ publishers ->
  keeps (appends Pnav Pline Prow Pmark) (process_batch e processed pn pu batch).
Proof.
  intros Hp. unfold process_batch.
  pose proof (fun l => proj1 (list_elem_of_filter (fun l => l ∉ processed) batch l)) as Hf.
  destruct (filter (fun l => l ∉ processed) batch) as [|l0 ls] eqn:Hb; [apply keeps_ret|].
  set (ok := l0 :: ls) in *. clearbody ok.
  apply keeps_bind.
  - apply keeps_for_each. intros l Hl w. cbn. rewrite goto_visit_all.
    apply appends_visit. constructor; [|constructor]. apply Hasset. by apply Hf.
  - intros _. apply keeps_for_each. intros r Hr.
    apply list_elem_of_fmap in Hr as (l & -> & Hl). cbn [fst snd].
    apply keeps_emit; [exact Hp|]. by apply Hf.
Qed.

Lemma collect_loop_visits (fuel : nat) (base : string) (page_size first : nat)
    (all : gset string) (w : world) :
  exists n, (collect_loop fuel e base page_size first all w).2
            = visit_all (fetches base first n) w.
Proof.
  revert first all w. induction fuel as [|fuel IH]; intros first all w.
  { exists 0. cbn. by rewrite visit_all_nil. }
  cbn [collect_loop]. rewrite goto_visit_all.
  destruct (_ =? 0); [by exists 1|]. destruct (_ <? page_size); [by exists 1|].
  destruct (IH (first + 1) (all ∪ page_links (listing e (page_url base first)))
              (visit_all [NavListing (page_url base first)] w)) as [n Hn].
  exists (S n). rewrite Hn, visit_all_app, fetches_S.
  by replace (first + 1) with (S first) by lia.
Qed.

Lemma keeps_publisher (fuel : nat) (p : string * string) :
  p ∈ publishers ->
  keeps (appends Pnav Pline Prow Pmark) (process_publisher fuel e processed p).
Proof.
  destruct p as [pn pu]. intros Hp. unfold process_publisher.
  apply keeps_bind.
  { intros w. cbn. rewrite goto_visit_all. apply appends_visit.
    constructor; [apply Hpublisher|constructor]. }
  intros _. apply keeps_bind.
  - intros w. unfold collect_all_assets_by_url.
    destruct (collect_loop_visits fuel pu PAGE_SIZE 1 ∅ w) as [n Hn].
    destruct (collect_loop fuel e pu PAGE_SIZE 1 ∅ w) as [[links|] w'];
      cbn [snd] in *; subst w'; apply appends_visit;
      apply Forall_fmap, Forall_forall; intros; apply Hlisting.
  - intros all_assets. apply keeps_for_each. intros batch _. by apply keeps_batch.
Qed.

End run_invariant.

Lemma main_appends (Pnav : nav -> Prop) (Pline : string -> Prop) (Prow : row -> Prop)
    (Pmark : string -> Prop) (fuel : nat) (e : env) (w : world) :
  (forall url, Pnav (NavListing url)) ->
  (forall url, Pnav (NavPublisher url)) ->
  Pnav NavSignIn ->
  Prow CSV_HEADER ->
  (forall link, link ∉ load_processed w -> Pnav (NavAsset link) /\ Pmark link) ->
  (forall pn pu link name ups upg,
      (pn, pu) ∈ load_publishers (publishers_txt e) -> link ∉ load_processed w ->
      Forall (fun en : entry => Pline en.1 /\ Prow en.2) (entries pn pu link name ups upg)) ->
  appends Pnav Pline Prow Pmark w (main fuel e w).2.
Proof.
  intros Hlist Hpub Hsign Hhead Hasset Hentries.
  assert (Hloop : forall w0, load_processed w0 = load_processed w ->
            appends Pnav Pline Prow Pmark w0
              ((let* _ := if storage_exists e then ret tt else lift (goto NavSignIn) in
                for_each (load_publishers (publishers_txt e))
                  (process_publisher fuel e (load_processed w0))) w0).2).
  { intros w0 Hw0. rewrite Hw0. apply keeps_bind.
    - destruct (storage_exists e); [apply keeps_ret|].
      intros w1. cbn. rewrite goto_visit_all. apply appends_visit. by repeat constructor.
    - intros _. apply keeps_for_each. intros p Hp.
      by apply (keeps_publisher Pnav Pline Prow Pmark e (load_processed w)
                  (load_publishers (publishers_txt e))). }
  unfold main, bind at 1, reads. destruct (out_csv w) eqn:Hcsv.
  - unfold bind at 1, ret. unfold bind at 1. apply Hloop. reflexivity.
  - unfold bind at 1, lift. unfold bind at 1.
    eapply appends_trans; [apply appends_row, Hhead|]. apply Hloop. reflexivity.
Qed.

(** C7. Each of the three writers appends: the text file and the progress
    file become their old text followed by the new line, the CSV file its
    old records followed by the new one, so what was there before is a
    prefix of what is there after; the two files a writer does not own
    are left as they were. A whole run, made of such calls, only adds
    lines, records and markers after what the files held. *)
Theorem writers_only_append (w : world) (text link : string) (r : row)
    (fuel : nat) (e : env) :
  (out_txt (save_txt_line text w) = Some (text_of (out_txt w) +:+ (text +:+ Py.newline))
   /\ String.prefix (text_of (out_txt w)) (text_of (out_txt (save_txt_line text w))) = true
   /\ out_csv (save_txt_line text w) = out_csv w
   /\ progress (save_txt_line text w) = progress w)
  /\ (out_csv (save_csv_row r w) = Some (rows_of (out_csv w) ++ [r])
      /\ rows_of (out_csv w) `prefix_of` rows_of (out_csv (save_csv_row r w))
      /\ out_txt (save_csv_row r w) = out_txt w
      /\ progress (save_csv_row r w) = progress w)
  /\ (progress (mark_processed link w) = Some (text_of (progress w) +:+ (link +:+ Py.newline))
      /\ String.prefix (text_of (progress w)) (text_of (progress (mark_processed link w))) = true
      /\ out_txt (mark_processed link w) = out_txt w
      /\ out_csv (mark_processed link w) = out_csv w)
  /\ appends (fun _ => True) (fun _ => True) (fun _ => True) (fun _ => True)
       w (main fuel e w).2.
Proof.
  split; [|split; [|split]].
  - repeat split; cbn; apply prefix_app.
  - repeat split. by exists [r].
  - repeat split; cbn; apply prefix_app.
  - apply main_appends; try done. intros. apply Forall_forall. done.
Qed.

(** ** The processed set *)

Lemma entries_of_asset (pn pu link : string) (name : json)
    (ups : list price_pair) (upg : list upgrade) :
  Forall (fun en : entry => line_of_asset link en.1 /\ row_of_asset link en.2)
    (entries pn pu link name ups upg).
Proof.
  assert (Hline : forall a b : string, line_of_asset link (a +:+ b +:+ " | " +:+ link)).
  { intros a b. exists (a +:+ b). by rewrite app_assoc_str. }
  unfold entries. destruct ups as [|p0 ups0].
  { constructor; [|constructor]. split; [|by exists name].
    exists (Value.str name +:+ " | No offerRating found"). cbn [fst]. unfold empty_line.
    by rewrite app_assoc_str. }
  set (all := p0 :: ups0). clearbody all.
  apply Forall_forall. intros en Hin. apply list_elem_of_In, in_flat_map in Hin.
  destruct Hin as (p & _ & Hin). destruct upg as [|u0 upg0].
  - destruct Hin as [<-|[]]. split; [|by exists name]. cbn [fst]. unfold price_line.
    exists (Value.str name +:+ " | Original: " +:+ Value.str (or_na p.1) +:+
            " | Final: " +:+ Value.str (or_na p.2)).
    by rewrite !app_assoc_str.
  - apply in_map_iff in Hin as (u & <- & _). split; [|by exists name].
    cbn [fst]. unfold upgrade_line.
    exists (Value.str name +:+ " | Original: " +:+ Value.str (or_na p.1) +:+
            " | Final: " +:+ Value.str (or_na p.2) +:+ " | Upgrade from: " +:+
            Value.str u.1 +:+ " (" +:+ u.2 +:+ ")").
    by rewrite !app_assoc_str.
Qed.

(** C1 as stated fails within one run: the set the batches are filtered
    by is the one loaded at the start, so an asset marked while the first
    publisher was handled is opened and written again for the second. *)
Lemma marked_asset_visited_again :
  let processed := load_processed Demo.fresh in
  let w1 := (process_publisher 3 Twice.store processed ("A", Demo.base)
               (save_csv_row CSV_HEADER Demo.fresh)).2 in
  let w2 := (process_publisher 3 Twice.store processed ("B", Demo.base) w1).2 in
  main 3 Twice.store Demo.fresh = (Ok tt, w2)
  /\ progress w1 = Some (Demo.sky +:+ Py.newline)
  /\ Demo.sky ∈ load_processed w1
  /\ visited w2 = visited w1 ++ [NavPublisher Demo.base;
                                 NavListing (Demo.base +:+ "&page=1");
                                 NavAsset Demo.sky]
  /\ progress w2 = Some (Demo.sky +:+ Py.newline +:+ Demo.sky +:+ Py.newline)
  /\ map (fun r => r !! 5) (rows_of (out_csv w2)) =
       [Some (JStr "Asset URL");
        Some (JStr (wrap_hyperlink Demo.sky (JStr "sky-2")));
        Some (JStr (wrap_hyperlink Demo.sky (JStr "sky-2")))].
Proof.
  cbv zeta.
  assert (Hp : progress (process_publisher 3 Twice.store (load_processed Demo.fresh)
                 ("A", Demo.base) (save_csv_row CSV_HEADER Demo.fresh)).2
               = Some (Demo.sky +:+ Py.newline)) by (vm_compute; reflexivity).
  split; [vm_compute; reflexivity|]. split; [exact Hp|].
  split.
  - set (w1 := (process_publisher 3 Twice.store _ _ _).2) in *. clearbody w1.
    unfold load_processed. rewrite Hp. apply elem_of_list_to_set, list_elem_of_fmap.
    exists (Demo.sky +:+ Py.newline). split; [reflexivity|].
    apply list_elem_of_singleton. reflexivity.
  - repeat split; vm_compute; reflexivity.
Qed.

(** ** The extractors *)

Lemma fold_left_keeps {A B} (step : list A -> B -> list A) (x : A) (l : list B) :
  Forall (fun y => forall acc, x ∈ acc -> x ∈ step acc y) l ->
  forall acc, x ∈ acc -> x ∈ fold_left step l acc.
Proof.
  induction 1 as [|y l Hy _ IH]; intros acc Hx; [exact Hx|].
  cbn [fold_left]. apply IH, Hy, Hx.
Qed.

Lemma fold_left_adds {A B} (step : list A -> B -> list A) (x : A) (l : list B) (y0 : B) :
  Forall (fun y => forall acc, x ∈ acc -> x ∈ step acc y) l ->
  y0 ∈ l -> (forall acc, x ∈ step acc y0) ->
  forall acc, x ∈ fold_left step l acc.
Proof.
  intros Hkeep Hin Hadd. induction Hkeep as [|y l Hy Hl IH]; [by apply elem_of_nil in Hin|].
  intros acc. cbn [fold_left]. apply elem_of_cons in Hin as [<-|Hin].
  - apply fold_left_keeps; [exact Hl|apply Hadd].
  - by apply IH.
Qed.

Lemma offer_fact_keeps (o : dict) (acc : list price_pair) (x : price_pair) :
  x ∈ acc -> x ∈ offer_fact o acc.
Proof.
  intros H. unfold offer_fact. destruct (_ || _); [|exact H].
  apply elem_of_app. by left.
Qed.

Lemma extract_offer_rating_keeps (x : price_pair) (data : json) :
  forall acc, x ∈ acc -> x ∈ extract_offer_rating data acc.
Proof.
  induction data as [| | | |l IH|f IH] using json_ind; try (intros acc H; exact H).
  - cbn [extract_offer_rating]. apply fold_left_keeps.
    eapply Forall_impl; [exact IH|]. intros y Hy acc. apply Hy.
  - cbn [extract_offer_rating]. apply fold_left_keeps.
    eapply Forall_impl; [exact IH|]. intros [k v] Hv acc Hx. cbn [snd] in Hv.
    destruct v; try (by apply Hv). destruct (String.eqb k "offerRating").
    + by apply offer_fact_keeps.
    + by apply Hv.
Qed.

Lemma offer_step_keeps (x : price_pair) (fields : dict) :
  Forall (fun kv : string * json => forall acc, x ∈ acc ->
    x ∈ (let '(k, v) := kv in
         match v with
         | JObj o => if String.eqb k "offerRating" then offer_fact o acc
                     else extract_offer_rating v acc
         | _ => extract_offer_rating v acc
         end)) fields.
Proof.
  apply Forall_forall. intros [k v] _ acc Hx.
  destruct v; try (by apply extract_offer_rating_keeps).
  destruct (String.eqb k "offerRating");
    [by apply offer_fact_keeps|by apply extract_offer_rating_keeps].
Qed.

Lemma extract_offer_rating_reaches (data : json) (o : dict) :
  reaches offer_handled data "offerRating" (JObj o) ->
  Value.truthy (Value.get "originalPrice" o) || Value.truthy (Value.get "finalPrice" o) = true ->
  forall acc,
    (Value.get "originalPrice" o, Value.get "finalPrice" o) ∈ extract_offer_rating data acc.
Proof.
  intros Hr Ht. remember "offerRating" as key eqn:Hk. remember (JObj o) as val eqn:Hv.
  induction Hr as [fields k v Hin|fields k' v' k v Hin Hh _ IH|items x k v Hin _ IH];
    intros acc; cbn [extract_offer_rating].
  - subst k v. eapply fold_left_adds; [apply offer_step_keeps|exact Hin|].
    intros a. cbn. unfold offer_fact. rewrite Ht. apply elem_of_app. right. left.
  - eapply fold_left_adds; [apply offer_step_keeps|exact Hin|].
    intros a. specialize (IH Hk Hv a). unfold offer_handled in Hh.
    destruct v'; try exact IH. cbn in Hh. rewrite andb_true_r in Hh. by rewrite Hh.
  - eapply fold_left_adds; [|exact Hin|intros a; by apply IH].
    apply Forall_forall. intros y _ a. apply extract_offer_rating_keeps.
Qed.

Lemma upgrade_value_keeps (v : json) (acc : list upgrade) (x : upgrade) :
  x ∈ acc -> x ∈ upgrade_value v acc.
Proof.
  destruct v as [| | | |l|o]; cbn [upgrade_value]; try done.
  - revert acc. apply fold_left_keeps, Forall_forall. intros y _ acc Hx.
    destruct y; try done. apply elem_of_app. by left.
  - intros Hx. apply elem_of_app. by left.
Qed.

Lemma upgrade_value_dict (o : dict) (acc : list upgrade) :
  upgrade_fact o ∈ upgrade_value (JObj o) acc.
Proof. cbn. apply elem_of_app. right. left. Qed.

Lemma upgrade_value_list (l : list json) (o : dict) (acc : list upgrade) :
  JObj o ∈ l -> upgrade_fact o ∈ upgrade_value (JArr l) acc.
Proof.
  intros Hin. cbn [upgrade_value]. revert acc.
  eapply fold_left_adds; [|exact Hin|].
  - apply Forall_forall. intros y _ acc Hx. destruct y; try done.
    apply elem_of_app. by left.
  - intros acc. apply elem_of_app. right. left.
Qed.

Lemma extract_upgrade_from_keeps (x : upgrade) (data : json) :
  forall acc, x ∈ acc -> x ∈ extract_upgrade_from data acc.
Proof.
  induction data as [| | | |l IH|f IH] using json_ind; try (intros acc H; exact H).
  - cbn [extract_upgrade_from]. apply fold_left_keeps.
    eapply Forall_impl; [exact IH|]. intros y Hy acc. apply Hy.
  - cbn [extract_upgrade_from]. apply fold_left_keeps.
    eapply Forall_impl; [exact IH|]. intros [k v] Hv acc Hx. cbn [snd] in Hv.
    destruct (is_upgrade_key k); [by apply upgrade_value_keeps|by apply Hv].
Qed.

Lemma upgrade_step_keeps (x : upgrade) (fields : dict) :
  Forall (fun kv : string * json => forall acc, x ∈ acc ->
    x ∈ (let '(k, v) := kv in
         if is_upgrade_key k then upgrade_value v acc
         else extract_upgrade_from v acc)) fields.
Proof.
  apply Forall_forall. intros [k v] _ acc Hx.
  destruct (is_upgrade_key k);
    [by apply upgrade_value_keeps|by apply extract_upgrade_from_keeps].
Qed.

Lemma extract_upgrade_from_reaches (data : json) (k : string) (v : json) (u : upgrade) :
  reaches upgrade_handled data k v ->
  is_upgrade_key k = true ->
  (forall acc, u ∈ upgrade_value v acc) ->
  forall acc, u ∈ extract_upgrade_from data acc.
Proof.
  intros Hr Hk Hu.
  induction Hr as [fields k v Hin|fields k' v' k v Hin Hh _ IH|items x k v Hin _ IH];
    intros acc; cbn [extract_upgrade_from].
  - eapply fold_left_adds; [apply upgrade_step_keeps|exact Hin|].
    intros a. cbn. rewrite Hk. apply Hu.
  - eapply fold_left_adds; [apply upgrade_step_keeps|exact Hin|].
    intros a. cbn. unfold upgrade_handled in Hh. rewrite Hh. by apply IH.
  - eapply fold_left_adds; [|exact Hin|intros a; by apply IH].
    apply Forall_forall. intros y _ a. apply extract_upgrade_from_keeps.
Qed.

Lemma name_fact_keeps (o : dict) (acc : list json) (x : json) :
  x ∈ acc -> x ∈ name_fact o acc.
Proof.
  intros H. unfold name_fact. destruct (Value.lookup "name" o); [|exact H].
  apply elem_of_app. by left.
Qed.

Lemma name_fact_adds (o : dict) (n : json) (acc : list json) :
  Value.lookup "name" o = Some n -> n ∈ name_fact o acc.
Proof. intros H. unfold name_fact. rewrite H. apply elem_of_app. right. left. Qed.

Lemma results_names_keeps (l : list json) (acc : list json) (x : json) :
  x ∈ acc -> x ∈ results_names l acc.
Proof.
  unfold results_names. revert acc. apply fold_left_keeps, Forall_forall.
  intros y _ acc Hx. destruct y; try done. by apply name_fact_keeps.
Qed.

Lemma results_names_adds (l : list json) (o : dict) (n : json) (acc : list json) :
  JObj o ∈ l -> Value.lookup "name" o = Some n -> n ∈ results_names l acc.
Proof.
  intros Hin Hn. unfold results_names. revert acc.
  eapply fold_left_adds; [|exact Hin|].
  - apply Forall_forall. intros y _ acc Hx. destruct y; try done. by apply name_fact_keeps.
  - intros acc. by apply name_fact_adds.
Qed.

Lemma extract_asset_name_keeps (x : json) (data : json) :
  forall acc, x ∈ acc -> x ∈ extract_asset_name data acc.
Proof.
  induction data as [| | | |l IH|f IH] using json_ind; try (intros acc H; exact H).
  - cbn [extract_asset_name]. apply fold_left_keeps.
    eapply Forall_impl; [exact IH|]. intros y Hy acc. apply Hy.
  - cbn [extract_asset_name]. apply fold_left_keeps.
    eapply Forall_impl; [exact IH|]. intros [k v] Hv acc Hx. cbn [snd] in Hv.
    destruct v; try (by apply Hv).
    + destruct (String.eqb k "results"); [by apply results_names_keeps|by apply Hv].
    + destruct (is_product_key k); [by apply name_fact_keeps|by apply Hv].
Qed.

Lemma name_step_keeps (x : json) (fields : dict) :
  Forall (fun kv : string * json => forall acc, x ∈ acc ->
    x ∈ (let '(k, v) := kv in
         match v with
         | JArr l => if String.eqb k "results" then results_names l acc
                     else extract_asset_name v acc
         | JObj o => if is_product_key k then name_fact o acc
                     else extract_asset_name v acc
         | _ => extract_asset_name v acc
         end)) fields.
Proof.
  apply Forall_forall. intros [k v] _ acc Hx.
  destruct v; try (by apply extract_asset_name_keeps).
  - destruct (String.eqb k "results");
      [by apply results_names_keeps|by apply extract_asset_name_keeps].
  - destruct (is_product_key k);
      [by apply name_fact_keeps|by apply extract_asset_name_keeps].
Qed.

Lemma extract_asset_name_below (fields : dict) (k' : string) (v' : json) (n : json) :
  (k', v') ∈ fields -> name_handled k' v' = false ->
  (forall acc, n ∈ extract_asset_name v' acc) ->
  forall acc, n ∈ extract_asset_name (JObj fields) acc.
Proof.
  intros Hin Hh IH acc. cbn [extract_asset_name]. revert acc.
  eapply fold_left_adds; [apply name_step_keeps|exact Hin|].
  intros a. cbn. unfold name_handled in Hh. apply orb_false_iff in Hh as [H1 H2].
  destruct v'; try apply IH.
  - cbn in H1. rewrite andb_true_r in H1. rewrite H1. apply IH.
  - cbn in H2. rewrite andb_true_r in H2. rewrite H2. apply IH.
Qed.

Lemma extract_asset_name_results (data : json) (l : list json) (o : dict) (n : json) :
  reaches name_handled data "results" (JArr l) ->
  JObj o ∈ l -> Value.lookup "name" o = Some n ->
  forall acc, n ∈ extract_asset_name data acc.
Proof.
  intros Hr Ho Hn. remember "results" as key eqn:Hk. remember (JArr l) as val eqn:Hv.
  induction Hr as [fields k v Hin|fields k' v' k v Hin Hh _ IH|items x k v Hin _ IH].
  - subst k v. intros acc. cbn [extract_asset_name]. revert acc.
    eapply fold_left_adds; [apply name_step_keeps|exact Hin|].
    intros a. cbn. by eapply results_names_adds.
  - eapply extract_asset_name_below; eauto.
  - intros acc. cbn [extract_asset_name]. revert acc.
    eapply fold_left_adds; [|exact Hin|intros a; by apply IH].
    apply Forall_forall. intros y _ a. apply extract_asset_name_keeps.
Qed.

Lemma extract_asset_name_product (data : json) (k : string) (o : dict) (n : json) :
  reaches name_handled data k (JObj o) ->
  is_product_key k = true -> Value.lookup "name" o = Some n ->
  forall acc, n ∈ extract_asset_name data acc.
Proof.
  intros Hr Hk Hn. remember (JObj o) as val eqn:Hv.
  induction Hr as [fields k v Hin|fields k' v' k v Hin Hh _ IH|items x k v Hin _ IH].
  - subst v. intros acc. cbn [extract_asset_name]. revert acc.
    eapply fold_left_adds; [apply name_step_keeps|exact Hin|].
    intros a. cbn. rewrite Hk. by apply name_fact_adds.
  - eapply extract_asset_name_below; eauto.
  - intros acc. cbn [extract_asset_name]. revert acc.
    eapply fold_left_adds; [|exact Hin|intros a; by apply IH].
    apply Forall_forall. intros y _ a. apply extract_asset_name_keeps.
Qed.

(** ** The keyword gate *)

Lemma infix_of_refl (s : string) : infix_of s s.
Proof. exists EmptyString, EmptyString. by rewrite app_empty_r. Qed.

Lemma infix_of_trans (a b c : string) : infix_of a b -> infix_of b c -> infix_of a c.
Proof.
  intros (p1 & q1 & ->) (p2 & q2 & ->). exists (p2 +:+ p1), (q1 +:+ q2).
  by rewrite !app_assoc_str.
Qed.

Lemma infix_of_app_l (a s t : string) : infix_of a s -> infix_of a (s +:+ t).
Proof. intros (p & q & ->). exists p, (q +:+ t). by rewrite !app_assoc_str. Qed.

Lemma infix_of_app_r (a s t : string) : infix_of a t -> infix_of a (s +:+ t).
Proof. intros (p & q & ->). exists (s +:+ p), q. by rewrite !app_assoc_str. Qed.

Lemma contains_infix (sub s : string) : infix_of sub s -> Py.contains sub s = true.
Proof.
  intros (before & after & ->). induction before as [|c before IH].
  - rewrite app_empty_l. pose proof (prefix_app sub after) as Hp.
    destruct (sub +:+ after); cbn [Py.contains]; rewrite Hp; reflexivity.
  - rewrite app_cons. cbn [Py.contains]. rewrite IH. apply orb_true_r.
Qed.

Lemma infix_of_join (sep x : string) (l : list string) :
  x ∈ l -> infix_of x (Py.join sep l).
Proof.
  unfold Py.join. induction l as [|y l IH]; intros Hin; [by apply elem_of_nil in Hin|].
  cbn [String.concat]. destruct l as [|z l].
  - apply list_elem_of_singleton in Hin as ->. apply infix_of_refl.
  - apply elem_of_cons in Hin as [->|Hin].
    + apply infix_of_app_l, infix_of_refl.
    + apply infix_of_app_r, infix_of_app_r. by apply IH.
Qed.

Lemma dumps_field (fields : dict) (k : string) (v : json) :
  (k, v) ∈ fields ->
  infix_of (Dumps.quoted k +:+ ": " +:+ Dumps.dumps v) (Dumps.dumps (JObj fields)).
Proof.
  intros Hin. cbn [Dumps.dumps]. apply infix_of_app_r, infix_of_app_l.
  apply infix_of_join.
  apply (list_elem_of_fmap_2 (fun kv : string * json =>
           Dumps.quoted kv.1 +:+ ": " +:+ Dumps.dumps kv.2) _ _ Hin).
Qed.

Lemma dumps_item (items : list json) (x : json) :
  x ∈ items -> infix_of (Dumps.dumps x) (Dumps.dumps (JArr items)).
Proof.
  intros Hin. cbn [Dumps.dumps]. apply infix_of_app_r, infix_of_app_l.
  apply infix_of_join. by apply list_elem_of_fmap_2.
Qed.

Lemma occurs_dumps (data : json) (k : string) (v : json) :
  occurs data k v -> infix_of (Dumps.quoted k) (Dumps.dumps data).
Proof.
  induction 1 as [fields k v Hin|fields k' v' k v Hin _ IH|items x k v Hin _ IH].
  - eapply infix_of_trans; [|by apply dumps_field].
    apply infix_of_app_l, infix_of_refl.
  - eapply infix_of_trans; [exact IH|].
    eapply infix_of_trans; [|by apply dumps_field].
    apply infix_of_app_r, infix_of_app_r, infix_of_refl.
  - eapply infix_of_trans; [exact IH|]. by apply dumps_item.
Qed.

Lemma gate_opens (data : json) (k : string) (v : json) :
  k ∈ gate_words -> occurs data k v -> gate (Dumps.dumps data) = true.
Proof.
  intros Hk Ho. unfold gate. apply existsb_exists. exists k.
  split; [by apply list_elem_of_In|].
  apply contains_infix. eapply infix_of_trans; [|by eapply occurs_dumps].
  assert (Hq : Dumps.quoted k = String Value.dquote (k +:+ String Value.dquote EmptyString)).
  { unfold gate_words in Hk. repeat (apply elem_of_cons in Hk as [->|Hk]; [reflexivity|]).
    by apply elem_of_nil in Hk. }
  rewrite Hq. exists (String Value.dquote EmptyString), (String Value.dquote EmptyString).
  reflexivity.
Qed.

Lemma reaches_occurs (handled : string -> json -> bool) (data : json) (k : string) (v : json) :
  reaches handled data k v -> occurs data k v.
Proof.
  induction 1; [by apply occurs_here|by eapply occurs_field|by eapply occurs_item].
Qed.

(** C2 as stated fails: a [product] entry with a name, two levels down
    inside a [results] list, passes the gate and yields no fact. *)
Lemma nested_product_not_collected :
  occurs Nested.data "product" (JObj [("name", JStr "Sky 2")])
  /\ gate (Dumps.dumps Nested.data) = true
  /\ handle_response (json_response Nested.data) no_facts = no_facts.
Proof.
  split; [|split; reflexivity].
  eapply occurs_field; [left|]. eapply occurs_item; [left|].
  apply occurs_here. right. left.
Qed.

(** C2 (amended). For a JSON response that passes the keyword gate (any
    value in which [offerRating], [upgradeFrom], [upgradableFrom],
    [results] or [product] occurs as a key does), each extractor collects
    a fact for every occurrence of its keys, at whatever depth, that it
    reaches without going below an entry it handles itself and whose value
    has the shape it reads: an [offerRating] dict with a truthy original
    or final price; an [upgradeFrom] / [upgradableFrom] dict, or each dict
    of such a list; each dict with a name of a [results] list; a [product]
    or [item] dict with a name. *)
Theorem facts_collected_where_reached
    (r : response) (headers : list (string * string)) (data : json) (f : facts) :
  all_headers r = Some headers ->
  Py.contains "application/json" (content_type_of headers) = true ->
  body_json r = Some data ->
  (forall k v, k ∈ gate_words -> occurs data k v -> gate (Dumps.dumps data) = true)
  /\ (gate (Dumps.dumps data) = true ->
      (forall o,
          reaches offer_handled data "offerRating" (JObj o) ->
          Value.truthy (Value.get "originalPrice" o)
          || Value.truthy (Value.get "finalPrice" o) = true ->
          (Value.get "originalPrice" o, Value.get "finalPrice" o)
            ∈ found_prices (handle_response r f))
      /\ (forall k o,
             is_upgrade_key k = true -> reaches upgrade_handled data k (JObj o) ->
             upgrade_fact o ∈ upgrade_from (handle_response r f))
      /\ (forall k l o,
             is_upgrade_key k = true -> reaches upgrade_handled data k (JArr l) ->
             JObj o ∈ l ->
             upgrade_fact o ∈ upgrade_from (handle_response r f))
      /\ (forall l o n,
             reaches name_handled data "results" (JArr l) ->
             JObj o ∈ l -> Value.lookup "name" o = Some n ->
             n ∈ asset_names (handle_response r f))
      /\ (forall k o n,
             is_product_key k = true -> reaches name_handled data k (JObj o) ->
             Value.lookup "name" o = Some n ->
             n ∈ asset_names (handle_response r f))).
Proof.
  intros Hh Hct Hb. split; [intros k v; apply gate_opens|].
  intros Hg. unfold handle_response, try_body. rewrite Hh, Hct, Hb, Hg. cbn [fst].
  repeat split.
  - intros o Hr Ht. by apply extract_offer_rating_reaches.
  - intros k o Hk Hr. eapply extract_upgrade_from_reaches; eauto.
    intros acc. apply upgrade_value_dict.
  - intros k l o Hk Hr Ho. eapply extract_upgrade_from_reaches; eauto.
    intros acc. by apply upgrade_value_list.
  - intros l o n Hr Ho Hn. eapply extract_asset_name_results; eauto.
  - intros k o n Hk Hr Hn. eapply extract_asset_name_product; eauto.
Qed.

Lemma facts_collected_where_reached_witness :
  (JStr "40.00", JStr "20.00")
    ∈ found_prices (handle_response (json_response Demo.sky_json) no_facts)
  /\ JStr "Sky 2" ∈ asset_names (handle_response (json_response Demo.sky_json) no_facts).
Proof.
  destruct (facts_collected_where_reached (json_response Demo.sky_json)
              [("content-type", "application/json; charset=utf-8")]
              Demo.sky_json no_facts eq_refl eq_refl eq_refl) as [_ H].
  destruct (H eq_refl) as (Hoffer & _ & _ & _ & Hproduct). split.
  - apply (Hoffer [("originalPrice", JStr "40.00"); ("finalPrice", JStr "20.00")]);
      [|reflexivity].
    eapply reaches_field; [left|reflexivity|].
    eapply reaches_field; [left|reflexivity|].
    apply reaches_here. right. left.
  - eapply (Hproduct "product").
    + reflexivity.
    + eapply reaches_field; [left|reflexivity|]. apply reaches_here. left.
    + reflexivity.
Defined.

(** * Further properties of the code *)

(** ** Batches (lines 101-104) *)

Lemma batched_aux_step {A} (fuel : nat) (x : A) (l : list A) (n : nat) :
  batched_aux (S fuel) (x :: l) (S n)
  = take (S n) (x :: l) :: batched_aux fuel (drop (S n) (x :: l)) (S n).
Proof. reflexivity. Qed.

Lemma batched_aux_spec {A} (n : nat) (fuel : nat) :
  forall l : list A,
    length l <= fuel ->
    concat (batched_aux fuel l (S n)) = l
    /\ Forall (fun b => 1 <= length b <= S n) (batched_aux fuel l (S n))
    /\ (forall bs b, batched_aux fuel l (S n) = bs ++ [b] ->
          Forall (fun b' => length b' = S n) bs).
Proof.
  induction fuel as [|fuel IH]; intros l Hl.
  { destruct l; [|cbn in Hl; lia]. cbn. split; [done|]. split; [constructor|].
    intros bs b H. by destruct bs. }
  destruct l as [|x l].
  { cbn. split; [done|]. split; [constructor|]. intros bs b H. by destruct bs. }
  rewrite batched_aux_step.
  destruct (IH (drop (S n) (x :: l))) as (Hc & Hlen & Hfull).
  { rewrite length_drop. cbn [length] in *. lia. }
  split; [|split].
  - cbn [concat]. rewrite Hc. apply take_drop.
  - constructor; [|exact Hlen].
    pose proof (length_take (x :: l) (S n)) as Ht. cbn [length] in *.
    lia.
  - intros bs b Hbs. destruct bs as [|b0 bs]; [constructor|].
    injection Hbs as Hb0 Hrest. constructor; [|by eapply Hfull].
    subst b0. pose proof (length_take l n) as Ht. cbn [length] in *.
    destruct (decide (S n <= S (length l))) as [|Hshort]; [lia|].
    rewrite drop_ge in Hrest by (cbn [length]; lia).
    destruct fuel; cbn in Hrest; by destruct bs.
Qed.

(** X1. Cutting a list into batches of [n >= 1] loses and reorders
    nothing: the batches, put end to end, are the list. No batch is
    empty, none is longer than [n], and all but the last hold exactly [n]
    elements. With [n = 0] there is no batch at all. *)
Theorem batched_partition {A} (l : list A) (n : nat) :
  1 <= n ->
  concat (batched l n) = l
  /\ Forall (fun b => 1 <= length b <= n) (batched l n)
  /\ (forall bs b, batched l n = bs ++ [b] -> Forall (fun b' => length b' = n) bs)
  /\ batched l 0 = [].
Proof.
  intros Hn. destruct n as [|n]; [lia|]. unfold batched.
  destruct (batched_aux_spec n (length l) l) as (H1 & H2 & H3); [lia|].
  repeat split; try done. by destruct l.
Qed.

Lemma batched_partition_witness :
  batched [1; 2; 3; 4; 5] 2 = [[1; 2]; [3; 4]; [5]]
  /\ concat (batched [1; 2; 3; 4; 5] 2) = [1; 2; 3; 4; 5]
  /\ Forall (fun b => 1 <= length b <= 2) (batched [1; 2; 3; 4; 5] 2)
  /\ (forall bs b, batched [1; 2; 3; 4; 5] 2 = bs ++ [b] ->
        Forall (fun b' => length b' = 2) bs)
  /\ batched [1; 2; 3; 4; 5] 0 = [].
Proof. split; [reflexivity|]. apply (batched_partition [1; 2; 3; 4; 5] 2). lia. Defined.

(** ** Links of a listing page and of a crawl (lines 107-140) *)

Lemma page_links_fold (hrefs : list (option string)) (acc : gset string) (x : string) :
  x ∈ fold_left (fun acc el =>
         match el with
         | Some href =>
             if negb (Py.is_empty href) && Py.contains "/packages/" href
             then acc ∪ {[ STORE +:+ href ]} else acc
         | None => acc
         end) hrefs acc
  <-> x ∈ acc
      \/ exists href, Some href ∈ hrefs /\ href <> EmptyString
                      /\ Py.contains "/packages/" href = true /\ x = STORE +:+ href.
Proof.
  revert acc. induction hrefs as [|el hrefs IH]; intros acc; cbn [fold_left].
  { split; [by left|]. intros [H|(href & H & _)]; [done|by apply elem_of_nil in H]. }
  rewrite IH. split.
  - intros [Hx|(href & Hin & Hrest)].
    + destruct el as [href|]; [|by left].
      destruct (negb (Py.is_empty href) && Py.contains "/packages/" href) eqn:Hc; [|by left].
      apply elem_of_union in Hx as [Hx|Hx%elem_of_singleton]; [by left|].
      right. exists href. apply andb_true_iff in Hc as [Hne Hc].
      split; [left|]. split; [by destruct href|]. done.
    + right. exists href. split; [by right|done].
  - intros [Hx|(href & Hin & Hne & Hc & ->)].
    + left. destruct el as [href|]; [|done].
      destruct (_ && _); [|done]. apply elem_of_union. by left.
    + apply elem_of_cons in Hin as [<-|Hin].
      * left. rewrite Hc. destruct href; [done|]. cbn. apply elem_of_union. right.
        by apply elem_of_singleton.
      * right. by exists href.
Qed.

(** X2. The links taken from a listing page are exactly the store origin
    followed by an [href] of the page that is not empty and contains
    [/packages/]; elements without [href] are skipped, and each link
    counts once however often the page repeats it. *)
Theorem page_links_spec (hrefs : list (option string)) (x : string) :
  (x ∈ page_links hrefs <->
     exists href, Some href ∈ hrefs /\ href <> EmptyString
                  /\ Py.contains "/packages/" href = true /\ x = STORE +:+ href)
  /\ size (page_links hrefs) <= length hrefs.
Proof.
  split.
  - unfold page_links. rewrite page_links_fold. split; [|by right].
    intros [H|H]; [by apply not_elem_of_empty in H|done].
  - unfold page_links.
    assert (H : forall acc : gset string,
               size (fold_left (fun acc el =>
                  match el with
                  | Some href =>
                      if negb (Py.is_empty href) && Py.contains "/packages/" href
                      then acc ∪ {[ STORE +:+ href ]} else acc
                  | None => acc
                  end) hrefs acc) <= size acc + length hrefs).
    { induction hrefs as [|el hrefs IH]; intros acc; cbn [fold_left length]; [lia|].
      etrans; [apply IH|]. destruct el as [href|]; [|lia].
      destruct (_ && _); [|lia].
      pose proof (size_union_alt acc {[STORE +:+ href]}) as Hs.
      pose proof (subseteq_size ({[STORE +:+ href]} ∖ acc) {[STORE +:+ href]}) as Hd.
      rewrite size_singleton in Hd.
      assert (Hsub : ({[STORE +:+ href]} ∖ acc : gset string) ⊆ {[STORE +:+ href]})
        by (intros y [Hy _]%elem_of_difference; exact Hy).
      specialize (Hd Hsub). lia. }
    specialize (H ∅). by rewrite size_empty in H.
Qed.

Lemma collect_loop_links (e : env) (base : string) (page_size : nat) (fuel : nat) :
  forall (first k : nat) (all : gset string) (w : world),
    (forall i, first <= i < first + k -> short_page e base page_size i = false) ->
    short_page e base page_size (first + k) = true -> k < fuel ->
    exists links,
      (collect_loop fuel e base page_size first all w).1 = Some links
      /\ forall x, x ∈ links <->
           x ∈ all \/ exists i, first <= i <= first + k
                                /\ x ∈ page_links (listing e (page_url base i)).
Proof.
  induction fuel as [|fuel IH]; intros first k all w Hfull Hshort Hk; [lia|].
  cbn [collect_loop]. fold (num_assets e base first).
  destruct k as [|k].
  - rewrite Nat.add_0_r in Hshort. unfold short_page in Hshort.
    destruct (num_assets e base first =? 0) eqn:Hz.
    + exists all. split; [done|]. intros x. split; [by left|].
      intros [Hx|(i & Hi & Hx)]; [done|]. assert (i = first) as -> by lia.
      apply Nat.eqb_eq in Hz. unfold num_assets in Hz.
      apply size_empty_iff in Hz. rewrite Hz in Hx. by apply not_elem_of_empty in Hx.
    + rewrite orb_false_l in Hshort. rewrite Hshort.
      exists (all ∪ page_links (listing e (page_url base first))). split; [done|].
      intros x. rewrite elem_of_union. split.
      * intros [Hx|Hx]; [by left|right]. exists first. split; [lia|done].
      * intros [Hx|(i & Hi & Hx)]; [by left|right]. by assert (i = first) as -> by lia.
  - assert (Hfirst : short_page e base page_size first = false) by (apply Hfull; lia).
    unfold short_page in Hfirst. apply orb_false_iff in Hfirst as [Hz Hlt].
    rewrite Hz, Hlt. replace (first + 1) with (S first) by lia.
    destruct (IH (S first) k (all ∪ page_links (listing e (page_url base first)))
                (goto (NavListing (page_url base first)) w)) as (links & Hl & Hin).
    { intros i Hi. apply Hfull. lia. }
    { by replace (S first + k) with (first + S k) by lia. }
    { lia. }
    exists links. split; [exact Hl|]. intros x. rewrite Hin, elem_of_union. split.
    + intros [[Hx|Hx]|(i & Hi & Hx)].
      * by left.
      * right. exists first. split; [lia|done].
      * right. exists i. split; [lia|done].
    + intros [Hx|(i & Hi & Hx)]; [by left; left|].
      destruct (decide (i = first)) as [->|Hne]; [by left; right|].
      right. exists i. split; [lia|done].
Qed.

(** X3. When the crawl returns (pages 1 to [k] full, page [k + 1]
    short), its result holds exactly the links of the pages it fetched,
    each once, in ascending order of the strings. *)
Theorem crawl_returns_sorted_links
    (fuel : nat) (e : env) (base : string) (page_size k : nat) (w : world) :
  (forall i, 1 <= i <= k -> short_page e base page_size i = false) ->
  short_page e base page_size (S k) = true ->
  k < fuel ->
  exists links,
    (collect_all_assets_by_url fuel e base page_size w).1 = Some links
    /\ StronglySorted String.le links
    /\ NoDup links
    /\ forall x, x ∈ links <->
         exists i, 1 <= i <= S k /\ x ∈ page_links (listing e (page_url base i)).
Proof.
  intros Hfull Hshort Hk. unfold collect_all_assets_by_url.
  destruct (collect_loop_links e base page_size fuel 1 k ∅ w) as (set & Hs & Hin);
    [intros i Hi; apply Hfull; lia|done|done|].
  destruct (collect_loop fuel e base page_size 1 ∅ w) as [[s|] w']; cbn [fst] in Hs;
    [|discriminate].
  injection Hs as ->. exists (sorted set). split; [done|]. unfold sorted.
  split; [apply StronglySorted_merge_sort; apply _|].
  split; [rewrite merge_sort_Permutation; apply NoDup_elements|].
  intros x. rewrite merge_sort_Permutation, elem_of_elements, Hin. split.
  - intros [Hx|H]; [by apply not_elem_of_empty in Hx|].
    destruct H as (i & Hi & Hx). exists i. split; [lia|done].
  - intros (i & Hi & Hx). right. exists i. split; [lia|done].
Qed.

Lemma crawl_returns_sorted_links_witness :
  exists links,
    (collect_all_assets_by_url 5 Long.store Demo.base PAGE_SIZE Demo.fresh).1 = Some links
    /\ StronglySorted String.le links
    /\ NoDup links
    /\ forall x, x ∈ links <->
         exists i, 1 <= i <= 2
                   /\ x ∈ page_links (listing Long.store (page_url Demo.base i)).
Proof.
  apply (crawl_returns_sorted_links 5 Long.store Demo.base PAGE_SIZE 1 Demo.fresh).
  - intros i Hi. assert (i = 1) as -> by lia. vm_compute. reflexivity.
  - vm_compute. reflexivity.
  - lia.
Defined.

(** ** What the extractors collect, and nothing else (lines 51-99) *)

Lemma fold_left_from {A B} (step : list A -> B -> list A) (x : A) (Q : B -> Prop)
    (l : list B) :
  Forall (fun y => forall acc, x ∈ step acc y -> x ∈ acc \/ Q y) l ->
  forall acc, x ∈ fold_left step l acc -> x ∈ acc \/ exists y, y ∈ l /\ Q y.
Proof.
  induction 1 as [|y l Hy _ IH]; intros acc Hx; [by left|].
  cbn [fold_left] in Hx. destruct (IH _ Hx) as [Hin|(y' & Hy' & HQ)].
  - destruct (Hy _ Hin) as [Ha|HQ]; [by left|]. right. exists y. split; [left|done].
  - right. exists y'. split; [by right|done].
Qed.

Lemma offer_fact_from (o : dict) (acc : list price_pair) (x : price_pair) :
  x ∈ offer_fact o acc ->
  x ∈ acc
  \/ (Value.truthy (Value.get "originalPrice" o)
      || Value.truthy (Value.get "finalPrice" o) = true
      /\ x = (Value.get "originalPrice" o, Value.get "finalPrice" o)).
Proof.
  unfold offer_fact. destruct (_ || _); [|by left].
  intros [H|H%list_elem_of_singleton]%elem_of_app; [by left|by right].
Qed.

Lemma extract_offer_rating_from (x : price_pair) (data : json) :
  forall acc, x ∈ extract_offer_rating data acc -> x ∈ acc \/ offer_reached data x.
Proof.
  induction data as [| | | |l IH|f IH] using json_ind; try (intros acc H; by left).
  - intros acc Hx. cbn [extract_offer_rating] in Hx.
    apply (fold_left_from _ x (fun y => offer_reached y x)) in Hx.
    + destruct Hx as [Hx|(y & Hy & o & Hr & Ht & ->)]; [by left|right].
      exists o. split; [by eapply reaches_item|done].
    + eapply Forall_impl; [exact IH|]. intros y Hy a. apply Hy.
  - intros acc Hx. cbn [extract_offer_rating] in Hx.
    apply (fold_left_from _ x (fun kv : string * json =>
             (exists o, kv = ("offerRating", JObj o)
                        /\ Value.truthy (Value.get "originalPrice" o)
                           || Value.truthy (Value.get "finalPrice" o) = true
                        /\ x = (Value.get "originalPrice" o, Value.get "finalPrice" o))
             \/ (offer_handled kv.1 kv.2 = false /\ offer_reached kv.2 x))) in Hx.
    + destruct Hx as [Hx|([k v] & Hin & [(o & [= -> ->] & Ht & ->)|[Hh (o & Hr & Ht & ->)]])].
      * by left.
      * right. exists o. split; [by apply reaches_here|done].
      * right. exists o. split; [by eapply reaches_field|done].
    + eapply Forall_impl; [exact IH|]. intros [k v] Hv a Ha. cbn [fst snd] in *.
      unfold offer_handled.
      destruct v as [| | | | |o];
        try (destruct (Hv _ Ha) as [?|?]; [by left|right; right; split;
               [by rewrite andb_false_r|done]]).
      destruct (String.eqb k "offerRating") eqn:Hk.
      * apply String.eqb_eq in Hk as ->.
        destruct (offer_fact_from _ _ _ Ha) as [?|[Ht ->]]; [by left|].
        right. left. by exists o.
      * destruct (Hv _ Ha) as [?|?]; [by left|]. right. right. done.
Qed.

(** X4. [extract_offer_rating] collects exactly the price pairs of the
    [offerRating] dicts it reaches that have a truthy original or final
    price; in particular no collected pair has both prices missing, empty
    or zero. *)
Theorem offer_rating_exact (data : json) (x : price_pair) :
  (x ∈ extract_offer_rating data [] <-> offer_reached data x)
  /\ (x ∈ extract_offer_rating data [] ->
      Value.truthy x.1 || Value.truthy x.2 = true).
Proof.
  assert (Hfrom : x ∈ extract_offer_rating data [] -> offer_reached data x).
  { intros Hx. destruct (extract_offer_rating_from x data [] Hx) as [H|H]; [|done].
    by apply elem_of_nil in H. }
  split; [split; [exact Hfrom|]|].
  - intros (o & Hr & Ht & ->). by apply extract_offer_rating_reaches.
  - intros Hx. by destruct (Hfrom Hx) as (o & _ & Ht & ->).
Qed.

Lemma upgrade_value_from (v : json) (acc : list upgrade) (u : upgrade) :
  u ∈ upgrade_value v acc ->
  u ∈ acc
  \/ (exists o, v = JObj o /\ u = upgrade_fact o)
  \/ (exists l o, v = JArr l /\ JObj o ∈ l /\ u = upgrade_fact o).
Proof.
  destruct v as [| | | |l|o]; cbn [upgrade_value]; try (by left).
  - intros Hu.
    apply (fold_left_from _ u (fun y => exists o, y = JObj o /\ u = upgrade_fact o)) in Hu.
    + destruct Hu as [?|(y & Hy & o & -> & ->)]; [by left|].
      right. right. by exists l, o.
    + apply Forall_forall. intros y _ a Ha. destruct y; try (by left).
      apply elem_of_app in Ha as [?|He%list_elem_of_singleton]; [by left|].
      subst u. right. by eexists.
  - intros [?|He%list_elem_of_singleton]%elem_of_app; [by left|].
    subst u. right. left. by exists o.
Qed.

Lemma extract_upgrade_from_from (u : upgrade) (data : json) :
  forall acc, u ∈ extract_upgrade_from data acc -> u ∈ acc \/ upgrade_reached data u.
Proof.
  induction data as [| | | |l IH|f IH] using json_ind; try (intros acc H; by left).
  - intros acc Hu. cbn [extract_upgrade_from] in Hu.
    apply (fold_left_from _ u (fun y => upgrade_reached y u)) in Hu.
    + destruct Hu as [?|(y & Hy & k & v & Hk & Hr & Hv)]; [by left|right].
      exists k, v. split; [done|]. split; [by eapply reaches_item|done].
    + eapply Forall_impl; [exact IH|]. intros y Hy a. apply Hy.
  - intros acc Hu. cbn [extract_upgrade_from] in Hu.
    apply (fold_left_from _ u (fun kv : string * json =>
             (is_upgrade_key kv.1 = true
              /\ ((exists o, kv.2 = JObj o /\ u = upgrade_fact o)
                  \/ (exists l o, kv.2 = JArr l /\ JObj o ∈ l /\ u = upgrade_fact o)))
             \/ (is_upgrade_key kv.1 = false /\ upgrade_reached kv.2 u))) in Hu.
    + destruct Hu as [?|([k v] & Hin & [[Hk Hv]|[Hk (k' & v' & Hk' & Hr & Hv)]])];
        cbn [fst snd] in *.
      * by left.
      * right. exists k, v. split; [done|]. split; [by apply reaches_here|done].
      * right. exists k', v'. split; [done|]. split; [by eapply reaches_field|done].
    + eapply Forall_impl; [exact IH|]. intros [k v] Hv a Ha. cbn [fst snd] in *.
      destruct (is_upgrade_key k) eqn:Hk.
      * destruct (upgrade_value_from _ _ _ Ha) as [?|H]; [by left|]. right. by left.
      * destruct (Hv _ Ha) as [?|?]; [by left|]. right. by right.
Qed.

Lemma upgrade_fact_shape (o : dict) :
  Value.truthy (upgrade_fact o).1 = true
  /\ ((upgrade_fact o).2 = EmptyString
      \/ exists path, (upgrade_fact o).2 = STORE +:+ path).
Proof.
  unfold upgrade_fact, Value.or_else. cbn [fst snd]. split.
  - destruct (Value.truthy (Value.get "name" o)) eqn:Hn; [done|].
    by destruct (Value.truthy (Value.get "title" o)) eqn:Ht.
  - destruct (Value.truthy (Value.get "url" o)); [right; by eexists|by left].
Qed.

(** X5. [extract_upgrade_from] collects exactly the upgrades of the
    [upgradeFrom] / [upgradableFrom] entries it reaches: that of the dict,
    or of each dict of the list. Every collected upgrade has a name that
    is not empty ([Unknown] when the dict gives none), and a URL that is
    empty or starts with the store origin. *)
Theorem upgrade_from_exact (data : json) (u : upgrade) :
  (u ∈ extract_upgrade_from data [] <-> upgrade_reached data u)
  /\ (u ∈ extract_upgrade_from data [] ->
      Value.truthy u.1 = true
      /\ (u.2 = EmptyString \/ exists path, u.2 = STORE +:+ path)).
Proof.
  assert (Hfrom : u ∈ extract_upgrade_from data [] -> upgrade_reached data u).
  { intros Hu. destruct (extract_upgrade_from_from u data [] Hu) as [H|H]; [|done].
    by apply elem_of_nil in H. }
  split; [split; [exact Hfrom|]|].
  - intros (k & v & Hk & Hr & [(o & -> & ->)|(l & o & -> & Ho & ->)]).
    + eapply extract_upgrade_from_reaches; eauto. intros acc. apply upgrade_value_dict.
    + eapply extract_upgrade_from_reaches; eauto. intros acc. by apply upgrade_value_list.
  - intros Hu.
    destruct (Hfrom Hu) as (k & v & _ & _ & [(o & _ & ->)|(l & o & _ & _ & ->)]);
      apply upgrade_fact_shape.
Qed.

Lemma name_fact_from (o : dict) (acc : list json) (n : json) :
  n ∈ name_fact o acc -> n ∈ acc \/ Value.lookup "name" o = Some n.
Proof.
  unfold name_fact. destruct (Value.lookup "name" o) as [m|]; [|by left].
  intros [?|He%list_elem_of_singleton]%elem_of_app; [by left|right; by subst].
Qed.

Lemma results_names_from (l : list json) (acc : list json) (n : json) :
  n ∈ results_names l acc ->
  n ∈ acc \/ exists o, JObj o ∈ l /\ Value.lookup "name" o = Some n.
Proof.
  unfold results_names. intros Hn.
  apply (fold_left_from _ n (fun y => exists o, y = JObj o
                                                /\ Value.lookup "name" o = Some n)) in Hn.
  - destruct Hn as [?|(y & Hy & o & -> & Ho)]; [by left|]. right. by exists o.
  - apply Forall_forall. intros y _ a Ha. destruct y; try (by left).
    destruct (name_fact_from _ _ _ Ha) as [?|?]; [by left|]. right. by eexists.
Qed.

Lemma extract_asset_name_from (n : json) (data : json) :
  forall acc, n ∈ extract_asset_name data acc ->
    n ∈ acc \/ result_name_reached data n
    \/ exists k, is_product_key k = true /\ product_name_reached data k n.
Proof.
  induction data as [| | | |l IH|f IH] using json_ind; try (intros acc H; by left).
  - intros acc Hn. cbn [extract_asset_name] in Hn.
    apply (fold_left_from _ n (fun y =>
             result_name_reached y n
             \/ exists k, is_product_key k = true /\ product_name_reached y k n)) in Hn.
    + destruct Hn as [?|(y & Hy & [(l' & o & Hr & Ho & Hn')|(k & Hk & o & Hr & Hn')])].
      * by left.
      * right. left. exists l', o. split; [by eapply reaches_item|done].
      * right. right. exists k. split; [done|]. exists o.
        split; [by eapply reaches_item|done].
    + eapply Forall_impl; [exact IH|]. intros y Hy a. apply Hy.
  - intros acc Hn. cbn [extract_asset_name] in Hn.
    apply (fold_left_from _ n (fun kv : string * json =>
             (exists l o, kv = ("results", JArr l) /\ JObj o ∈ l
                          /\ Value.lookup "name" o = Some n)
             \/ (exists o, is_product_key kv.1 = true /\ kv.2 = JObj o
                           /\ Value.lookup "name" o = Some n)
             \/ (name_handled kv.1 kv.2 = false
                 /\ (result_name_reached kv.2 n
                     \/ exists k, is_product_key k = true
                                  /\ product_name_reached kv.2 k n)))) in Hn.
    + destruct Hn as [?|([k v] & Hin & Hcase)]; [by left|]. cbn [fst snd] in Hcase.
      destruct Hcase as [(l & o & [= -> ->] & Ho & Hn')
                        |[(o & Hk & -> & Hn')
                         |[Hh [(l & o & Hr & Ho & Hn')|(k' & Hk' & o & Hr & Hn')]]]].
      * right. left. exists l, o. split; [by apply reaches_here|done].
      * right. right. exists k. split; [done|]. exists o.
        split; [by apply reaches_here|done].
      * right. left. exists l, o. split; [by eapply reaches_field|done].
      * right. right. exists k'. split; [done|]. exists o.
        split; [by eapply reaches_field|done].
    + eapply Forall_impl; [exact IH|]. intros [k v] Hv a Ha. cbn [fst snd] in *.
      unfold name_handled.
      destruct v as [| | | |l|o];
        try (destruct (Hv _ Ha) as [?|?]; [by left|right; right; right; split;
               [by rewrite !andb_false_r|done]]).
      * destruct (String.eqb k "results") eqn:Hk.
        -- apply String.eqb_eq in Hk as ->.
           destruct (results_names_from _ _ _ Ha) as [?|(o & Ho & Hn')]; [by left|].
           right. left. by exists l, o.
        -- destruct (Hv _ Ha) as [?|?]; [by left|]. right. right. right.
           split; [by rewrite andb_false_r|done].
      * destruct (is_product_key k) eqn:Hk.
        -- destruct (name_fact_from _ _ _ Ha) as [?|Hn']; [by left|].
           right. right. left. by exists o.
        -- destruct (Hv _ Ha) as [?|?]; [by left|]. right. right. right.
           split; [by rewrite andb_false_r|done].
Qed.

(** X6. [extract_asset_name] collects exactly the names of the dicts of
    the [results] lists it reaches and of the [product] / [item] dicts it
    reaches, where they have a [name] key. *)
Theorem asset_name_exact (data : json) (n : json) :
  n ∈ extract_asset_name data [] <->
  result_name_reached data n
  \/ exists k, is_product_key k = true /\ product_name_reached data k n.
Proof.
  split.
  - intros Hn. destruct (extract_asset_name_from n data [] Hn) as [H|H]; [|done].
    by apply elem_of_nil in H.
  - intros [(l & o & Hr & Ho & Hn)|(k & Hk & o & Hr & Hn)].
    + by eapply extract_asset_name_results.
    + by eapply extract_asset_name_product.
Qed.

(** ** Facts add up (lines 51-99, 147-158) *)

Lemma fold_left_app_acc {A B} (step : list A -> B -> list A) (l : list B) :
  Forall (fun y => forall acc, step acc y = acc ++ step [] y) l ->
  forall acc, fold_left step l acc = acc ++ fold_left step l [].
Proof.
  induction 1 as [|y l Hy _ IH]; intros acc; cbn [fold_left]; [by rewrite app_nil_r|].
  rewrite IH, (IH (step [] y)), Hy. by rewrite app_assoc.
Qed.

Lemma offer_fact_app (o : dict) (acc : list price_pair) :
  offer_fact o acc = acc ++ offer_fact o [].
Proof. unfold offer_fact. destruct (_ || _); [done|by rewrite app_nil_r]. Qed.

Lemma extract_offer_rating_app (data : json) :
  forall acc, extract_offer_rating data acc = acc ++ extract_offer_rating data [].
Proof.
  induction data as [| | | |l IH|f IH] using json_ind;
    try (intros acc; cbn; by rewrite app_nil_r).
  - cbn [extract_offer_rating]. apply fold_left_app_acc.
    eapply Forall_impl; [exact IH|]. intros y Hy acc. apply Hy.
  - cbn [extract_offer_rating]. apply fold_left_app_acc.
    eapply Forall_impl; [exact IH|]. intros [k v] Hv acc. cbn [snd] in Hv.
    destruct v; try apply Hv. destruct (String.eqb k "offerRating"); [|apply Hv].
    apply offer_fact_app.
Qed.

Lemma upgrade_value_app (v : json) (acc : list upgrade) :
  upgrade_value v acc = acc ++ upgrade_value v [].
Proof.
  destruct v as [| | | |l|o]; cbn [upgrade_value]; try (by rewrite app_nil_r); [|done].
  revert acc. apply fold_left_app_acc, Forall_forall. intros y _ acc.
  destruct y; by rewrite ?app_nil_r.
Qed.

Lemma extract_upgrade_from_app (data : json) :
  forall acc, extract_upgrade_from data acc = acc ++ extract_upgrade_from data [].
Proof.
  induction data as [| | | |l IH|f IH] using json_ind;
    try (intros acc; cbn; by rewrite app_nil_r).
  - cbn [extract_upgrade_from]. apply fold_left_app_acc.
    eapply Forall_impl; [exact IH|]. intros y Hy acc. apply Hy.
  - cbn [extract_upgrade_from]. apply fold_left_app_acc.
    eapply Forall_impl; [exact IH|]. intros [k v] Hv acc. cbn [snd] in Hv.
    destruct (is_upgrade_key k); [apply upgrade_value_app|apply Hv].
Qed.

Lemma name_fact_app (o : dict) (acc : list json) :
  name_fact o acc = acc ++ name_fact o [].
Proof. unfold name_fact. destruct (Value.lookup _ _); [done|by rewrite app_nil_r]. Qed.

Lemma results_names_app (l : list json) (acc : list json) :
  results_names l acc = acc ++ results_names l [].
Proof.
  unfold results_names. revert acc. apply fold_left_app_acc, Forall_forall.
  intros y _ acc. destruct y; try (by rewrite app_nil_r). apply name_fact_app.
Qed.

Lemma extract_asset_name_app (data : json) :
  forall acc, extract_asset_name data acc = acc ++ extract_asset_name data [].
Proof.
  induction data as [| | | |l IH|f IH] using json_ind;
    try (intros acc; cbn; by rewrite app_nil_r).
  - cbn [extract_asset_name]. apply fold_left_app_acc.
    eapply Forall_impl; [exact IH|]. intros y Hy acc. apply Hy.
  - cbn [extract_asset_name]. apply fold_left_app_acc.
    eapply Forall_impl; [exact IH|]. intros [k v] Hv acc. cbn [snd] in Hv.
    destruct v; try apply Hv.
    + destruct (String.eqb k "results"); [apply results_names_app|apply Hv].
    + destruct (is_product_key k); [apply name_fact_app|apply Hv].
Qed.

Lemma facts_app_empty_r (f : facts) : facts_app f no_facts = f.
Proof. destruct f. unfold facts_app. cbn. by rewrite !app_nil_r. Qed.

Lemma facts_app_assoc (f g h : facts) :
  facts_app (facts_app f g) h = facts_app f (facts_app g h).
Proof. unfold facts_app. cbn. by rewrite !app_assoc. Qed.

Lemma handle_response_app (r : response) (f : facts) :
  handle_response r f = facts_app f (handle_response r no_facts).
Proof.
  unfold handle_response, try_body. destruct (all_headers r); [|by rewrite facts_app_empty_r].
  destruct (Py.contains _ _); [|by rewrite facts_app_empty_r].
  destruct (body_json r) as [data|]; [|by rewrite facts_app_empty_r].
  destruct (gate _); [|by rewrite facts_app_empty_r].
  cbn [fst]. unfold facts_app. cbn.
  by rewrite (extract_offer_rating_app data (found_prices f)),
    (extract_upgrade_from_app data (upgrade_from f)),
    (extract_asset_name_app data (asset_names f)).
Qed.

(** X7. The facts of an asset are the facts of its responses put end to
    end in the order of arrival: a response only adds after what is there,
    and what it adds does not depend on the responses before it. *)
Theorem gather_app (before after : list response) :
  gather (before ++ after) = facts_app (gather before) (gather after).
Proof.
  unfold gather. rewrite fold_left_app.
  generalize (fold_left (fun f r => handle_response r f) before no_facts).
  induction after as [|r after IH]; intros f; cbn [fold_left].
  - by rewrite facts_app_empty_r.
  - rewrite IH, (IH (handle_response r no_facts)), handle_response_app.
    by rewrite facts_app_assoc.
Qed.

(** ** What the keyword gate keeps out (line 153) *)

Lemma nil_no_elem {A} (l : list A) : (forall x, x ∈ l -> False) -> l = [].
Proof. destruct l as [|x l]; [done|]. intros H. destruct (H x). left. Qed.

(** X8. A response the keyword gate turns away holds no price pair and
    no upgrade that the extractors would have collected; the only facts
    lost to the gate are names of [item] dicts. *)
Theorem gate_loses_only_item_names (data : json) :
  gate (Dumps.dumps data) = false ->
  extract_offer_rating data [] = []
  /\ extract_upgrade_from data [] = []
  /\ forall n, n ∈ extract_asset_name data [] -> product_name_reached data "item" n.
Proof.
  intros Hg.
  assert (Hno : forall k v, k ∈ gate_words -> occurs data k v -> False).
  { intros k v Hk Ho. pose proof (gate_opens data k v Hk Ho) as H. congruence. }
  split; [|split].
  - apply nil_no_elem. intros x Hx.
    apply extract_offer_rating_from in Hx as [Hx|(o & Hr & _)];
      [by apply elem_of_nil in Hx|].
    apply reaches_occurs in Hr. eapply Hno; [|exact Hr]. left.
  - apply nil_no_elem. intros u Hu.
    apply extract_upgrade_from_from in Hu as [Hu|(k & v & Hk & Hr & _)];
      [by apply elem_of_nil in Hu|].
    apply reaches_occurs in Hr. eapply Hno; [|exact Hr].
    unfold is_upgrade_key in Hk.
    apply orb_true_iff in Hk as [->%String.eqb_eq| ->%String.eqb_eq].
    + right. left.
    + right. right. left.
  - intros n Hn.
    apply extract_asset_name_from in Hn as [Hn|[(l & o & Hr & _)|(k & Hk & Hreach)]];
      [by apply elem_of_nil in Hn| |].
    + apply reaches_occurs in Hr. exfalso. eapply Hno; [|exact Hr].
      do 3 right. left.
    + unfold is_product_key in Hk.
      apply orb_true_iff in Hk as [->%String.eqb_eq| ->%String.eqb_eq]; [|exact Hreach].
      destruct Hreach as (o & Hr & _). apply reaches_occurs in Hr.
      exfalso. eapply Hno; [|exact Hr]. do 4 right. left.
Qed.

Lemma gate_loses_only_item_names_witness :
  extract_asset_name ItemOnly.data [] = [JStr "Sky 2"]
  /\ handle_response (json_response ItemOnly.data) no_facts = no_facts
  /\ extract_offer_rating ItemOnly.data [] = []
  /\ extract_upgrade_from ItemOnly.data [] = []
  /\ forall n, n ∈ extract_asset_name ItemOnly.data [] ->
               product_name_reached ItemOnly.data "item" n.
Proof.
  split; [reflexivity|]. split; [reflexivity|].
  apply (gate_loses_only_item_names ItemOnly.data). reflexivity.
Defined.

(** ** Publishers, once loaded (lines 171-179) *)

Lemma rstrip_idem (s : string) : Py.rstrip (Py.rstrip s) = Py.rstrip s.
Proof.
  induction s as [|c r IH]; [done|]. cbn [Py.rstrip].
  destruct (Py.is_space c && Py.is_empty (Py.rstrip r)) eqn:Hc; [done|].
  cbn [Py.rstrip]. by rewrite IH, Hc.
Qed.

Lemma lstrip_idem (s : string) : Py.lstrip (Py.lstrip s) = Py.lstrip s.
Proof.
  induction s as [|c r IH]; [done|]. cbn [Py.lstrip].
  destruct (Py.is_space c) eqn:Hc; [done|]. cbn [Py.lstrip]. by rewrite Hc.
Qed.

Lemma lstrip_rstrip (s : string) : Py.lstrip (Py.rstrip s) = Py.rstrip (Py.lstrip s).
Proof.
  induction s as [|c r IH]; [done|]. cbn [Py.lstrip Py.rstrip].
  destruct (Py.is_space c) eqn:Hc; cbn [andb].
  - rewrite <- IH. destruct (Py.rstrip r) eqn:Hr; [done|].
    cbn [Py.is_empty Py.lstrip]. by rewrite Hc.
  - cbn [Py.lstrip Py.rstrip]. by rewrite Hc.
Qed.

Lemma strip_idem (s : string) : Py.strip (Py.strip s) = Py.strip s.
Proof.
  unfold Py.strip. by rewrite <- (lstrip_rstrip (Py.rstrip s)), rstrip_idem, lstrip_idem.
Qed.

(** X9. Whatever [publishers.txt] holds, the run has at least one
    publisher to work on, and every publisher's name and URL come without
    surrounding white space and its name without a comma. *)
Theorem publishers_well_formed (file : option string) :
  load_publishers file <> []
  /\ forall p, p ∈ load_publishers file ->
       Py.strip p.1 = p.1 /\ Py.strip p.2 = p.2 /\ Py.has_char ","%char p.1 = false.
Proof.
  set (ps := omap publisher_of_line
               (match file with None => [] | Some c => Py.readlines c end)).
  assert (Hload : load_publishers file =
                  match ps with [] => [DEFAULT_PUBLISHER] | _ => ps end).
  { unfold load_publishers, ps. destruct file as [content|]; [|reflexivity].
    rewrite publishers_fold. reflexivity. }
  assert (Hps : forall p, p ∈ ps ->
            Py.strip p.1 = p.1 /\ Py.strip p.2 = p.2 /\ Py.has_char ","%char p.1 = false).
  { intros p (line & Hline & Hp)%list_elem_of_omap. unfold publisher_of_line in Hp.
    destruct (qualifies line); [|discriminate].
    destruct (Py.split_first "," (Py.strip line)) as [[name url]|] eqn:Hs; [|discriminate].
    injection Hp as <-. apply split_first_spec in Hs as [_ Hname]. cbn [fst snd].
    rewrite !strip_idem, strip_has_char by reflexivity. done. }
  rewrite Hload. destruct ps as [|p0 ps0]; split; try done.
  intros p ->%list_elem_of_singleton. by repeat split.
Qed.

(** ** The progress file as a set (lines 37-45) *)

Lemma load_processed_text (w : world) :
  load_processed w = list_to_set (Py.strip <$> Py.readlines (text_of (progress w))).
Proof. unfold load_processed. by destruct (progress w). Qed.

Lemma ends_with_lf_app (s t : string) :
  t <> EmptyString -> ends_with_lf (s +:+ t) = ends_with_lf t.
Proof.
  intros Ht. induction s as [|c s IH]; [done|].
  rewrite app_cons. cbn [ends_with_lf]. rewrite IH.
  destruct (s +:+ t) eqn:Hst; [|done]. destruct s; [|discriminate].
  rewrite app_empty_l in Hst. contradiction.
Qed.

Lemma terminated_line (s l : string) : terminated (s +:+ (l +:+ Py.newline)) = true.
Proof.
  unfold terminated. rewrite ends_with_lf_app.
  - rewrite ends_with_lf_app by done. apply orb_true_r.
  - by destruct l.
Qed.

Lemma load_processed_mark (w : world) (url : string) :
  terminated (text_of (progress w)) = true -> clean url ->
  load_processed (mark_processed url w) = load_processed w ∪ {[ url ]}.
Proof.
  intros Hterm (Hlf & Hcr & Hstrip). rewrite !load_processed_text.
  change (text_of (progress (mark_processed url w)))
    with (text_of (progress w) +:+ (url +:+ Py.newline)).
  rewrite readlines_app by exact Hterm.
  rewrite readlines_one_line by assumption.
  rewrite fmap_app, list_to_set_app_L. cbn [fmap list_fmap].
  rewrite strip_line, Hstrip. cbn [list_to_set]. by rewrite (right_id_L ∅ (∪)).
Qed.

(** X10. Marking a clean URL (no line break in it, no white space around
    it) in a progress file that is absent, empty or ends in a line feed
    adds exactly that URL to the set [load_processed] reads: every URL
    read before is still read, and the file again ends in a line feed. *)
Theorem mark_adds_one (w : world) (url : string) :
  terminated (text_of (progress w)) = true -> clean url ->
  load_processed (mark_processed url w) = load_processed w ∪ {[ url ]}
  /\ terminated (text_of (progress (mark_processed url w))) = true.
Proof.
  intros Hterm Hclean. split; [by apply load_processed_mark|apply terminated_line].
Qed.

Lemma mark_adds_one_witness :
  load_processed (mark_processed Demo.sky (mark_processed Demo.sea Demo.fresh))
  = load_processed (mark_processed Demo.sea Demo.fresh) ∪ {[ Demo.sky ]}
  /\ terminated (text_of (progress
       (mark_processed Demo.sky (mark_processed Demo.sea Demo.fresh)))) = true.
Proof.
  apply (mark_adds_one (mark_processed Demo.sea Demo.fresh) Demo.sky).
  - reflexivity.
  - repeat split; reflexivity.
Defined.

(** ** Resuming (lines 166-272) *)

Lemma main_split (fuel : nat) (e : env) (w : world) :
  main fuel e w = main_loop fuel e (load_processed w) (with_header w).
Proof.
  unfold main, main_loop, with_header, bind at 1, reads.
  destruct (out_csv w) eqn:Hcsv; unfold bind at 1; cbn [ret lift]; unfold bind at 1;
    reflexivity.
Qed.

Lemma keeps_processed_refl (w : world) : keeps_processed w w.
Proof. by split. Qed.

Lemma keeps_processed_trans (w1 w2 w3 : world) :
  keeps_processed w1 w2 -> keeps_processed w2 w3 -> keeps_processed w1 w3.
Proof. intros [H1 H2] [H3 H4]. split; [auto|]. by etrans. Qed.

Lemma for_each_completed {A} (Q : A -> world -> Prop) (l : list A) (body : A -> M unit) :
  (forall x w w', Q x w -> keeps_processed w w' -> Q x w') ->
  (forall x, x ∈ l -> forall w w',
      body x w = (Ok tt, w') -> resumable w ->
      resumable w' /\ keeps_processed w w' /\ Q x w') ->
  forall w w',
    for_each l body w = (Ok tt, w') -> resumable w ->
    resumable w' /\ keeps_processed w w' /\ forall x, x ∈ l -> Q x w'.
Proof.
  intros Hstable. induction l as [|x l IH]; intros Hbody w w' Hrun Hw.
  { injection Hrun as <-. split; [done|]. split; [apply keeps_processed_refl|].
    intros x Hx. by apply elem_of_nil in Hx. }
  cbn [for_each] in Hrun. unfold bind in Hrun.
  destruct (body x w) as [[[]|err] w1] eqn:Hx; [|discriminate].
  destruct (Hbody x ltac:(left) w w1 Hx Hw) as (Hw1 & Hk1 & HQ).
  destruct (IH (fun y Hy => Hbody y ltac:(by right)) w1 w' Hrun Hw1) as (Hw' & Hk & HQs).
  split; [done|]. split; [by eapply keeps_processed_trans|].
  intros y [->|Hy]%elem_of_cons; [by eapply Hstable|by apply HQs].
Qed.

Lemma write_entries_csv_some (es : list entry) (w : world) :
  is_Some (out_csv w) -> is_Some (out_csv (write_entries es w)).
Proof.
  unfold write_entries. revert w. induction es as [|en es IH]; intros w Hw; [done|].
  cbn [fold_left]. apply IH. by eexists.
Qed.

Lemma for_each_goto (ls : list string) (w : world) :
  for_each ls (fun link => lift (goto (NavAsset link))) w
  = (Ok tt, visit_all (map NavAsset ls) w).
Proof.
  rewrite (for_each_lift (fun link w => goto (NavAsset link) w)) by done. f_equal.
  revert w. induction ls as [|l ls IH]; intros w; cbn [fold_left map].
  - by rewrite visit_all_nil.
  - by rewrite IH, goto_visit_all, visit_all_app.
Qed.

Lemma filter_all_processed (processed : gset string) (batch : list string) :
  filter (fun l => l ∉ processed) batch = [] <-> forall l, l ∈ batch -> l ∈ processed.
Proof.
  induction batch as [|x batch IH].
  { split; [|done]. intros _ l Hl. by apply elem_of_nil in Hl. }
  destruct (decide (x ∈ processed)) as [Hx|Hx].
  - rewrite filter_cons_False by (intros H; by apply H). rewrite IH. split.
    + intros H l [->|Hl]%elem_of_cons; auto.
    + intros H l Hl. apply H. by right.
  - rewrite filter_cons_True by done. split; [done|].
    intros H. destruct Hx. apply H. left.
Qed.

Lemma elem_of_concat {A} (x : A) (ls : list (list A)) :
  x ∈ concat ls <-> exists l, x ∈ l /\ l ∈ ls.
Proof.
  induction ls as [|l0 ls IH]; cbn [concat].
  - split; [intros H; by apply elem_of_nil in H|]. intros (l & _ & H).
    by apply elem_of_nil in H.
  - rewrite elem_of_app, IH. split.
    + intros [H|(l & Hx & Hl)]; [exists l0; split; [done|left]|].
      exists l. split; [done|by right].
    + intros (l & Hx & [->|Hl]%elem_of_cons); [by left|]. right. by exists l.
Qed.

Section completed.
Variables (e : env) (processed : gset string).
Hypothesis Hclean : clean_listing e.

Lemma emit_completed (pn pu l : string) (f : facts) (w w' : world) :
  emit_asset e pn pu l f w = (Ok tt, w') -> resumable w -> clean l ->
  resumable w' /\ keeps_processed w w' /\ l ∈ load_processed w'.
Proof.
  rewrite emit_asset_spec. destruct (unique_prices e (found_prices f)) as [ups|];
    [|discriminate].
  intros [= <-] Hw Hl.
  set (es := entries pn pu l (asset_name_of (asset_names f) l) ups (upgrade_from f)).
  destruct (write_entries_files es w) as (_ & _ & Hp & _).
  assert (Hload : load_processed (mark_processed l (write_entries es w))
                  = load_processed w ∪ {[ l ]}).
  { rewrite load_processed_mark; [|unfold resumable in Hw; by rewrite Hp|done].
    by rewrite !load_processed_text, Hp. }
  split; [apply terminated_line|]. split; [split|].
  - intros Hc. cbn [mark_processed out_csv]. by apply write_entries_csv_some.
  - rewrite Hload. apply union_subseteq_l.
  - rewrite Hload. apply elem_of_union. right. by apply elem_of_singleton.
Qed.

Lemma batch_completed (pn pu : string) (batch : list string) (w w' : world) :
  process_batch e processed pn pu batch w = (Ok tt, w') -> resumable w ->
  Forall clean batch ->
  resumable w' /\ keeps_processed w w'
  /\ forall l, l ∈ batch -> l ∈ processed \/ l ∈ load_processed w'.
Proof.
  unfold process_batch. intros Hrun Hw Hb.
  pose proof (filter_all_processed processed batch) as Hnil.
  pose proof (fun l => list_elem_of_filter (fun l => l ∉ processed) batch l) as Hf.
  destruct (filter (fun l => l ∉ processed) batch) as [|l0 ls] eqn:Hfilter.
  { injection Hrun as <-. split; [done|]. split; [apply keeps_processed_refl|].
    intros l Hl. left. by apply Hnil. }
  set (ok := l0 :: ls) in *. clearbody ok. unfold bind in Hrun.
  rewrite for_each_goto in Hrun.
  apply (for_each_completed (fun r w => r.1 ∈ load_processed w)) in Hrun.
  - destruct Hrun as (Hw' & Hk & HQ). split; [done|]. split; [exact Hk|].
    intros l Hl. destruct (decide (l ∈ processed)) as [|Hn]; [by left|right].
    apply (HQ (l, process_asset e l)). apply list_elem_of_fmap.
    exists l. split; [done|]. by apply Hf.
  - intros r w1 w2 Hr [_ Hsub]. by apply Hsub.
  - intros r (l & -> & Hl)%list_elem_of_fmap w1 w2 Hemit Hw1. cbn [fst snd] in *.
    eapply emit_completed; [exact Hemit|exact Hw1|].
    rewrite Forall_forall in Hb. apply Hb. by apply Hf.
  - exact Hw.
Qed.

Lemma collect_loop_any_world (fuel : nat) (base : string) (page_size : nat) :
  forall (first : nat) (all : gset string) (w : world),
    exists n, forall w',
      collect_loop fuel e base page_size first all w'
      = ((collect_loop fuel e base page_size first all w).1,
         visit_all (fetches base first n) w').
Proof.
  induction fuel as [|fuel IH]; intros first all w.
  { exists 0. intros w'. cbn. by rewrite visit_all_nil. }
  cbn [collect_loop].
  destruct (_ =? 0); [exists 1; by intros w'|].
  destruct (_ <? page_size); [exists 1; by intros w'|].
  destruct (IH (first + 1) (all ∪ page_links (listing e (page_url base first)))
              (goto (NavListing (page_url base first)) w)) as [n Hn].
  exists (S n). intros w'.
  rewrite (Hn (goto (NavListing (page_url base first)) w')).
  rewrite (goto_visit_all _ w'), visit_all_app, fetches_S.
  by replace (first + 1) with (S first) by lia.
Qed.

Lemma collect_any_world (fuel : nat) (base : string) (page_size : nat) :
  exists n, forall w,
    collect_all_assets_by_url fuel e base page_size w
    = (crawl_result fuel e base page_size, visit_all (fetches base 1 n) w).
Proof.
  destruct (collect_loop_any_world fuel base page_size 1 ∅ no_world) as [n Hn].
  exists n. intros w. unfold crawl_result, collect_all_assets_by_url.
  rewrite (Hn w), (Hn no_world). cbn [fst].
  by destruct (collect_loop fuel e base page_size 1 ∅ no_world).1.
Qed.

Lemma collect_loop_subset (fuel : nat) (base : string) (page_size : nat) :
  forall (first : nat) (all : gset string) (w : world) (links : gset string),
    (collect_loop fuel e base page_size first all w).1 = Some links ->
    forall x, x ∈ links ->
      x ∈ all \/ exists i, x ∈ page_links (listing e (page_url base i)).
Proof.
  induction fuel as [|fuel IH]; intros first all w links; [discriminate|].
  cbn [collect_loop].
  destruct (_ =? 0); [intros [= <-] x Hx; by left|].
  destruct (_ <? page_size).
  - intros [= <-] x [Hx|Hx]%elem_of_union; [by left|right; by eexists].
  - intros Hl x Hx. destruct (IH _ _ _ _ Hl x Hx) as [[H|H]%elem_of_union|H];
      [by left|right; by eexists|by right].
Qed.

Lemma crawl_result_clean (fuel : nat) (base : string) (page_size : nat)
    (assets : list string) :
  crawl_result fuel e base page_size = Some assets -> Forall clean assets.
Proof.
  unfold crawl_result, collect_all_assets_by_url. intros Hr.
  destruct (collect_loop fuel e base page_size 1 ∅ no_world) as [[set|] w'] eqn:Hc;
    [|discriminate].
  injection Hr as <-. apply Forall_forall. intros x Hx.
  unfold sorted in Hx. rewrite merge_sort_Permutation in Hx. apply elem_of_elements in Hx.
  destruct (collect_loop_subset fuel base page_size 1 ∅ no_world set) with (x := x)
    as [H|[i H]]; [by rewrite Hc|done|by apply not_elem_of_empty in H|].
  by eapply Hclean.
Qed.

Lemma publisher_completed (fuel : nat) (p : string * string) (w w' : world) :
  process_publisher fuel e processed p w = (Ok tt, w') -> resumable w ->
  resumable w' /\ keeps_processed w w'
  /\ exists assets,
       crawl_result fuel e p.2 PAGE_SIZE = Some assets
       /\ forall l, l ∈ assets -> l ∈ processed \/ l ∈ load_processed w'.
Proof.
  destruct p as [pn pu]. unfold process_publisher, bind at 1, lift. unfold bind.
  destruct (collect_any_world fuel pu PAGE_SIZE) as [n Hn]. rewrite Hn.
  destruct (crawl_result fuel e pu PAGE_SIZE) as [assets|] eqn:Hcrawl; [|discriminate].
  intros Hrun Hw. pose proof (crawl_result_clean _ _ _ _ Hcrawl) as Hassets.
  destruct (batched_aux_spec 9 (length assets) assets) as (Hconcat & _); [done|].
  change (concat (batched assets BATCH_SIZE) = assets) in Hconcat.
  apply (for_each_completed
           (fun b w => forall l, l ∈ b -> l ∈ processed \/ l ∈ load_processed w)) in Hrun.
  - destruct Hrun as (Hw' & Hk & HQ). split; [done|]. split; [exact Hk|].
    exists assets. split; [done|]. intros l Hl. rewrite <- Hconcat in Hl.
    apply elem_of_concat in Hl as (b & Hl & Hb). by eapply HQ.
  - intros b w1 w2 Hb [_ Hsub] l Hl. destruct (Hb l Hl); [by left|right; by apply Hsub].
  - intros b Hb w1 w2 Hbatch Hw1. eapply batch_completed; [exact Hbatch|exact Hw1|].
    apply Forall_forall. intros l Hl. rewrite Forall_forall in Hassets. apply Hassets.
    rewrite <- Hconcat. apply elem_of_concat. by exists b.
  - exact Hw.
Qed.

Lemma batch_skipped (pn pu : string) (batch : list string) (w : world) :
  (forall l, l ∈ batch -> l ∈ processed) ->
  process_batch e processed pn pu batch w = (Ok tt, w).
Proof.
  intros H%filter_all_processed. unfold process_batch. by rewrite H.
Qed.

Lemma publisher_skipped (fuel : nat) (pn pu : string) (assets : list string) :
  crawl_result fuel e pu PAGE_SIZE = Some assets ->
  (forall l, l ∈ assets -> l ∈ processed) ->
  exists navs,
    Forall (fun n => is_asset n = false) navs
    /\ forall w, process_publisher fuel e processed (pn, pu) w = (Ok tt, visit_all navs w).
Proof.
  intros Hcrawl Hall. destruct (collect_any_world fuel pu PAGE_SIZE) as [n Hn].
  exists (NavPublisher pu :: fetches pu 1 n). split.
  { constructor; [done|]. apply Forall_fmap, Forall_forall. done. }
  intros w. unfold process_publisher, bind at 1, lift. unfold bind.
  rewrite Hn, Hcrawl, goto_visit_all, visit_all_app. cbn [app].
  generalize (visit_all (NavPublisher pu :: fetches pu 1 n) w). intros w1.
  destruct (batched_aux_spec 9 (length assets) assets) as (Hconcat & _); [done|].
  change (concat (batched assets BATCH_SIZE) = assets) in Hconcat.
  assert (Hbs : forall b, b ∈ batched assets BATCH_SIZE -> forall l, l ∈ b -> l ∈ processed).
  { intros b Hb l Hl. apply Hall. rewrite <- Hconcat. apply elem_of_concat. by exists b. }
  clear Hconcat. induction (batched assets BATCH_SIZE) as [|b bs IH]; [done|].
  cbn [for_each]. unfold bind. rewrite batch_skipped by (apply Hbs; left).
  apply IH. intros b' Hb'. apply Hbs. by right.
Qed.

End completed.

Lemma main_loop_completed (e : env) (fuel : nat) (processed : gset string) (w w' : world) :
  clean_listing e ->
  main_loop fuel e processed w = (Ok tt, w') -> resumable w ->
  resumable w' /\ keeps_processed w w'
  /\ forall p, p ∈ load_publishers (publishers_txt e) ->
       exists assets,
         crawl_result fuel e p.2 PAGE_SIZE = Some assets
         /\ forall l, l ∈ assets -> l ∈ processed \/ l ∈ load_processed w'.
Proof.
  intros Hclean. unfold main_loop, bind at 1. intros Hrun Hw.
  assert (Hstart : exists w0, resumable w0 /\ keeps_processed w w0
            /\ for_each (load_publishers (publishers_txt e))
                 (process_publisher fuel e processed) w0 = (Ok tt, w')).
  { destruct (storage_exists e); [by exists w|]. by exists (goto NavSignIn w). }
  destruct Hstart as (w0 & Hw0 & Hk0 & Hloop).
  apply (for_each_completed (fun p w =>
           exists assets,
             crawl_result fuel e p.2 PAGE_SIZE = Some assets
             /\ forall l, l ∈ assets -> l ∈ processed \/ l ∈ load_processed w)) in Hloop.
  - destruct Hloop as (Hw' & Hk & HQ). split; [done|].
    split; [by eapply keeps_processed_trans|done].
  - intros p w1 w2 (assets & Hc & Hall) [_ Hsub]. exists assets. split; [done|].
    intros l Hl. destruct (Hall l Hl); [by left|right; by apply Hsub].
  - intros p _ w1 w2 Hp Hw1. by eapply publisher_completed.
  - exact Hw0.
Qed.

Lemma main_loop_skipped (e : env) (fuel : nat) (processed : gset string) :
  (forall p, p ∈ load_publishers (publishers_txt e) ->
     exists assets,
       crawl_result fuel e p.2 PAGE_SIZE = Some assets
       /\ forall l, l ∈ assets -> l ∈ processed) ->
  exists navs,
    Forall (fun n => is_asset n = false) navs
    /\ forall w, main_loop fuel e processed w = (Ok tt, visit_all navs w).
Proof.
  intros Hall.
  assert (Hloop : exists navs,
            Forall (fun n => is_asset n = false) navs
            /\ forall w, for_each (load_publishers (publishers_txt e))
                           (process_publisher fuel e processed) w
                         = (Ok tt, visit_all navs w)).
  { induction (load_publishers (publishers_txt e)) as [|[pn pu] ps IH].
    - exists []. split; [constructor|]. intros w. by rewrite visit_all_nil.
    - destruct IH as (navs & Hnavs & Hrest); [intros p Hp; apply Hall; by right|].
      destruct (Hall (pn, pu)) as (assets & Hc & Hin); [left|].
      destruct (publisher_skipped e processed fuel pn pu assets Hc Hin)
        as (navs0 & Hnavs0 & Hp).
      exists (navs0 ++ navs). split; [by apply Forall_app|].
      intros w. cbn [for_each]. unfold bind. by rewrite Hp, Hrest, visit_all_app. }
  destruct Hloop as (navs & Hnavs & Hloop). unfold main_loop, bind.
  destruct (storage_exists e).
  - exists navs. split; [done|]. intros w. apply Hloop.
  - exists (NavSignIn :: navs). split; [by constructor|].
    intros w. cbn [lift]. by rewrite Hloop, goto_visit_all, visit_all_app.
Qed.

(** X11. A run that went through leaves nothing to do: started again on
    the same store, from the files it left, the script finishes, opens no
    asset page and leaves the three files as they are (it only visits the
    publisher and listing pages again). This needs a progress file the
    first run could append to (absent, empty or ending in a line feed)
    and listing links that are clean. *)
Theorem second_run_opens_nothing (fuel : nat) (e : env) (w w1 : world) :
  main fuel e w = (Ok tt, w1) ->
  resumable w ->
  clean_listing e ->
  exists navs,
    main fuel e w1 = (Ok tt, visit_all navs w1)
    /\ Forall (fun n => is_asset n = false) navs.
Proof.
  intros Hrun Hw Hclean. rewrite main_split in Hrun.
  destruct (main_loop_completed e fuel (load_processed w) (with_header w) w1 Hclean Hrun)
    as (_ & [Hcsv Hsub] & Hall).
  { unfold resumable, with_header. by destruct (out_csv w). }
  assert (Hsome : is_Some (out_csv (with_header w))).
  { unfold with_header. destruct (out_csv w) eqn:Hc; [rewrite Hc|]; by eexists. }
  assert (Hw1 : with_header w1 = w1).
  { unfold with_header. by destruct (Hcsv Hsome) as [rows ->]. }
  destruct (main_loop_skipped e fuel (load_processed w1)) as (navs & Hnavs & Hskip).
  { intros p Hp. destruct (Hall p Hp) as (assets & Hc & Hin). exists assets.
    split; [done|]. intros l Hl. destruct (Hin l Hl) as [H|H]; [|done].
    apply Hsub. unfold with_header. by destruct (out_csv w). }
  exists navs. split; [|done]. by rewrite main_split, Hw1, Hskip.
Qed.

Lemma demo_listing_clean : clean_listing Demo.store.
Proof.
  intros url l Hl. unfold page_links in Hl. apply page_links_fold in Hl.
  destruct Hl as [Hl|(href & Hin & _ & _ & ->)]; [by apply not_elem_of_empty in Hl|].
  cbn [listing Demo.store] in Hin. destruct (String.eqb url _).
  - rewrite !elem_of_cons in Hin. destruct Hin as [H|[H|[H|[H|H]]]];
      try (injection H as ->; by repeat split);
      [discriminate H|by apply elem_of_nil in H].
  - by apply elem_of_nil in Hin.
Qed.

Lemma second_run_opens_nothing_witness :
  (main 5 Demo.store Demo.fresh).1 = Ok tt
  /\ exists navs,
       main 5 Demo.store (main 5 Demo.store Demo.fresh).2
       = (Ok tt, visit_all navs (main 5 Demo.store Demo.fresh).2)
       /\ Forall (fun n => is_asset n = false) navs.
Proof.
  split; [by vm_compute|].
  apply (second_run_opens_nothing 5 Demo.store Demo.fresh
           (main 5 Demo.store Demo.fresh).2).
  - vm_compute. reflexivity.
  - reflexivity.
  - exact demo_listing_clean.
Defined.

(** ** The CSV header (lines 181-186) *)

Lemma main_loop_appends (Pnav : nav -> Prop) (Pline : string -> Prop) (Prow : row -> Prop)
    (Pmark : string -> Prop) (fuel : nat) (e : env) (processed : gset string) (w : world) :
  (forall n, is_asset n = false -> Pnav n) ->
  (forall link, link ∉ processed -> Pnav (NavAsset link) /\ Pmark link) ->
  (forall pn pu link name ups upg,
      (pn, pu) ∈ load_publishers (publishers_txt e) -> link ∉ processed ->
      Forall (fun en : entry => Pline en.1 /\ Prow en.2) (entries pn pu link name ups upg)) ->
  appends Pnav Pline Prow Pmark w (main_loop fuel e processed w).2.
Proof.
  intros Hother Hasset Hentries. unfold main_loop. apply keeps_bind.
  - destruct (storage_exists e); [apply keeps_ret|].
    intros w1. cbn. rewrite goto_visit_all. apply appends_visit.
    constructor; [by apply Hother|constructor].
  - intros _. apply keeps_for_each. intros p Hp.
    apply (keeps_publisher Pnav Pline Prow Pmark e processed
             (load_publishers (publishers_txt e))); auto.
Qed.

Lemma data_row_not_header (pn pu link : string) (name : json)
    (ups : list price_pair) (upg : list upgrade) :
  Forall (fun en : entry => True /\ en.2 <> CSV_HEADER) (entries pn pu link name ups upg).
Proof.
  eapply Forall_impl; [apply entries_of_asset|].
  intros en [_ [name' Hrow]]. split; [done|]. intros Heq. rewrite Heq in Hrow.
  cbn in Hrow. injection Hrow as Hrow. unfold wrap_hyperlink in Hrow. discriminate Hrow.
Qed.

(** X12. The header is written exactly when the CSV file does not exist
    yet, and then first: a run on a new file leaves the header followed
    by data records only; a run on an existing file adds data records
    only, never a second header. *)
Theorem header_written_once (fuel : nat) (e : env) (w : world) :
  (out_csv w = None ->
     exists rows,
       out_csv (main fuel e w).2 = Some (CSV_HEADER :: rows)
       /\ Forall (fun r => r <> CSV_HEADER) rows)
  /\ (forall old, out_csv w = Some old ->
        exists rows,
          rows_of (out_csv (main fuel e w).2) = old ++ rows
          /\ Forall (fun r => r <> CSV_HEADER) rows).
Proof.
  rewrite main_split.
  destruct (main_loop_appends (fun _ => True) (fun _ => True) (fun r => r <> CSV_HEADER)
              (fun _ => True) fuel e (load_processed w) (with_header w))
    as (_ & _ & (rows & Hrows & Hdata) & _); try done.
  { intros. apply data_row_not_header. }
  set (w' := (main_loop fuel e (load_processed w) (with_header w)).2) in *.
  clearbody w'. unfold with_header in Hrows. split.
  - intros Hnone. rewrite Hnone in Hrows.
    change (rows_of (out_csv w') = (rows_of (out_csv w) ++ [CSV_HEADER]) ++ rows) in Hrows.
    rewrite Hnone in Hrows. exists rows. split; [|done].
    destruct (out_csv w') as [rows'|]; [|discriminate Hrows].
    f_equal. exact Hrows.
  - intros old Hold. rewrite Hold in Hrows.
    change (rows_of (out_csv w') = rows_of (out_csv w) ++ rows) in Hrows.
    rewrite Hold in Hrows. by exists rows.
Qed.

(** ** Only listed links (lines 219-264) *)

Lemma emit_listed (e : env) (pn pu l : string) (f : facts) :
  listed e l -> keeps (only_listed e) (emit_asset e pn pu l f).
Proof.
  intros Hl w. rewrite emit_asset_spec.
  destruct (unique_prices e (found_prices f)) as [ups|]; [|apply appends_refl].
  cbn [snd]. eapply appends_trans.
  - apply appends_entries. eapply Forall_impl; [apply entries_of_asset|].
    intros en [H1 H2]. split; [by exists l|right; by exists l].
  - by apply appends_mark.
Qed.

Lemma batch_listed (e : env) (processed : gset string) (pn pu : string)
    (batch : list string) :
  Forall (listed e) batch -> keeps (only_listed e) (process_batch e processed pn pu batch).
Proof.
  intros Hb. unfold process_batch.
  assert (Hok : Forall (listed e) (filter (fun l => l ∉ processed) batch)).
  { apply Forall_forall. intros l [_ Hl]%list_elem_of_filter.
    rewrite Forall_forall in Hb. by apply Hb. }
  destruct (filter (fun l => l ∉ processed) batch) as [|l0 ls]; [apply keeps_ret|].
  set (ok := l0 :: ls) in *. clearbody ok. rewrite Forall_forall in Hok.
  apply keeps_bind.
  - apply keeps_for_each. intros l Hl w. cbn. rewrite goto_visit_all.
    apply appends_visit. constructor; [|constructor]. intros l' [= <-]. by apply Hok.
  - intros _. apply keeps_for_each. intros r (l & -> & Hl)%list_elem_of_fmap.
    cbn [fst snd]. apply emit_listed. by apply Hok.
Qed.

Lemma crawl_result_listed (e : env) (fuel : nat) (base : string) (page_size : nat)
    (assets : list string) :
  crawl_result fuel e base page_size = Some assets -> Forall (listed e) assets.
Proof.
  unfold crawl_result, collect_all_assets_by_url. intros Hr.
  destruct (collect_loop fuel e base page_size 1 ∅ no_world) as [[set|] w'] eqn:Hc;
    [|discriminate].
  injection Hr as <-. apply Forall_forall. intros x Hx.
  unfold sorted in Hx. rewrite merge_sort_Permutation in Hx. apply elem_of_elements in Hx.
  destruct (collect_loop_subset e fuel base page_size 1 ∅ no_world set) with (x := x)
    as [H|[i H]]; [by rewrite Hc|done|by apply not_elem_of_empty in H|].
  by eexists.
Qed.

Lemma publisher_listed (e : env) (fuel : nat) (processed : gset string)
    (p : string * string) :
  keeps (only_listed e) (process_publisher fuel e processed p).
Proof.
  destruct p as [pn pu]. intros w. unfold process_publisher, bind at 1, lift. unfold bind.
  destruct (collect_any_world e fuel pu PAGE_SIZE) as [n Hn]. rewrite Hn.
  rewrite goto_visit_all, visit_all_app.
  assert (Hnav : only_listed e w (visit_all ([NavPublisher pu] ++ fetches pu 1 n) w)).
  { apply appends_visit. apply Forall_app. split; [by repeat constructor|].
    apply Forall_fmap, Forall_forall. done. }
  destruct (crawl_result fuel e pu PAGE_SIZE) as [assets|] eqn:Hcrawl; [|exact Hnav].
  eapply appends_trans; [exact Hnav|].
  pose proof (crawl_result_listed _ _ _ _ _ Hcrawl) as Hassets.
  destruct (batched_aux_spec 9 (length assets) assets) as (Hconcat & _); [done|].
  change (concat (batched assets BATCH_SIZE) = assets) in Hconcat.
  apply keeps_for_each. intros b Hb. apply batch_listed.
  apply Forall_forall. intros l Hl. rewrite Forall_forall in Hassets. apply Hassets.
  rewrite <- Hconcat. apply elem_of_concat. by exists b.
Qed.

(** X14. Whatever happens in a run, every asset page it opens, every
    line and record it writes (the CSV header apart) and every marker it
    appends is for a link that a listing page of the store gave: the store
    origin followed by an [href] that contains [/packages/]. *)
Theorem run_touches_only_listed_links (fuel : nat) (e : env) (w : world) :
  only_listed e w (main fuel e w).2
  /\ forall l, listed e l ->
       exists href, l = STORE +:+ href /\ Py.contains "/packages/" href = true.
Proof.
  split.
  - rewrite main_split. unfold with_header.
    assert (Hloop : forall w0, only_listed e w0 (main_loop fuel e (load_processed w) w0).2).
    { apply keeps_bind.
      - destruct (storage_exists e); [apply keeps_ret|].
        intros w1. cbn. rewrite goto_visit_all. apply appends_visit. by repeat constructor.
      - intros _. apply keeps_for_each. intros p _. apply publisher_listed. }
    destruct (out_csv w); [apply Hloop|].
    eapply appends_trans; [|apply Hloop]. apply appends_row. by left.
  - intros l [url Hl]. unfold page_links in Hl. apply page_links_fold in Hl.
    destruct Hl as [Hl|(href & _ & _ & Hc & ->)]; [by apply not_elem_of_empty in Hl|].
    by exists href.
Qed.

(** ** A publisher, gone through (lines 219-267) *)

Lemma for_each_exact {A} (N : A -> list nav) (K : A -> list string)
    (l : list A) (body : A -> M unit) :
  (forall x, x ∈ l -> forall w w',
      body x w = (Ok tt, w') ->
      visited w' = visited w ++ N x
      /\ text_of (progress w') = text_of (progress w) +:+ unlines (K x)) ->
  forall w w',
    for_each l body w = (Ok tt, w') ->
    visited w' = visited w ++ concat (map N l)
    /\ text_of (progress w') = text_of (progress w) +:+ unlines (concat (map K l)).
Proof.
  induction l as [|x l IH]; intros Hbody w w' Hrun.
  { injection Hrun as <-. cbn. by rewrite app_nil_r, app_empty_r. }
  cbn [for_each] in Hrun. unfold bind in Hrun.
  destruct (body x w) as [[[]|err] w1] eqn:Hx; [|discriminate].
  destruct (Hbody x ltac:(left) w w1 Hx) as (Hv1 & Hp1).
  destruct (IH (fun y Hy => Hbody y ltac:(by right)) w1 w' Hrun) as (Hv & Hp).
  cbn [map concat]. rewrite Hv, Hv1, Hp, Hp1, unlines_app, app_assoc_str.
  by rewrite <- app_assoc.
Qed.

Lemma emit_exact (e : env) (pn pu l : string) (f : facts) (w w' : world) :
  emit_asset e pn pu l f w = (Ok tt, w') ->
  visited w' = visited w ++ []
  /\ text_of (progress w') = text_of (progress w) +:+ unlines [l].
Proof.
  rewrite emit_asset_spec. destruct (unique_prices e (found_prices f)) as [ups|];
    [|discriminate].
  intros [= <-].
  destruct (write_entries_files
              (entries pn pu l (asset_name_of (asset_names f) l) ups (upgrade_from f)) w)
    as (_ & _ & Hp & Hv).
  cbn [mark_processed visited progress]. rewrite Hv, app_nil_r. split; [done|].
  change (text_of (append_text ?p ?t)) with (text_of p +:+ t). rewrite Hp.
  cbn [unlines]. by rewrite app_empty_r.
Qed.

Lemma concat_singletons {A B} (g : A -> B) (l : list A) :
  concat (map (fun x => [g x]) l) = map g l.
Proof. induction l as [|x l IH]; [done|]. cbn. by rewrite IH. Qed.

Lemma concat_nils {A B} (l : list A) : concat (map (fun _ : A => @nil B) l) = [].
Proof. induction l as [|x l IH]; [done|]. exact IH. Qed.

Lemma batch_exact (e : env) (processed : gset string) (pn pu : string)
    (batch : list string) (w w' : world) :
  process_batch e processed pn pu batch w = (Ok tt, w') ->
  visited w' = visited w ++ map NavAsset (filter (fun l => l ∉ processed) batch)
  /\ text_of (progress w')
     = text_of (progress w) +:+ unlines (filter (fun l => l ∉ processed) batch).
Proof.
  unfold process_batch.
  destruct (filter (fun l => l ∉ processed) batch) as [|l0 ls].
  { intros [= <-]. cbn. by rewrite app_nil_r, app_empty_r. }
  set (ok := l0 :: ls). clearbody ok. unfold bind. rewrite for_each_goto. intros Hrun.
  apply (for_each_exact (fun _ => []) (fun r => [r.1])) in Hrun.
  - destruct Hrun as (Hv & Hp). rewrite concat_nils, app_nil_r in Hv.
    rewrite map_map, (concat_singletons (fun l => l)), map_id in Hp. done.
  - intros r _ w1 w2. apply emit_exact.
Qed.

Lemma filter_concat {A} (P : A -> Prop) `{!forall x, Decision (P x)} (ls : list (list A)) :
  concat (map (filter P) ls) = filter P (concat ls).
Proof.
  induction ls as [|l ls IH]; [done|]. cbn [map concat]. by rewrite filter_app, IH.
Qed.

(** X15. When going through a publisher succeeds, the script has opened
    the publisher page, then listing pages 1, 2, ..., then exactly the
    crawled assets that were not in the processed set, each once, in
    ascending order of their URLs; and it has appended a marker for
    exactly these, in the same order. *)
Theorem publisher_pass (fuel : nat) (e : env) (processed : gset string)
    (pn pu : string) (w w' : world) :
  process_publisher fuel e processed (pn, pu) w = (Ok tt, w') ->
  exists assets n,
    crawl_result fuel e pu PAGE_SIZE = Some assets
    /\ StronglySorted String.le assets /\ NoDup assets
    /\ visited w' = visited w ++ NavPublisher pu :: fetches pu 1 n
                    ++ map NavAsset (filter (fun l => l ∉ processed) assets)
    /\ text_of (progress w')
       = text_of (progress w) +:+ unlines (filter (fun l => l ∉ processed) assets).
Proof.
  unfold process_publisher, bind at 1, lift. unfold bind.
  destruct (collect_any_world e fuel pu PAGE_SIZE) as [n Hn]. rewrite Hn.
  destruct (crawl_result fuel e pu PAGE_SIZE) as [assets|] eqn:Hcrawl; [|discriminate].
  intros Hrun. exists assets, n. split; [done|].
  assert (Hsorted : StronglySorted String.le assets /\ NoDup assets).
  { unfold crawl_result, collect_all_assets_by_url in Hcrawl.
    destruct (collect_loop fuel e pu PAGE_SIZE 1 ∅ no_world) as [[set|] w0];
      [|discriminate].
    injection Hcrawl as <-. unfold sorted. split.
    - apply StronglySorted_merge_sort; apply _.
    - rewrite merge_sort_Permutation. apply NoDup_elements. }
  destruct Hsorted as [Hs Hnd]. split; [done|]. split; [done|].
  destruct (batched_aux_spec 9 (length assets) assets) as (Hconcat & _); [done|].
  change (concat (batched assets BATCH_SIZE) = assets) in Hconcat.
  apply (for_each_exact (fun b => map NavAsset (filter (fun l => l ∉ processed) b))
           (fun b => filter (fun l => l ∉ processed) b)) in Hrun.
  - destruct Hrun as (Hv & Hp). rewrite Hv, Hp. cbn [visit_all goto visited progress].
    rewrite <- (map_map (filter (fun l => l ∉ processed)) (map NavAsset)).
    rewrite (filter_concat (fun l => l ∉ processed)), Hconcat.
    assert (Hm : forall ls : list (list string),
               concat (map (map NavAsset) ls) = map NavAsset (concat ls)).
    { induction ls as [|b bs IH]; [done|]. cbn. by rewrite map_app, IH. }
    rewrite Hm, (filter_concat (fun l => l ∉ processed)), Hconcat.
    split; [|done]. by rewrite <- !app_assoc.
  - intros b _ w1 w2. apply batch_exact.
Qed.

Lemma publisher_pass_witness :
  exists assets n,
    crawl_result 5 Demo.store Demo.base PAGE_SIZE = Some assets
    /\ StronglySorted String.le assets /\ NoDup assets
    /\ visited (process_publisher 5 Demo.store {[ Demo.sea ]} ("Acme", Demo.base) Demo.fresh).2
       = visited Demo.fresh ++ NavPublisher Demo.base :: fetches Demo.base 1 n
         ++ map NavAsset (filter (fun l => l ∉ ({[ Demo.sea ]} : gset string)) assets)
    /\ text_of (progress
         (process_publisher 5 Demo.store {[ Demo.sea ]} ("Acme", Demo.base) Demo.fresh).2)
       = text_of (progress Demo.fresh)
         +:+ unlines (filter (fun l => l ∉ ({[ Demo.sea ]} : gset string)) assets).
Proof.
  apply (publisher_pass 5 Demo.store {[ Demo.sea ]} "Acme" Demo.base Demo.fresh
           (process_publisher 5 Demo.store {[ Demo.sea ]} ("Acme", Demo.base) Demo.fresh).2).
  vm_compute. reflexivity.
Defined.

(** ** Reading the progress file back (lines 41-45) *)

Lemma readlines_one_line_crlf (s : string) :
  Py.has_char Py.LF s = false -> Py.has_char Py.CR s = false ->
  Py.readlines (s +:+ String Py.CR Py.newline) = [s +:+ Py.newline].
Proof.
  induction s as [|a s IH]; intros Hlf Hcr; [reflexivity|].
  cbn [Py.has_char] in Hlf, Hcr.
  apply orb_false_iff in Hlf as [Ha Hlf]. apply orb_false_iff in Hcr as [Hb Hcr].
  rewrite app_cons. cbn [Py.readlines]. rewrite Ha, Hb, IH by assumption. reflexivity.
Qed.

Lemma stripped_lines (lines : list string) (text : string -> string)
    (glue : list string -> string) :
  (forall l, clean l -> Py.readlines (text l) = [l +:+ Py.newline]) ->
  (forall l, terminated (text l) = true) ->
  glue [] = EmptyString ->
  (forall l rest, glue (l :: rest) = text l +:+ glue rest) ->
  Forall clean lines ->
  Py.strip <$> Py.readlines (glue lines) = lines.
Proof.
  intros Hone Hterm Hnil Hcons. induction 1 as [|l lines Hl _ IH].
  - by rewrite Hnil.
  - rewrite Hcons, readlines_app by apply Hterm. rewrite Hone by done.
    rewrite fmap_app, IH. cbn [fmap list_fmap app]. rewrite strip_line.
    destruct Hl as (_ & _ & ->). done.
Qed.

(** X16. A progress file of clean URLs, one per line, is read back as
    exactly the set of these URLs, whether the lines end in LF (as
    [mark_processed] writes them here) or in CR LF. *)
Theorem progress_file_read_back (lines : list string) :
  Forall clean lines ->
  load_processed (with_progress (unlines lines)) = list_to_set lines
  /\ load_processed (with_progress (unlines_crlf lines)) = list_to_set lines.
Proof.
  intros Hl. unfold load_processed, with_progress. cbn [progress]. split.
  - rewrite (stripped_lines lines (fun l => l +:+ Py.newline) unlines); try done.
    + intros l (Hlf & Hcr & _). by apply readlines_one_line.
    + intros l. apply (terminated_line EmptyString).
    + intros l rest. cbn [unlines]. by rewrite app_assoc_str.
  - rewrite (stripped_lines lines (fun l => l +:+ String Py.CR Py.newline) unlines_crlf);
      try done.
    + intros l (Hlf & Hcr & _). by apply readlines_one_line_crlf.
    + intros l. unfold terminated. rewrite ends_with_lf_app by done. apply orb_true_r.
    + intros l rest. cbn [unlines_crlf]. by rewrite app_assoc_str.
Qed.

Lemma progress_file_read_back_witness :
  load_processed (with_progress (unlines [Demo.sea; Demo.sky]))
  = list_to_set [Demo.sea; Demo.sky]
  /\ load_processed (with_progress (unlines_crlf [Demo.sea; Demo.sky]))
     = list_to_set [Demo.sea; Demo.sky].
Proof.
  apply (progress_file_read_back [Demo.sea; Demo.sky]).
  repeat constructor.
Defined.

(** * The run file by file (lines 219-264) *)

Lemma asset_entries_nonempty (e : env) (a : asset) (es : list entry) :
  asset_entries e a = Some es -> exists en, en ∈ es.
Proof.
  unfold asset_entries.
  destruct (unique_prices e _) as [ups|]; [|discriminate]. intros [= <-].
  pose proof (entries_length (publisher_of a).1 (publisher_of a).2 (link_of a)
                (asset_name_of (asset_names (process_asset e (link_of a))) (link_of a))
                ups (upgrade_from (process_asset e (link_of a)))) as Hlen.
  destruct (entries _ _ _ _ _ _) as [|en es]; [|exists en; left].
  destruct ups as [|p ups]; cbn [length] in Hlen; [lia|].
  destruct (upgrade_from _); cbn in Hlen; lia.
Qed.

Lemma text_of_append (f : option string) (text : string) :
  text_of (append_text f text) = text_of f +:+ text.
Proof. reflexivity. Qed.

Section written_by.
Variables (e : env) (ok : asset -> Prop) (Pnav : nav -> Prop).

Lemma wrote_refl (w : world) : wrote e ok Pnav w w.
Proof.
  exists [], [], []. cbn [map unlines]. rewrite !app_nil_r, !app_empty_r.
  repeat split; constructor.
Qed.

Lemma wrote_trans (w1 w2 w3 : world) :
  wrote e ok Pnav w1 w2 -> wrote e ok Pnav w2 w3 -> wrote e ok Pnav w1 w3.
Proof.
  intros (es1 & m1 & n1 & Hv1 & Ht1 & Hc1 & Hp1 & Hn1 & He1 & Hm1)
         (es2 & m2 & n2 & Hv2 & Ht2 & Hc2 & Hp2 & Hn2 & He2 & Hm2).
  exists (es1 ++ es2), (m1 ++ m2), (n1 ++ n2).
  rewrite Hv2, Hv1, Ht2, Ht1, Hc2, Hc1, Hp2, Hp1.
  rewrite !map_app, !unlines_app, !app_assoc_str, <- !app_assoc.
  repeat split; try by apply Forall_app.
  apply Forall_app. split; (eapply Forall_impl; [eassumption|]);
    intros a [Ha [en Hen]]; (split; [exact Ha|]); exists en; apply elem_of_app; auto.
Qed.

Lemma wrote_visit (navs : list nav) (w : world) :
  Forall Pnav navs -> wrote e ok Pnav w (visit_all navs w).
Proof.
  intros H. exists [], [], navs. cbn [map unlines visit_all visited out_txt out_csv progress].
  rewrite !app_nil_r, !app_empty_r. repeat split; [exact H|constructor|constructor].
Qed.

(** Lines 245-263 for one asset: its entries, then its marker. *)
Lemma wrote_asset (a : asset) (es : list entry) (w : world) :
  ok a -> asset_entries e a = Some es ->
  wrote e ok Pnav w (mark_processed (link_of a) (write_entries es w)).
Proof.
  intros Ha Hes. destruct (write_entries_files es w) as (Ht & Hc & Hp & Hv).
  exists (map (pair a) es), [a], [].
  unfold mark_processed. cbn [visited out_txt out_csv progress].
  rewrite text_of_append, Ht, Hc, Hv, Hp, !map_map, app_nil_r.
  cbn [map unlines fst snd]. rewrite app_empty_r. repeat split.
  - constructor.
  - apply Forall_fmap, Forall_forall. intros en Hen. cbn [fst snd].
    split; [exact Ha|]. by exists es.
  - constructor; [|constructor]. split; [exact Ha|].
    destruct (asset_entries_nonempty e a es Hes) as [en Hen].
    exists en. apply list_elem_of_fmap. by exists en.
Qed.

Lemma wrote_bind {A B} (c : M A) (k : A -> M B) :
  keeps (wrote e ok Pnav) c ->
  (forall a, keeps (wrote e ok Pnav) (k a)) ->
  keeps (wrote e ok Pnav) (bind c k).
Proof.
  intros Hc Hk w. unfold bind. specialize (Hc w).
  destruct (c w) as [[a|err] w']; [|exact Hc].
  eapply wrote_trans; [exact Hc|apply Hk].
Qed.

Lemma wrote_ret {A} (a : A) : keeps (wrote e ok Pnav) (ret a).
Proof. intros w. apply wrote_refl. Qed.

Lemma wrote_for_each {A} (l : list A) (body : A -> M unit) :
  (forall x, x ∈ l -> keeps (wrote e ok Pnav) (body x)) ->
  keeps (wrote e ok Pnav) (for_each l body).
Proof.
  induction l as [|x l IH]; intros Hb; [apply wrote_ret|].
  cbn [for_each]. apply wrote_bind.
  - apply Hb. left.
  - intros _. apply IH. intros y Hy. apply Hb. by right.
Qed.

Lemma wrote_emit (pn pu link : string) :
  ok {| publisher_of := (pn, pu); link_of := link |} ->
  keeps (wrote e ok Pnav) (emit_asset e pn pu link (process_asset e link)).
Proof.
  intros Ha w. rewrite emit_asset_spec.
  destruct (unique_prices e (found_prices (process_asset e link))) as [ups|] eqn:Hups;
    [|apply wrote_refl].
  cbn [snd].
  apply (wrote_asset {| publisher_of := (pn, pu); link_of := link |}); [exact Ha|].
  unfold asset_entries. cbn [publisher_of link_of fst snd]. by rewrite Hups.
Qed.

Variable processed : gset string.
Hypothesis Hlisting : forall url, Pnav (NavListing url).
Hypothesis Hpublisher : forall url, Pnav (NavPublisher url).

Lemma wrote_batch (pn pu : string) (batch : list string) :
  (forall l, l ∈ batch -> l ∉ processed ->
     ok {| publisher_of := (pn, pu); link_of := l |} /\ Pnav (NavAsset l)) ->
  keeps (wrote e ok Pnav) (process_batch e processed pn pu batch).
Proof.
  intros Hok. unfold process_batch.
  assert (Hf : forall l, l ∈ filter (fun l => l ∉ processed) batch ->
                 ok {| publisher_of := (pn, pu); link_of := l |} /\ Pnav (NavAsset l)).
  { intros l [Hl Hin]%list_elem_of_filter. by apply Hok. }
  destruct (filter (fun l => l ∉ processed) batch) as [|l0 ls]; [apply wrote_ret|].
  set (okl := l0 :: ls) in *. clearbody okl.
  apply wrote_bind.
  - apply wrote_for_each. intros l Hl w. cbn. rewrite goto_visit_all.
    apply wrote_visit. constructor; [|constructor]. by apply Hf.
  - intros _. apply wrote_for_each. intros r Hr.
    apply list_elem_of_fmap in Hr as (l & -> & Hl). cbn [fst snd].
    apply wrote_emit. by apply Hf.
Qed.

Lemma wrote_publisher (fuel : nat) (p : string * string) :
  (forall l, listed e l -> l ∉ processed ->
     ok {| publisher_of := p; link_of := l |} /\ Pnav (NavAsset l)) ->
  keeps (wrote e ok Pnav) (process_publisher fuel e processed p).
Proof.
  destruct p as [pn pu]. intros Hok w.
  unfold process_publisher, bind at 1, lift. unfold bind.
  destruct (collect_any_world e fuel pu PAGE_SIZE) as [n Hn]. rewrite Hn.
  rewrite goto_visit_all, visit_all_app.
  assert (Hnav : wrote e ok Pnav w (visit_all ([NavPublisher pu] ++ fetches pu 1 n) w)).
  { apply wrote_visit. apply Forall_app. split; [by repeat constructor|].
    apply Forall_fmap, Forall_forall. intros; apply Hlisting. }
  destruct (crawl_result fuel e pu PAGE_SIZE) as [assets|] eqn:Hcrawl; [|exact Hnav].
  eapply wrote_trans; [exact Hnav|].
  pose proof (crawl_result_listed _ _ _ _ _ Hcrawl) as Hassets.
  destruct (batched_aux_spec 9 (length assets) assets) as (Hconcat & _); [done|].
  change (concat (batched assets BATCH_SIZE) = assets) in Hconcat.
  apply wrote_for_each. intros b Hb. apply wrote_batch.
  intros l Hl. apply Hok. rewrite Forall_forall in Hassets. apply Hassets.
  rewrite <- Hconcat. apply elem_of_concat. by exists b.
Qed.

End written_by.

(** After the header, a run writes entries and markers of assets that are
    outside the processed set of the start, belong to a publisher of the
    list and were given by a listing page, and nothing else. *)
Lemma main_wrote (fuel : nat) (e : env) (w : world) :
  wrote e
    (fun a => (link_of a ∉ load_processed w)
              /\ publisher_of a ∈ load_publishers (publishers_txt e)
              /\ listed e (link_of a))
    (fun n => forall l, n = NavAsset l -> l ∉ load_processed w)
    (with_header w) (main fuel e w).2.
Proof.
  rewrite main_split. unfold main_loop. apply wrote_bind.
  - destruct (storage_exists e); [apply wrote_ret|].
    intros w1. cbn. rewrite goto_visit_all. apply wrote_visit.
    constructor; [|constructor]. intros l. discriminate.
  - intros _. apply wrote_for_each. intros p Hp. apply wrote_publisher.
    + intros url l. discriminate.
    + intros url l. discriminate.
    + intros l Hlisted Hl. split; [by repeat split|]. by intros l' [= <-].
Qed.

(** ** A record names its asset (lines 243, 250-260) *)

Lemma length_app_str (s t : string) :
  String.length (s +:+ t) = String.length s + String.length t.
Proof.
  induction s as [|c s IH]; [reflexivity|].
  rewrite app_cons. cbn [String.length]. by rewrite IH.
Qed.

Lemma app_same_length (a b x y : string) :
  a +:+ x = b +:+ y -> String.length a = String.length b -> a = b /\ x = y.
Proof.
  revert b. induction a as [|c a IH]; intros [|d b] H Hlen; try discriminate Hlen.
  - by rewrite !app_empty_l in H.
  - rewrite !app_cons in H. injection H as -> H. injection Hlen as Hlen.
    destruct (IH b H Hlen) as [-> ->]. by split.
Qed.

Lemma wrap_hyperlink_inj (l l' : string) (name : json) :
  wrap_hyperlink l name = wrap_hyperlink l' name -> l = l'.
Proof.
  unfold wrap_hyperlink, Value.or_else. cbv zeta. intros H.
  apply (app_same_length "=HYPERLINK(" "=HYPERLINK(") in H as [_ H]; [|reflexivity].
  apply (app_same_length (String Value.dquote EmptyString)
           (String Value.dquote EmptyString)) in H as [_ H]; [|reflexivity].
  pose proof (f_equal String.length H) as Hlen.
  destruct (Value.truthy name).
  - rewrite !length_app_str in Hlen.
    apply app_same_length in H as [H _]; [exact H|lia].
  - cbn [Value.str] in *. rewrite !length_app_str in Hlen.
    apply app_same_length in H as [H _]; [exact H|lia].
Qed.

Lemma entries_cells (pn pu link : string) (name : json)
    (ups : list price_pair) (upg : list upgrade) :
  Forall (fun en : entry =>
            en.2 !! 0 = Some name
            /\ en.2 !! 5 = Some (JStr (wrap_hyperlink link name)))
    (entries pn pu link name ups upg).
Proof.
  unfold entries. destruct ups as [|p0 ups0].
  { constructor; [|constructor]. by split. }
  set (all := p0 :: ups0). clearbody all.
  apply Forall_forall. intros en Hin. apply list_elem_of_In, in_flat_map in Hin.
  destruct Hin as (p & _ & Hin). destruct upg as [|u0 upg0].
  - destruct Hin as [<-|[]]. by split.
  - apply in_map_iff in Hin as (u & <- & _). by split.
Qed.

Lemma entry_of_cells (e : env) (a : asset) (en : entry) :
  entry_of e a en ->
  exists name,
    en.2 !! 0 = Some name /\ en.2 !! 5 = Some (JStr (wrap_hyperlink (link_of a) name)).
Proof.
  intros (es & Hes & Hen). unfold asset_entries in Hes.
  destruct (unique_prices e _) as [ups|]; [|discriminate]. injection Hes as <-.
  exists (asset_name_of (asset_names (process_asset e (link_of a))) (link_of a)).
  pose proof (entries_cells (publisher_of a).1 (publisher_of a).2 (link_of a)
                (asset_name_of (asset_names (process_asset e (link_of a))) (link_of a))
                ups (upgrade_from (process_asset e (link_of a)))) as Hall.
  rewrite Forall_forall in Hall. by apply Hall.
Qed.

Lemma entry_names_link (e : env) (a b : asset) (en_a en_b : entry) :
  entry_of e a en_a -> entry_of e b en_b -> en_a.2 = en_b.2 -> link_of a = link_of b.
Proof.
  intros Ha Hb Heq.
  apply entry_of_cells in Ha as (na & Ha0 & Ha5).
  apply entry_of_cells in Hb as (nb & Hb0 & Hb5).
  rewrite Heq in Ha0, Ha5. rewrite Ha0 in Hb0. injection Hb0 as <-.
  apply (wrap_hyperlink_inj _ _ na). congruence.
Qed.

(** What [wrote] leaves no room for: the line, the record, the entry or
    the marker of an asset whose link is in the set, appended on its
    own. *)
Lemma wrote_excludes_processed (e : env) (processed : gset string) (Pnav : nav -> Prop)
    (w : world) (b : asset) (en : entry) :
  link_of b ∈ processed -> entry_of e b en ->
  ~ wrote e (fun a => link_of a ∉ processed) Pnav w (save_txt_line en.1 w)
  /\ ~ wrote e (fun a => link_of a ∉ processed) Pnav w (save_csv_row en.2 w)
  /\ ~ wrote e (fun a => link_of a ∉ processed) Pnav w (write_entry en w)
  /\ ~ wrote e (fun a => link_of a ∉ processed) Pnav w (mark_processed (link_of b) w).
Proof.
  intros Hb Hen.
  assert (Hrow : forall w0 written,
            rows_of (out_csv (save_csv_row en.2 w0))
            = rows_of (out_csv w0) ++ map (fun x : asset * entry => x.2.2) written ->
            Forall (fun x : asset * entry =>
                      (link_of x.1 ∉ processed) /\ entry_of e x.1 x.2) written ->
            False).
  { intros w0 written Hc He. cbn [save_csv_row out_csv rows_of default] in Hc.
    apply app_inv_head in Hc. destruct written as [|[a en1] rest]; [discriminate Hc|].
    injection Hc as Hc _. apply Forall_cons in He as [[Ha Hen1] _]. cbn [fst snd] in *.
    apply Ha. by rewrite <- (entry_names_link e b a en en1 Hen Hen1 Hc). }
  assert (Hnone : forall (rows : list row) (written : list (asset * entry)),
            rows = rows ++ map (fun x : asset * entry => x.2.2) written -> written = []).
  { intros rows written H. rewrite <- (app_nil_r rows) in H at 1.
    apply app_inv_head in H. by destruct written. }
  assert (Hline : forall (s l : string), s +:+ (l +:+ Py.newline) = s +:+ EmptyString -> False).
  { intros s l H. apply app_same_length in H as [_ H]; [|reflexivity].
    apply (f_equal String.length) in H. rewrite length_app_str in H. cbn in H. lia. }
  repeat split.
  - intros (written & marked & navs & _ & Ht & Hc & _).
    apply Hnone in Hc. subst written. by apply Hline in Ht.
  - intros (written & marked & navs & _ & _ & Hc & _ & _ & He & _). by eapply Hrow.
  - intros (written & marked & navs & _ & _ & Hc & _ & _ & He & _).
    by apply (Hrow (save_txt_line en.1 w) written).
  - intros (written & marked & navs & _ & _ & Hc & Hp & _ & _ & Hm).
    apply Hnone in Hc. subst written. destruct marked as [|a marked].
    + by apply Hline in Hp.
    + apply Forall_cons in Hm as [[_ [en1 Hin]] _]. by apply elem_of_nil in Hin.
Qed.

(** ** The processed set (lines 188, 227-230) *)

(** C1 (amended). Every asset URL that is in the processed set loaded at
    the start of a run (the stripped lines of the progress file at that
    moment) is left out of every batch of that run: the run opens no asset
    page, writes no text line or CSV record and appends no marker for it.
    After the CSV header, all that the run appends to the text file and
    to the CSV file are entries of assets whose link is outside that set,
    line and record together; all that it appends to the progress file
    are links outside that set, each the link of an asset of which it has
    written an entry; every asset page it opens is of a link outside that
    set. The same holds of a batch and the set it is filtered by. A CSV
    record names its asset: the record of an entry of one asset is never
    the record of an entry of an asset with another link. So no record
    that the run appends is a record of an asset whose link is in the
    set; and where the listing pages give clean links, what the run
    appends to the progress file, read the way the progress file is
    read, holds no URL of the set. *)
Theorem processed_at_start_untouched (fuel : nat) (e : env) (w : world) :
  wrote e (fun a => link_of a ∉ load_processed w)
    (fun n => forall l, n = NavAsset l -> l ∉ load_processed w)
    (with_header w) (main fuel e w).2
  /\ (forall (processed : gset string) (pn pu : string) (batch : list string) (w0 : world),
        wrote e (fun a => link_of a ∉ processed)
          (fun n => forall l, n = NavAsset l -> l ∉ processed)
          w0 (process_batch e processed pn pu batch w0).2)
  /\ (forall (a b : asset) (en_a en_b : entry),
        entry_of e a en_a -> entry_of e b en_b -> en_a.2 = en_b.2 ->
        link_of a = link_of b)
  /\ (forall (rows : list row) (r : row) (b : asset) (en : entry),
        rows_of (out_csv (main fuel e w).2) = rows_of (out_csv (with_header w)) ++ rows ->
        r ∈ rows -> link_of b ∈ load_processed w -> entry_of e b en ->
        en.2 <> r)
  /\ (clean_listing e ->
      forall (added url : string),
        text_of (progress (main fuel e w).2) = text_of (progress w) +:+ added ->
        url ∈ load_processed w ->
        url ∉ load_processed (with_progress added)).
Proof.
  destruct (main_wrote fuel e w)
    as (written & marked & navs & Hv & Ht & Hc & Hp & Hn & He & Hm).
  split; [|split; [|split; [|split]]].
  - exists written, marked, navs. repeat split; try done.
    + eapply Forall_impl; [exact He|]. by intros x [[? _] ?].
    + eapply Forall_impl; [exact Hm|]. by intros x [[? _] ?].
  - intros processed pn pu batch w0. apply wrote_batch.
    intros l _ Hl. split; [exact Hl|]. by intros l' [= <-].
  - apply entry_names_link.
  - intros rows r b en Hrows Hr Hb Hen Heq.
    rewrite Hc in Hrows. apply app_inv_head in Hrows. subst rows.
    apply list_elem_of_fmap in Hr as ([a en'] & -> & Hx).
    rewrite Forall_forall in He. destruct (He _ Hx) as [[Ha _] Hen'].
    cbn [fst snd] in *. apply Ha.
    by rewrite <- (entry_names_link e b a en en' Hen Hen' Heq).
  - intros Hclean added url Hadded Hurl Hin.
    assert (Hprog : progress (with_header w) = progress w).
    { unfold with_header. by destruct (out_csv w). }
    rewrite Hp, Hprog in Hadded.
    apply app_same_length in Hadded as [_ <-]; [|reflexivity].
    assert (Hcl : Forall clean (map link_of marked)).
    { apply Forall_fmap. eapply Forall_impl; [exact Hm|].
      intros a [(_ & _ & url' & Hl) _]. by eapply Hclean. }
    unfold load_processed at 1, with_progress in Hin. cbn [progress] in Hin.
    rewrite (stripped_lines (map link_of marked) (fun l => l +:+ Py.newline) unlines)
      in Hin; try done.
    + apply elem_of_list_to_set, list_elem_of_fmap in Hin as (a & -> & Ha).
      rewrite Forall_forall in Hm. destruct (Hm _ Ha) as [[Hout _] _]. by apply Hout.
    + intros l (Hlf & Hcr & _). by apply readlines_one_line.
    + intros l. apply (terminated_line EmptyString).
    + intros l rest. cbn [unlines]. by rewrite app_assoc_str.
Qed.

(** ** The CSV records (lines 181-186, 239-260) *)

Lemma asset_entries_rows (e : env) (publishers : list (string * string))
    (a : asset) (es : list entry) :
  publisher_of a ∈ publishers ->
  asset_entries e a = Some es ->
  Forall (fun en : entry => csv_row_ok e publishers en.2) es.
Proof.
  destruct a as [[pn pu] link]. unfold asset_entries. cbn [publisher_of link_of fst snd].
  intros Hp. destruct (unique_prices e (found_prices (process_asset e link)))
    as [ups|] eqn:Hups; [|discriminate].
  intros [= <-]. unfold entries. destruct ups as [|p0 ups0].
  { constructor; [|constructor]. split; [reflexivity|right].
    exists pn, pu, link, []. cbv zeta. split; [exact Hp|]. split; [exact Hups|].
    left. split; reflexivity. }
  apply Forall_forall. intros en Hin. apply list_elem_of_In, in_flat_map in Hin.
  destruct Hin as (p & Hpin & Hin). apply list_elem_of_In in Hpin.
  destruct (upgrade_from (process_asset e link)) as [|u0 upg0] eqn:Hupg.
  - destruct Hin as [<-|[]]. split; [reflexivity|right].
    exists pn, pu, link, (p0 :: ups0). cbv zeta.
    split; [exact Hp|]. split; [exact Hups|].
    right. left. exists p. rewrite Hupg. split; [exact Hpin|]. split; reflexivity.
  - apply in_map_iff in Hin as (u & <- & Hu). apply list_elem_of_In in Hu.
    split; [reflexivity|right].
    exists pn, pu, link, (p0 :: ups0). cbv zeta.
    split; [exact Hp|]. split; [exact Hups|].
    right. right. exists p, u. rewrite Hupg. split; [exact Hpin|]. split; [exact Hu|].
    reflexivity.
Qed.

Lemma handle_response_prices_from (r : response) (f : facts) (x : price_pair) :
  x ∈ found_prices (handle_response r f) ->
  x ∈ found_prices f \/ exists data, body_json r = Some data /\ offer_reached data x.
Proof.
  unfold handle_response, try_body. destruct (all_headers r); [|by left].
  destruct (Py.contains _ _); [|by left].
  destruct (body_json r) as [data|]; [|by left].
  destruct (gate _); [|by left].
  cbn [fst found_prices]. intros Hx.
  destruct (extract_offer_rating_from x data _ Hx) as [H|H]; [by left|].
  right. by exists data.
Qed.

Lemma gather_prices_from (rs : list response) (f : facts) (x : price_pair) :
  x ∈ found_prices (fold_left (fun f r => handle_response r f) rs f) ->
  x ∈ found_prices f
  \/ exists r data, r ∈ rs /\ body_json r = Some data /\ offer_reached data x.
Proof.
  revert f. induction rs as [|r rs IH]; intros f; cbn [fold_left]; [by left|].
  intros Hx. destruct (IH _ Hx) as [H|(r' & data & Hr & Hb & Ho)].
  - destruct (handle_response_prices_from r f x H) as [?|(data & Hb & Ho)]; [by left|].
    right. exists r, data. split; [left|done].
  - right. exists r', data. split; [by right|done].
Qed.

(** C5. Every record a run appends to the CSV file, the header and the
    data records of all three branches, has eight columns, in the order
    of the header: asset name, original price, final price, upgrade from,
    upgrade URL, asset URL, publisher name, publisher page. A data record
    is the record of one asset and one of its deduplicated price pairs
    (and one of its upgrades): the second column holds the first
    component of the pair and the third column the second (or [N/A]),
    and where the interpreter lists sets faithfully the pair is the
    [originalPrice] and the [finalPrice], in this order, of an
    [offerRating] dict in a response of that asset. *)
Theorem csv_rows_have_eight_columns (fuel : nat) (e : env) (w : world) :
  CSV_HEADER = [JStr "Asset Name"; JStr "Original Price"; JStr "Final Price";
                JStr "Upgrade From"; JStr "Upgrade URL"; JStr "Asset URL";
                JStr "Publisher Name"; JStr "Publisher Page"]
  /\ (exists rows,
        rows_of (out_csv (main fuel e w).2) = rows_of (out_csv w) ++ rows
        /\ Forall (csv_row_ok e (load_publishers (publishers_txt e))) rows)
  /\ (lists_sets e ->
      forall (link : string) (ups : list price_pair) (p : price_pair),
        unique_prices e (found_prices (process_asset e link)) = Some ups ->
        p ∈ ups ->
        exists r data o,
          r ∈ responses e link /\ body_json r = Some data
          /\ reaches offer_handled data "offerRating" (JObj o)
          /\ p = (Value.get "originalPrice" o, Value.get "finalPrice" o)).
Proof.
  split; [reflexivity|]. split.
  - destruct (main_wrote fuel e w)
      as (written & marked & navs & _ & _ & Hrows & _ & _ & Hok & _).
    assert (HP : Forall (csv_row_ok e (load_publishers (publishers_txt e)))
                   (map (fun x : asset * entry => x.2.2) written)).
    { apply Forall_fmap. eapply Forall_impl; [exact Hok|].
      intros [a en] [(_ & Ha & _) (es & Hes & Hen)]. cbn [fst snd] in *.
      pose proof (asset_entries_rows e _ a es Ha Hes) as Hall.
      rewrite Forall_forall in Hall. by apply Hall. }
    rewrite Hrows. unfold with_header. destruct (out_csv w) as [old|] eqn:Hcsv.
    + rewrite Hcsv. by eexists.
    + exists (CSV_HEADER :: map (fun x : asset * entry => x.2.2) written).
      split; [cbn; rewrite Hcsv; reflexivity|].
      constructor; [|exact HP]. split; [reflexivity|by left].
  - intros Hsets link ups p Hups Hp.
    assert (Hfound : p ∈ found_prices (process_asset e link)).
    { unfold unique_prices, list_set in Hups.
      destruct (found_prices (process_asset e link)) as [|q fp].
      { injection Hups as <-. by apply elem_of_nil in Hp. }
      destruct (forallb _ _); [|discriminate]. injection Hups as <-.
      apply distinct_subset. by rewrite <- (Hsets (distinct (q :: fp))). }
    unfold process_asset, gather in Hfound.
    destruct (gather_prices_from _ _ _ Hfound) as [H|(r & data & Hr & Hb & o & Ho & _ & ->)].
    { by apply elem_of_nil in H. }
    by exists r, data, o.
Qed.

(** On the demo store the asset has the one price pair 40.00 / 20.00: a
    record with the two prices exchanged is not a record of a run. *)
Lemma exchanged_prices_rejected (c3 c4 c6 c7 : json) :
  ~ csv_row_ok Demo.store (load_publishers (publishers_txt Demo.store))
      [JStr "Sky 2"; JStr "20.00"; JStr "40.00"; c3; c4;
       JStr (wrap_hyperlink Demo.sky (JStr "Sky 2")); c6; c7].
Proof.
  intros [_ [H|H]]; [discriminate H|].
  destruct H as (pn & pu & link & ups & H). cbv zeta in H.
  destruct H as (_ & Hups & Hrow).
  assert (Hlink : link = Demo.sky).
  { destruct Hrow as [[_ Hr]|[(p & _ & _ & Hr)|(p & u & _ & _ & Hr)]];
      pose proof (f_equal (fun r : row => r !! 0) Hr) as H0;
      pose proof (f_equal (fun r : row => r !! 5) Hr) as H5;
      cbn [lookup list_lookup] in H0, H5;
      injection H0 as H0; rewrite <- H0 in H5;
      symmetry; apply (wrap_hyperlink_inj _ _ (JStr "Sky 2")); congruence. }
  subst link. vm_compute in Hups. injection Hups as <-.
  destruct Hrow as [[Hn _]|[(p & Hp & _ & Hr)|(p & u & Hp & _ & Hr)]];
    [discriminate Hn| |];
    apply list_elem_of_singleton in Hp; subst p;
    pose proof (f_equal (fun r : row => r !! 1) Hr) as H1;
    cbn [lookup list_lookup] in H1; vm_compute in H1; discriminate H1.
Qed.

(** ** When writing out an asset fails (lines 241-263) *)

Lemma gather_keeps_price (rs : list response) (f : facts) (x : price_pair) :
  x ∈ found_prices f ->
  x ∈ found_prices (fold_left (fun f r => handle_response r f) rs f).
Proof.
  revert f. induction rs as [|r rs IH]; intros f Hx; cbn [fold_left]; [exact Hx|].
  apply IH. unfold handle_response, try_body. destruct (all_headers r); [|exact Hx].
  destruct (Py.contains _ _); [|exact Hx].
  destruct (body_json r) as [data|]; [|exact Hx].
  destruct (gate _); [|exact Hx].
  cbn [fst found_prices]. by apply extract_offer_rating_keeps.
Qed.

(** X13. If a JSON response of an asset has, where the price extractor
    reaches it, an [offerRating] dict with a truthy price one of whose
    two prices is a list or a dict (which a set cannot hold), writing the
    asset out raises [TypeError] at line 241, before anything is written:
    the asset gets no line, no record and no marker. *)
Theorem emit_fails_on_unhashable (e : env) (pn pu link : string) (w : world)
    (before after : list response) (r : response)
    (headers : list (string * string)) (data : json) (o : dict) :
  responses e link = before ++ r :: after ->
  all_headers r = Some headers ->
  Py.contains "application/json" (content_type_of headers) = true ->
  body_json r = Some data ->
  reaches offer_handled data "offerRating" (JObj o) ->
  Value.truthy (Value.get "originalPrice" o)
  || Value.truthy (Value.get "finalPrice" o) = true ->
  Value.hashable (Value.get "originalPrice" o)
  && Value.hashable (Value.get "finalPrice" o) = false ->
  emit_asset e pn pu link (process_asset e link) w = (Fail TypeError, w).
Proof.
  intros Hrs Hh Hct Hb Hr Ht Hhash.
  assert (Hin : (Value.get "originalPrice" o, Value.get "finalPrice" o)
                  ∈ found_prices (process_asset e link)).
  { unfold process_asset, gather. rewrite Hrs, fold_left_app. cbn [fold_left].
    apply gather_keeps_price. unfold handle_response, try_body.
    rewrite Hh, Hct, Hb.
    rewrite (gate_opens data "offerRating" (JObj o));
      [|left|by eapply reaches_occurs].
    cbn [fst found_prices]. by apply extract_offer_rating_reaches. }
  rewrite emit_asset_spec. unfold unique_prices, list_set.
  destruct (found_prices (process_asset e link)) as [|q fp] eqn:Hf.
  { by apply elem_of_nil in Hin. }
  destruct (forallb _ (q :: fp)) eqn:Hall; [|reflexivity].
  rewrite forallb_forall in Hall.
  specialize (Hall _ (proj1 (list_elem_of_In _ _) Hin)). cbn [fst snd] in Hall.
  congruence.
Qed.

Lemma emit_fails_on_unhashable_witness :
  emit_asset Broken.store "Acme" Demo.base Demo.sky
    (process_asset Broken.store Demo.sky) Demo.fresh
  = (Fail TypeError, Demo.fresh).
Proof.
  apply (emit_fails_on_unhashable Broken.store "Acme" Demo.base Demo.sky Demo.fresh
           [json_response Demo.sky_json] [] (json_response Broken.data)
           [("content-type", "application/json; charset=utf-8")]
           Broken.data Broken.offer); try reflexivity.
  eapply reaches_field; [left|reflexivity|]. apply reaches_here. left.
Defined.
